(** * Jessback: reservations, shipment slots (creneaux) and packages (colis)

    A shallow embedding of the three Express routers of the repository
    (reservations, creneaux_expedition, colis) together with the relational
    store they talk to, and the proofs of the properties stated about them.

    Layout:
    - [Js]      : JSON values as the handlers see them, and the JavaScript
                  built-ins the handlers use (truthiness, ToString, parseInt,
                  Math.max / Math.min, Array.prototype.includes);
    - [Sql]     : rows, tables and the SQL the handlers send (WHERE id = $n,
                  LEFT JOIN ... GROUP BY ... COUNT, ILIKE, ORDER BY, LIMIT,
                  OFFSET, INSERT, UPDATE, DELETE ... RETURNING);
    - [Routes]  : the handlers, one definition per route;
    - then the theorems. *)

From Stdlib Require Import ZArith List String Ascii Bool Lia.
From Stdlib Require Import DecimalString DecimalPos Sorted.
Import ListNotations.
Open Scope string_scope.
Open Scope Z_scope.

(* ================================================================== *)
(** ** JavaScript values and built-ins *)

Module Js.

(** A value of a parsed JSON body.  [undefined] is not a JSON value: it only
    arises when a property is missing, and is modelled by [None] in
    [option jsval].  Numbers are the integral JSON numbers: identifiers,
    counts, capacities, the value 0. *)
#[warnings="-register-all"]
Inductive jsval : Type :=
| JNull
| JBool (b : bool)
| JNum (n : Z)
| JStr (s : string)
| JArr (items : list jsval)
| JObj (fields : list (string * jsval)).

(** An object is the list of its own properties in insertion order, which is
    the order of [Object.keys]. *)
Definition obj := list (string * jsval).

(** [o[k]] *)
Fixpoint prop (k : string) (o : obj) : option jsval :=
  match o with
  | [] => None
  | (k', v) :: o' => if String.eqb k k' then Some v else prop k o'
  end.

(** [Object.keys(o)] *)
Definition keys (o : obj) : list string := map fst o.

(** ToBoolean: [undefined], [null], [false], [0] and the empty string are
    falsy, everything else (arrays and objects included) is truthy. *)
Definition truthy (v : option jsval) : bool :=
  match v with
  | None => false
  | Some JNull => false
  | Some (JBool b) => b
  | Some (JNum n) => negb (n =? 0)
  | Some (JStr s) => negb (String.eqb s "")
  | Some (JArr _) => true
  | Some (JObj _) => true
  end.

(** [x || d] *)
Definition or_default (v : option jsval) (d : jsval) : jsval :=
  match v with
  | Some x => if truthy v then x else d
  | None => d
  end.

(** [list.includes(x)] for a list of string literals: only a string equal to
    one of them is included. *)
Definition includes (l : list string) (v : option jsval) : bool :=
  match v with
  | Some (JStr s) => existsb (String.eqb s) l
  | _ => false
  end.

(** Decimal text of an integer, as [Number.prototype.toString] prints it
    (below 10^21, where JavaScript does not switch to exponents). *)
Definition dec (n : Z) : string := NilZero.string_of_int (Z.to_int n).

Fixpoint join (sep : string) (l : list string) : string :=
  match l with
  | [] => ""
  | [x] => x
  | x :: l' => x ++ sep ++ join sep l'
  end.

(** ToString.  Inside [Array.prototype.join], [null] prints as the empty
    string. *)
Fixpoint to_string (v : jsval) : string :=
  match v with
  | JNull => "null"
  | JBool true => "true"
  | JBool false => "false"
  | JNum n => dec n
  | JStr s => s
  | JArr l =>
      join "," (map (fun x => match x with JNull => "" | _ => to_string x end) l)
  | JObj _ => "[object Object]"
  end.

(** *** Scanning numerals *)

Definition code (c : ascii) : nat := nat_of_ascii c.

(** White space of one byte: TAB, LF, VT, FF, CR, SP. *)
Definition ws1 (c : ascii) : bool :=
  let n := code c in ((9 <=? n) && (n <=? 13))%nat || (n =? 32)%nat.

(** White space of two bytes in UTF-8: U+00A0. *)
Definition ws2 (a b : ascii) : bool :=
  ((code a =? 194) && (code b =? 160))%nat.

(** White space of three bytes in UTF-8: U+1680, U+2000..U+200A, U+2028,
    U+2029, U+202F, U+205F, U+3000, U+FEFF. *)
Definition ws3 (a b c : ascii) : bool :=
  let x := code a in let y := code b in let z := code c in
  ((x =? 225) && (y =? 154) && (z =? 128) ||
   (x =? 226) && (y =? 128) &&
     ((128 <=? z) && (z <=? 138) || (z =? 168) || (z =? 169) || (z =? 175)) ||
   (x =? 226) && (y =? 129) && (z =? 159) ||
   (x =? 227) && (y =? 128) && (z =? 128) ||
   (x =? 239) && (y =? 187) && (z =? 191))%nat.

(** Strip the leading StrWhiteSpaceChar of ECMAScript. *)
Fixpoint js_ltrim (s : string) : string :=
  match s with
  | String a r =>
      if ws1 a then js_ltrim r else
      match r with
      | String b r2 =>
          if ws2 a b then js_ltrim r2 else
          match r2 with
          | String c r3 => if ws3 a b c then js_ltrim r3 else s
          | EmptyString => s
          end
      | EmptyString => s
      end
  | EmptyString => s
  end.

(** An optional sign: [(negative, rest)]. *)
Definition scan_sign (s : string) : bool * string :=
  match s with
  | String a r =>
      if Ascii.eqb a "-" then (true, r)
      else if Ascii.eqb a "+" then (false, r)
      else (false, s)
  | EmptyString => (false, s)
  end.

Definition digit10 (c : ascii) : option Z :=
  let n := code c in
  if ((48 <=? n) && (n <=? 57))%nat then Some (Z.of_nat n - 48) else None.

Definition digit16 (c : ascii) : option Z :=
  let n := code c in
  if ((48 <=? n) && (n <=? 57))%nat then Some (Z.of_nat n - 48)
  else if ((97 <=? n) && (n <=? 102))%nat then Some (Z.of_nat n - 87)
  else if ((65 <=? n) && (n <=? 70))%nat then Some (Z.of_nat n - 55)
  else None.

(** The longest prefix of digits in radix [r]: its value (from accumulator
    [acc]), how many digits were read, and what follows. *)
Fixpoint scan_digits (digit : ascii -> option Z) (r : Z) (acc : Z) (cnt : nat)
    (s : string) : Z * nat * string :=
  match s with
  | String c s' =>
      match digit c with
      | Some d => scan_digits digit r (acc * r + d) (S cnt) s'
      | None => (acc, cnt, s)
      end
  | EmptyString => (acc, cnt, s)
  end.

Definition signed (neg : bool) (n : Z) : Z := if neg then - n else n.

(** [parseInt(s)] with no radix: leading white space, an optional sign, an
    optional [0x]/[0X] prefix, then the longest prefix of digits; whatever
    follows is ignored.  [None] is NaN. *)
Definition parseInt_string (s : string) : option Z :=
  let '(neg, s1) := scan_sign (js_ltrim s) in
  let decimal :=
    let '(n, cnt, _) := scan_digits digit10 10 0 0%nat s1 in
    if (cnt =? 0)%nat then None else Some (signed neg n) in
  match s1 with
  | String z (String x s2) =>
      if Ascii.eqb z "0" && ((code x =? 120) || (code x =? 88))%nat then
        let '(n, cnt, _) := scan_digits digit16 16 0 0%nat s2 in
        if (cnt =? 0)%nat then None else Some (signed neg n)
      else decimal
  | _ => decimal
  end.

(** [parseInt(v)]: the argument is first converted with ToString;
    [undefined] prints as ["undefined"]. *)
Definition parseInt (v : option jsval) : option Z :=
  match v with
  | None => None
  | Some x => parseInt_string (to_string x)
  end.

(** [isNaN(parseInt(v))] *)
Definition isNaN_parseInt (v : option jsval) : bool :=
  match parseInt v with None => true | Some _ => false end.

(** *** Numbers

    A Number is a double.  The handlers compute with Numbers in the
    pagination only, and with integers there: NaN, the doubles that are
    integers, and the two infinities. *)
Inductive number : Type :=
| NaN
| Finite (x : Z)
| Infinity (negative : bool).

(** The largest double, (2^53 - 1) * 2^971. *)
Definition max_double : Z := (2 ^ 53 - 1) * 2 ^ 971.

(** The double nearest to the integer [n >= 0], a tie going to the even
    mantissa.  Every integer below 2^53 is a double; from there on a double
    is a mantissa [q] of 53 bits times a power of two. *)
Definition round_double (n : Z) : Z :=
  if n <? 2 ^ 53 then n else
  let e := Z.log2 n - 52 in
  let q := n / 2 ^ e in
  let r := n mod 2 ^ e in
  let half := 2 ^ (e - 1) in
  let q' := if (half <? r) || ((r =? half) && Z.odd q) then q + 1 else q in
  q' * 2 ^ e.

(** The Number value of a mathematical integer; beyond the largest double
    it is an infinity. *)
Definition Number (n : Z) : number :=
  let a := round_double (Z.abs n) in
  if max_double <? a then Infinity (n <? 0) else Finite (Z.sgn n * a).

(** [parseInt] computes a mathematical integer and returns its Number
    value. *)
Definition Number_of (mathInt : option Z) : number :=
  match mathInt with
  | Some n => Number n
  | None => NaN
  end.

(** [Math.max(a, x)] and [Math.min(a, x)] with a literal [a]: NaN is
    contagious. *)
Definition Math_max (a : Z) (x : number) : number :=
  match x with
  | NaN => NaN
  | Finite v => Finite (Z.max a v)
  | Infinity true => Finite a
  | Infinity false => Infinity false
  end.

Definition Math_min (a : Z) (x : number) : number :=
  match x with
  | NaN => NaN
  | Finite v => Finite (Z.min a v)
  | Infinity true => Infinity true
  | Infinity false => Finite a
  end.

(** [x - 1]: the double nearest to the difference. *)
Definition minus_one (x : number) : number :=
  match x with
  | Finite v => Number (v - 1)
  | _ => x
  end.

(** [x * y]: the double nearest to the product; an infinity times 0 is
    NaN. *)
Definition times (x y : number) : number :=
  match x, y with
  | NaN, _ | _, NaN => NaN
  | Finite a, Finite b => Number (a * b)
  | Infinity s, Finite b => if b =? 0 then NaN else Infinity (xorb s (b <? 0))
  | Finite a, Infinity s => if a =? 0 then NaN else Infinity (xorb s (a <? 0))
  | Infinity s, Infinity s' => Infinity (xorb s s')
  end.

(** The digits of [Number.prototype.toString] for a Number that is an
    integer [x >= 0]: the decimal [s * 10^t] with the fewest significant
    digits whose Number value is [x] and, among those, the nearest to [x] (of
    two equally near, the one with [s] even).  The search goes from the power
    [10^t] down: the multiples of [10^t] next to [x] are tried. *)
Fixpoint shortest (t : nat) (x : Z) : Z :=
  let u := 10 ^ Z.of_nat t in
  let lo := x / u * u in
  let hi := lo + u in
  let ok_lo := round_double lo =? x in
  let ok_hi := round_double hi =? x in
  if ok_lo && ok_hi then
    if x - lo <? hi - x then lo
    else if hi - x <? x - lo then hi
    else if Z.even (x / u) then lo else hi
  else if ok_lo then lo
  else if ok_hi then hi
  else match t with
       | O => x
       | S t' => shortest t' x
       end.

(** The integer that the text of a Number denotes, when that text is a
    plain numeral: below 10^21 the text is the digits above (with a sign),
    from there on it has an exponent. *)
Definition Number_text (x : number) : option Z :=
  match x with
  | Finite v =>
      if Z.abs v <? 10 ^ 21 then Some (Z.sgn v * shortest 21 (Z.abs v)) else None
  | _ => None
  end.

(** [Math.ceil(a / b)] for [a >= 0] and [b > 0].  [a] is the row count of a
    table and [b] a limit of at most 100: below 2^53 rows the quotient of the
    doubles, rounded up, is that of the integers. *)
Definition ceil_div (a b : Z) : Z := (a + b - 1) / b.

End Js.

(* ================================================================== *)
(** ** The relational store and the SQL of the handlers *)

Module Sql.
Import Js.

(** A row is what node-postgres hands back: an object from column names to
    values.  SQL NULL is [JNull]. *)
Definition row := obj.
Definition table := list row.

(** The value of column [c] in row [r]. *)
Definition col (c : string) (r : row) : jsval :=
  match prop c r with Some v => v | None => JNull end.

(** Row [r] with column [c] set to [v]. *)
Fixpoint set_col (c : string) (v : jsval) (r : row) : row :=
  match r with
  | [] => [(c, v)]
  | (c', v') :: r' =>
      if String.eqb c c' then (c, v) :: r' else (c', v') :: set_col c v r'
  end.

(** [SET c1 = v1, c2 = v2, ...] *)
Definition assign (sets : list (string * jsval)) (r : row) : row :=
  fold_left (fun acc cv => set_col (fst cv) (snd cv) acc) sets r.

(** The integer in a value of an integer column. *)
Definition int_of (v : jsval) : option Z :=
  match v with JNum n => Some n | _ => None end.

(** SQL [a = b] on integer columns, as a WHERE or ON condition: a comparison
    with NULL does not hold. *)
Definition sql_eq (a b : jsval) : bool :=
  match a, b with
  | JNum x, JNum y => x =? y
  | _, _ => false
  end.

(** [WHERE id = k] *)
Definition has_id (k : Z) (r : row) : bool := sql_eq (col "id" r) (JNum k).

(** *** Binding statement parameters

    The driver sends every parameter as text and the store reads it at the
    type of the column; a text that is not a numeral makes the statement fail.
    Modelled from the spec: the schema is not among the sources; section 3
    gives the identifiers and the maximum capacity of a slot as integers and
    section 6 gives [colis.creneau_id] as a nullable foreign key to
    [creneaux_expedition.id].  The other columns keep the value they are
    given. *)

Fixpoint pg_ltrim (s : string) : string :=
  match s with
  | String a r => if ws1 a then pg_ltrim r else s
  | EmptyString => s
  end.

Fixpoint all_ws (s : string) : bool :=
  match s with
  | String a r => ws1 a && all_ws r
  | EmptyString => true
  end.

Definition in_int4 (k : Z) : bool := (-2147483648 <=? k) && (k <=? 2147483647).
Definition in_int8 (k : Z) : bool :=
  (-9223372036854775808 <=? k) && (k <=? 9223372036854775807).

(** A Number bound to LIMIT or OFFSET: the driver sends its text and the
    store reads a bigint from it; NaN, an infinity, a text with an exponent
    and a numeral out of range are refused. *)
Definition bind_int8 (x : number) : option Z :=
  match Number_text x with
  | Some k => if in_int8 k then Some k else None
  | None => None
  end.

(** Input of a 32-bit integer column: white space, an optional sign, decimal
    digits, white space; nothing else, and within range. *)
Definition int4in (s : string) : option Z :=
  let '(neg, s1) := scan_sign (pg_ltrim s) in
  let '(n, cnt, rest) := scan_digits digit10 10 0 0%nat s1 in
  if (cnt =? 0)%nat then None
  else if negb (all_ws rest) then None
  else if in_int4 (signed neg n) then Some (signed neg n) else None.

(** A parameter bound to an integer column: [undefined] and [null] are NULL,
    a number and a string are read as above, anything else is refused.
    [None] means the statement fails. *)
Definition bind_int (v : option jsval) : option jsval :=
  match v with
  | None => Some JNull
  | Some JNull => Some JNull
  | Some (JNum n) => if in_int4 n then Some (JNum n) else None
  | Some (JStr s) => option_map JNum (int4in s)
  | Some _ => None
  end.

(** A parameter bound to any other column is kept as it was given;
    [undefined] is NULL. *)
Definition bind_any (v : option jsval) : jsval :=
  match v with Some x => x | None => JNull end.

(** *** LEFT JOIN, GROUP BY, COUNT *)

(** [l LEFT JOIN r ON on]: every row of [l] with each of its matches, or once
    with no match. *)
Definition left_join (l r : table) (on : row -> row -> bool)
    : list (row * option row) :=
  flat_map (fun a =>
              match filter (on a) r with
              | [] => [(a, None)]
              | ms => map (fun b => (a, Some b)) ms
              end) l.

(** [ON ce.id = c.creneau_id] *)
Definition on_creneau (ce c : row) : bool :=
  sql_eq (col "id" ce) (col "creneau_id" c).

Definition option_Z_eq_dec (a b : option Z) : {a = b} + {a <> b}.
Proof. decide equality. apply Z.eq_dec. Defined.

Definition option_Z_eqb (a b : option Z) : bool :=
  if option_Z_eq_dec a b then true else false.

(** [GROUP BY key]: one group per distinct key, holding the rows of that
    key. *)
Definition group_by {A} (key : A -> option Z) (l : list A) : list (list A) :=
  map (fun k => filter (fun x => option_Z_eqb (key x) k) l)
      (nodup option_Z_eq_dec (map key l)).

(** [COUNT(c.id)] over a group of joined rows: the rows whose right side is
    present with a non-NULL id.  A count is a bigint, which the driver hands
    to the handler as decimal text ([bigint_text] below); [parseInt] and [>=]
    read that text back as the same number. *)
Definition count_c_id (g : list (row * option row)) : Z :=
  Z.of_nat (List.length (filter (fun j => match snd j with
                                     | Some c => match col "id" c with
                                                 | JNull => false
                                                 | _ => true
                                                 end
                                     | None => false
                                     end) g)).

(** A bigint in a row that the driver returns: its decimal text. *)
Definition bigint_text (n : Z) : jsval := JStr (dec n).

(** [a - n] where [a] is an integer column and [n] a count: a bigint. *)
Definition sql_minus (a : jsval) (n : Z) : jsval :=
  match a with JNum m => bigint_text (m - n) | _ => JNull end.

(** *** ILIKE *)

Definition lower (c : ascii) : ascii :=
  let n := code c in
  if ((65 <=? n) && (n <=? 90))%nat then ascii_of_nat (n + 32) else c.

Fixpoint lowercase (s : string) : string :=
  match s with
  | String c r => String (lower c) (lowercase r)
  | EmptyString => EmptyString
  end.

Definition upper (c : ascii) : ascii :=
  let n := code c in
  if ((97 <=? n) && (n <=? 122))%nat then ascii_of_nat (n - 32) else c.

(** [s.toUpperCase()] on the letters a..z. *)
Fixpoint uppercase (s : string) : string :=
  match s with
  | String c r => String (upper c) (uppercase r)
  | EmptyString => EmptyString
  end.

(** [t LIKE p]: [%] stands for any text, [_] for any one character and a
    backslash takes the next character literally. *)
Fixpoint like (p : string) : string -> bool :=
  match p with
  | EmptyString => fun t => match t with EmptyString => true | _ => false end
  | String c p' =>
      if (code c =? 37)%nat then
        fix star (t : string) : bool :=
          like p' t || match t with String _ t' => star t' | EmptyString => false end
      else if (code c =? 95)%nat then
        fun t => match t with String _ t' => like p' t' | EmptyString => false end
      else if (code c =? 92)%nat then
        match p' with
        | String e p'' =>
            fun t => match t with
                     | String d t' => Ascii.eqb e d && like p'' t'
                     | EmptyString => false
                     end
        | EmptyString => fun _ => false
        end
      else
        fun t => match t with
                 | String d t' => Ascii.eqb c d && like p' t'
                 | EmptyString => false
                 end
  end.

(** The text of a stored value, for pattern matching: a string is its own
    text, numbers and booleans print; NULL has none (and the texts of stored
    arrays and objects are not modelled). *)
Definition text_of (v : jsval) : option string :=
  match v with
  | JStr s => Some s
  | JNum _ | JBool _ => Some (to_string v)
  | _ => None
  end.

(** [v = s] on a text column, as a WHERE condition. *)
Definition text_eq (v : jsval) (s : string) : bool :=
  match text_of v with
  | Some t => String.eqb t s
  | None => false
  end.

(** [v ILIKE p] as a WHERE condition. *)
Definition ilike (v : jsval) (p : string) : bool :=
  match text_of v with
  | Some t => like (lowercase p) (lowercase t)
  | None => false
  end.

(** *** ORDER BY, LIMIT, OFFSET *)

Definition rank (v : jsval) : nat :=
  match v with
  | JNum _ => 0 | JStr _ => 1 | JBool _ => 2 | JArr _ => 3 | JObj _ => 4
  | JNull => 5
  end.

(** The order of column values: numbers by value, texts byte-wise, NULL
    after everything else. *)
Definition sql_le (a b : jsval) : bool :=
  match a, b with
  | JNum x, JNum y => x <=? y
  | JStr x, JStr y => String.leb x y
  | _, _ => (rank a <=? rank b)%nat
  end.

Section Sorting.
Context {A : Type} (le : A -> A -> bool).

Fixpoint insert_sorted (x : A) (l : list A) : list A :=
  match l with
  | [] => [x]
  | y :: l' => if le x y then x :: l else y :: insert_sorted x l'
  end.

Definition sort (l : list A) : list A := fold_right insert_sorted [] l.

End Sorting.

(** [ORDER BY key ASC|DESC] *)
Definition order_by {A} (key : A -> jsval) (desc : bool) (l : list A) : list A :=
  sort (fun a b => if desc then sql_le (key b) (key a)
                   else sql_le (key a) (key b)) l.

(** [LIMIT n OFFSET k] *)
Definition limit_offset {A} (n k : Z) (l : list A) : list A :=
  firstn (Z.to_nat n) (skipn (Z.to_nat k) l).

(** *** UPDATE and DELETE *)

(** The parameters of a SET list, bound at the types of their columns;
    [None] when one of them is refused. *)
Fixpoint bind_sets (int_col : string -> bool)
    (sets : list (string * option jsval)) : option (list (string * jsval)) :=
  match sets with
  | [] => Some []
  | (c, v) :: rest =>
      match (if int_col c then bind_int v else Some (bind_any v)),
            bind_sets int_col rest with
      | Some x, Some xs => Some ((c, x) :: xs)
      | _, _ => None
      end
  end.

(** [UPDATE t SET sets WHERE id = k RETURNING *]: the new table and the rows
    returned. *)
Definition update_where_id (t : table) (k : Z) (sets : list (string * jsval))
    : table * list row :=
  (map (fun r => if has_id k r then assign sets r else r) t,
   map (assign sets) (filter (has_id k) t)).

(** [DELETE FROM t WHERE cond RETURNING *] *)
Definition delete_where (t : table) (cond : row -> bool) : table * list row :=
  (filter (fun r => negb (cond r)) t, filter cond t).

(** *** The store *)

Record store : Type := mkStore {
  reservations : table;
  creneaux_expedition : table;
  colis : table;
  colis_id_seq : Z  (** next value of the sequence behind [colis.id] *)
}.

End Sql.

(* ================================================================== *)
(** ** The routes *)

Module Routes.
Import Js Sql.

(** What a handler does with a request: it answers with a status and a JSON
    body, or an exception of the driver reaches [asyncHandler], which hands it
    to [next] (the application then answers with an internal error). *)
Inductive response : Type :=
| Reply (status : Z) (body : jsval)
| Next.

(** [res.status(s).json({ error: msg })] *)
Definition error (s : Z) (msg : string) : response :=
  Reply s (JObj [("error", JStr msg)]).

(** [!id || isNaN(parseInt(id))] on a path parameter. *)
Definition invalid_id (id : string) : bool :=
  String.eqb id "" || isNaN_parseInt (Some (JStr id)).

(** The first of the required fields that is falsy in the body, as the
    [for (let field of requiredFields)] loops look for it. *)
Definition missing_field (required : list string) (body : obj) : option string :=
  find (fun f => negb (truthy (prop f body))) required.

(** *** Pagination, shared by the three list routes *)

(** The query string of a list request. *)
Record list_query : Type := mkQuery {
  page : option string;
  limit : option string;
  search : option string;
  statut : option string;
  sortBy : option string;
  order : option string
}.

(** A query parameter with its default: [const { page = 1 } = req.query]. *)
Definition param (p : option string) (default : jsval) : jsval :=
  match p with Some s => JStr s | None => default end.

(** [Math.max(1, parseInt(page))] *)
Definition pageNum (q : list_query) : number :=
  Math_max 1 (Number_of (parseInt (Some (param (page q) (JNum 1))))).

(** [Math.min(100, Math.max(1, parseInt(limit)))] *)
Definition limitNum (q : list_query) : number :=
  Math_min 100 (Math_max 1 (Number_of (parseInt (Some (param (limit q) (JNum 10)))))).

(** [(pageNum - 1) * limitNum] *)
Definition offset (q : list_query) : number :=
  times (minus_one (pageNum q)) (limitNum q).

(** [allowedSortColumns.includes(sortBy) ? sortBy : 'id'] *)
Definition sortColumn (allowed : list string) (q : list_query) : string :=
  match sortBy q with
  | Some s => if existsb (String.eqb s) allowed then s else "id"
  | None => "id"
  end.

(** [order.toUpperCase() === 'ASC'].  [toUpperCase] is the mapping of
    Unicode: the texts that it takes to ASC are an [a] or [A], then an [s],
    an [S] or the long s (U+017F, the bytes C5 BF in UTF-8, the one other
    character whose upper case is S), then a [c] or [C]. *)
Definition toUpperCase_is_ASC (s : string) : bool :=
  let one_of (x y c : ascii) := Ascii.eqb c x || Ascii.eqb c y in
  match s with
  | String a (String b (String c EmptyString)) =>
      one_of "a"%char "A"%char a && one_of "s"%char "S"%char b && one_of "c"%char "C"%char c
  | String a (String b1 (String b2 (String c EmptyString))) =>
      one_of "a"%char "A"%char a && ((code b1 =? 197) && (code b2 =? 191))%nat
      && one_of "c"%char "C"%char c
  | _ => false
  end.

(** [order.toUpperCase() === 'ASC' ? 'ASC' : 'DESC']; [true] is DESC. *)
Definition sortDesc (q : list_query) : bool :=
  match order q with
  | Some s => negb (toUpperCase_is_ASC s)
  | None => true
  end.

(** [if (search)]: the pattern [%search%] when a non-empty search is given. *)
Definition search_pattern (q : list_query) : option string :=
  match search q with
  | Some s => if String.eqb s "" then None else Some ("%" ++ s ++ "%")
  | None => None
  end.

(** The [pagination] object of a list answer. *)
Definition pagination (pageNum limitNum total : Z) : jsval :=
  let totalPages := ceil_div total limitNum in
  JObj [("page", JNum pageNum);
        ("limit", JNum limitNum);
        ("total", JNum total);
        ("totalPages", JNum totalPages);
        ("hasNext", JBool (pageNum <? totalPages));
        ("hasPrev", JBool (1 <? pageNum))].

(** The answer of a list route: the page cut out of the [ordered] rows that
    match, and the pagination computed from the [total] of the count query.
    [limitNum] and [offset] are the parameters of LIMIT and OFFSET: a NaN
    page or limit, or an offset that the store does not read, makes the
    statement fail. *)
Definition list_answer (q : list_query) (total : Z) (ordered : list row)
    : response :=
  match pageNum q, limitNum q, bind_int8 (limitNum q), bind_int8 (offset q) with
  | Finite p, Finite l, Some n, Some k =>
      Reply 200
        (JObj [("data", JArr (map JObj (limit_offset n k ordered)));
               ("pagination", pagination p l total)])
  | _, _, _, _ => Next
  end.

(** *** Packages: colisRouter *)

Section Handlers.

(** [s <= 0] for a string [s], that is StringToNumber(s) <= 0: the numeric
    reading of arbitrary text is left to ECMAScript and taken as given. *)
Variable string_le0 : string -> bool.

(** [v <= 0]: ToNumber(v) <= 0, which is false when ToNumber(v) is NaN.
    [undefined] is NaN, [null] is 0, [true] is 1, [false] is 0, an array is
    read through its text and an object is NaN. *)
Definition le0 (v : option jsval) : bool :=
  match v with
  | None => false
  | Some JNull => true
  | Some (JBool b) => negb b
  | Some (JNum n) => n <=? 0
  | Some (JStr s) => string_le0 s
  | Some (JArr l) => string_le0 (to_string (JArr l))
  | Some (JObj _) => false
  end.

Definition colis_required : list string :=
  ["nom_expediteur"; "telephone_expediteur"; "adresse_expediteur";
   "nom_destinataire"; "telephone_destinataire"; "adresse_destinataire"; "poids"].

Definition validPackageTypes : list string :=
  ["document"; "vetements"; "electronique"; "nourriture"; "autre"].

Definition validPaymentMethods : list string :=
  ["especes"; "carte"; "virement"; "mobile"].

Definition validStatus : list string := ["en_attente"; "en_transit"; "livre"].

(** [x && !valid.includes(x)] *)
Definition present_and_invalid (valid : list string) (v : option jsval) : bool :=
  truthy v && negb (includes valid v).

(** The capacity query of the create route:
    [SELECT ce.capacite_max, COUNT(c.id) as current_usage
     FROM creneaux_expedition ce LEFT JOIN colis c ON ce.id = c.creneau_id
     WHERE ce.id = $1 GROUP BY ce.id].
    The groups of the join, each with the row of its slot and its count. *)
Definition creneau_groups (db : store) (cond : row -> bool) : list (row * Z) :=
  map (fun g => (match g with j :: _ => fst j | [] => [] end, count_c_id g))
      (group_by (fun j => int_of (col "id" (fst j)))
         (filter (fun j => cond (fst j))
            (left_join (creneaux_expedition db) (colis db) on_creneau))).

(** [current_usage >= capacite_max], a count against an integer column; a
    NULL capacity counts as 0. *)
Definition usage_ge (current_usage : Z) (capacite_max : jsval) : bool :=
  match capacite_max with
  | JNum m => m <=? current_usage
  | JNull => 0 <=? current_usage
  | _ => false
  end.

(** [Math.random().toString(36)] from the base-36 digits of the fraction:
    ["0"] when there are none, ["0."] followed by the digits otherwise. *)
Definition digit36 (d : nat) : ascii :=
  let d := (d mod 36)%nat in
  if (d <? 10)%nat then ascii_of_nat (48 + d) else ascii_of_nat (87 + d).

Definition random_toString36 (frac : list nat) : string :=
  match frac with
  | [] => "0"
  | _ => "0." ++ string_of_list_ascii (map digit36 frac)
  end.

(** ['COL' + Date.now() + Math.random().toString(36).substr(2, 9).toUpperCase()] *)
Definition numero_suivi (now : Z) (frac : list nat) : string :=
  "COL" ++ dec now ++ uppercase (substring 2 9 (random_toString36 frac)).

(** The foreign key of [colis.creneau_id]: NULL, or the id of a slot. *)
Definition fk_creneau (db : store) (v : jsval) : bool :=
  match v with
  | JNull => true
  | JNum k => existsb (has_id k) (creneaux_expedition db)
  | _ => false
  end.

(** [INSERT INTO colis (...) VALUES (...) RETURNING *]: the new row takes the
    next id.  Modelled from the spec: [creneau_id] is a nullable foreign key
    to the slots (section 6) and the status of a new package is pending
    (section 4.3); the schema itself is not among the sources. *)
Definition insert_colis (db : store) (creneau_id : jsval)
    (values : list (string * jsval)) : option row * store :=
  let r := ("id", JNum (colis_id_seq db)) :: ("creneau_id", creneau_id)
           :: (values ++ [("statut", JStr "en_attente")])%list in
  if fk_creneau db creneau_id then
    (Some r, mkStore (reservations db) (creneaux_expedition db)
                     (colis db ++ [r])%list (colis_id_seq db + 1))
  else
    (None, mkStore (reservations db) (creneaux_expedition db)
                   (colis db) (colis_id_seq db + 1)).

(** The block [if (creneau_id) { ... }] of the create route: the answer it
    returns, if it returns one.  The capacity query is the aggregate join
    above with [WHERE ce.id = $1]; its first row is read. *)
Definition check_creneau (db : store) (creneau_id : option jsval)
    : option response :=
  if truthy creneau_id then
    match bind_int creneau_id with
    | Some (JNum k) =>
        match creneau_groups db (has_id k) with
        | [] => Some (error 400 "Créneau spécifié introuvable")
        | (ce, current_usage) :: _ =>
            if usage_ge current_usage (col "capacite_max" ce) then
              Some (error 400 "Le créneau a atteint sa capacité maximale")
            else None
        end
    | _ => Some Next
    end
  else None.

(** [colisRouter.post('/')]; [now] is [Date.now()] and [frac] the digits of
    [Math.random()].  The statements of the handler run one after the other
    on the store [db]: the request is served alone. *)
Definition post_colis (db : store) (body : obj) (now : Z) (frac : list nat)
    : response * store :=
  match missing_field colis_required body with
  | Some f => (error 400 ("Champ obligatoire manquant: " ++ f), db)
  | None =>
  if present_and_invalid validPackageTypes (prop "type_colis" body) then
    (error 400 "Type de colis invalide", db) else
  if present_and_invalid validPaymentMethods (prop "methode_paiement" body) then
    (error 400 "Méthode de paiement invalide", db) else
  if le0 (prop "poids" body) then
    (error 400 "Le poids doit être supérieur à 0", db) else
  match check_creneau db (prop "creneau_id" body) with
  | Some r => (r, db)
  | None =>
  match bind_int (prop "creneau_id" body) with
  | None => (Next, db)
  | Some creneau_id =>
      let inserted :=
        insert_colis db creneau_id
          [("numero_suivi", JStr (numero_suivi now frac));
           ("nom_expediteur", bind_any (prop "nom_expediteur" body));
           ("telephone_expediteur", bind_any (prop "telephone_expediteur" body));
           ("adresse_expediteur", bind_any (prop "adresse_expediteur" body));
           ("nom_destinataire", bind_any (prop "nom_destinataire" body));
           ("telephone_destinataire", bind_any (prop "telephone_destinataire" body));
           ("adresse_destinataire", bind_any (prop "adresse_destinataire" body));
           ("type_colis", or_default (prop "type_colis" body) (JStr "document"));
           ("poids", bind_any (prop "poids" body));
           ("description", bind_any (prop "description" body));
           ("valeur_declaree", or_default (prop "valeur_declaree" body) (JNum 0));
           ("assurance", or_default (prop "assurance" body) (JBool false));
           ("methode_paiement",
            or_default (prop "methode_paiement" body) (JStr "especes"))] in
      match fst inserted with
      | Some r => (Reply 201 (JObj r), snd inserted)
      | None => (Next, snd inserted)
      end
  end
  end
  end.

(** [SELECT c.*, ce.lieu_depart, ce.destination, ce.heure_depart,
    ce.date_expedition]: a package with the four columns of its slot. *)
Definition with_creneau (j : row * option row) : row :=
  let ce := match snd j with Some ce => ce | None => [] end in
  fold_left (fun r c => set_col c (col c ce) r)
            ["lieu_depart"; "destination"; "heure_depart"; "date_expedition"]
            (fst j).

(** The WHERE clause of the package list: the search over three columns and
    the status filter, the latter only for a status of the enumeration. *)
Definition colis_where (q : list_query) (c : row) : bool :=
  match search_pattern q with
  | Some p => ilike (col "nom_expediteur" c) p
              || ilike (col "nom_destinataire" c) p
              || ilike (col "numero_suivi" c) p
  | None => true
  end
  && match statut q with
     | Some s => if negb (String.eqb s "") && existsb (String.eqb s) validStatus
                 then text_eq (col "statut" c) s else true
     | None => true
     end.

(** [colisRouter.get('/')] *)
Definition get_colis (db : store) (q : list_query) : response :=
  let c_col := sortColumn ["id"; "nom_expediteur"; "nom_destinataire";
                           "date_creation"; "statut"; "poids"] q in
  let joined :=
    filter (fun j => colis_where q (fst j))
           (left_join (colis db) (creneaux_expedition db)
                      (fun c ce => on_creneau ce c)) in
  list_answer q
    (Z.of_nat (List.length (filter (colis_where q) (colis db))))
    (map with_creneau (order_by (fun j => col c_col (fst j)) (sortDesc q) joined)).

(** The integer columns of [colis] that a request can set. *)
Definition colis_int_col (c : string) : bool := String.eqb c "creneau_id".

(** [UPDATE colis SET ... WHERE id = $n RETURNING *].  The statement fails
    when a parameter is refused or when a row would refer to a slot that does
    not exist. *)
Definition update_colis (db : store) (id : string)
    (sets : list (string * option jsval)) : option (list row * store) :=
  match bind_sets colis_int_col sets, int4in id with
  | Some bound, Some k =>
      let fk := forallb (fun cv => negb (colis_int_col (fst cv))
                                   || fk_creneau db (snd cv)) bound in
      let upd := update_where_id (colis db) k bound in
      match snd upd with
      | [] => Some ([], db)
      | rows =>
          if fk then
            Some (rows, mkStore (reservations db) (creneaux_expedition db)
                                (fst upd) (colis_id_seq db))
          else None
      end
  | _, _ => None
  end.

(** The end of the update routes: 404 when no row was returned, the first
    row otherwise. *)
Definition updated (notfound : string) (res : option (list row * store))
    (db : store) : response * store :=
  match res with
  | None => (Next, db)
  | Some ([], db') => (error 404 notfound, db')
  | Some (r :: _, db') => (Reply 200 (JObj r), db')
  end.

(** [colisRouter.put('/:id')] *)
Definition put_colis (db : store) (id : string) (updates : obj)
    : response * store :=
  if invalid_id id then (error 400 "ID invalide", db) else
  match missing_field colis_required updates with
  | Some f => (error 400 ("Champ obligatoire manquant: " ++ f), db)
  | None =>
  if present_and_invalid validPackageTypes (prop "type_colis" updates) then
    (error 400 "Type de colis invalide", db) else
  if present_and_invalid validPaymentMethods (prop "methode_paiement" updates) then
    (error 400 "Méthode de paiement invalide", db) else
  if le0 (prop "poids" updates) then
    (error 400 "Le poids doit être supérieur à 0", db) else
  if present_and_invalid validStatus (prop "statut" updates) then
    (error 400 "Statut invalide", db) else
  updated "Colis non trouvé"
    (update_colis db id
       [("creneau_id", prop "creneau_id" updates);
        ("nom_expediteur", prop "nom_expediteur" updates);
        ("telephone_expediteur", prop "telephone_expediteur" updates);
        ("adresse_expediteur", prop "adresse_expediteur" updates);
        ("nom_destinataire", prop "nom_destinataire" updates);
        ("telephone_destinataire", prop "telephone_destinataire" updates);
        ("adresse_destinataire", prop "adresse_destinataire" updates);
        ("type_colis", prop "type_colis" updates);
        ("poids", prop "poids" updates);
        ("description", prop "description" updates);
        ("valeur_declaree", prop "valeur_declaree" updates);
        ("assurance", prop "assurance" updates);
        ("methode_paiement", prop "methode_paiement" updates);
        ("statut", Some (or_default (prop "statut" updates) (JStr "en_attente")))])
    db
  end.

Definition colis_allowedFields : list string :=
  ["creneau_id"; "nom_expediteur"; "telephone_expediteur"; "adresse_expediteur";
   "nom_destinataire"; "telephone_destinataire"; "adresse_destinataire";
   "type_colis"; "poids"; "description"; "valeur_declaree";
   "assurance"; "methode_paiement"; "statut"].

(** [Object.keys(updates).filter(f => allowedFields.includes(f))] *)
Definition fieldsToUpdate (allowed : list string) (updates : obj) : list string :=
  filter (fun f => existsb (String.eqb f) allowed) (keys updates).

(** [fieldsToUpdate.map(f => updates[f])], each with its column. *)
Definition sets_of (fields : list string) (updates : obj)
    : list (string * option jsval) :=
  map (fun f => (f, prop f updates)) fields.

(** [colisRouter.patch('/:id')] *)
Definition patch_colis (db : store) (id : string) (updates : obj)
    : response * store :=
  if invalid_id id then (error 400 "ID invalide", db) else
  if (List.length (keys updates) =? 0)%nat then
    (error 400 "Aucun champ à modifier", db) else
  let fields := fieldsToUpdate colis_allowedFields updates in
  if (List.length fields =? 0)%nat then
    (error 400 "Aucun champ valide à modifier", db) else
  if present_and_invalid validPackageTypes (prop "type_colis" updates) then
    (error 400 "Type de colis invalide", db) else
  if present_and_invalid validPaymentMethods (prop "methode_paiement" updates) then
    (error 400 "Méthode de paiement invalide", db) else
  if truthy (prop "poids" updates) && le0 (prop "poids" updates) then
    (error 400 "Le poids doit être supérieur à 0", db) else
  if present_and_invalid validStatus (prop "statut" updates) then
    (error 400 "Statut invalide", db) else
  updated "Colis non trouvé" (update_colis db id (sets_of fields updates)) db.

(** *** Shipment slots: creneauxRouter *)

(** [SELECT ce.*, COUNT(c.id) as nombre_colis_actuels,
    (ce.capacite_max - COUNT(c.id)) as places_restantes]: the row of a group
    with its two derived columns, both of them bigints. *)
Definition with_usage (g : row * Z) : row :=
  set_col "places_restantes" (sql_minus (col "capacite_max" (fst g)) (snd g))
          (set_col "nombre_colis_actuels" (bigint_text (snd g)) (fst g)).

(** [WHERE ce.lieu_depart ILIKE $1 OR ce.destination ILIKE $1] *)
Definition creneaux_where (q : list_query) (ce : row) : bool :=
  match search_pattern q with
  | Some p => ilike (col "lieu_depart" ce) p || ilike (col "destination" ce) p
  | None => true
  end.

(** The count query of the slot list:
    ['SELECT COUNT( * ) FROM creneaux_expedition'], followed when there is a
    search by [' WHERE ce.lieu_depart ILIKE $1 OR ce.destination ILIKE $1'].
    The FROM clause declares no alias [ce]: with a search the store refuses
    the statement ([None]). *)
Definition count_creneaux_where (db : store) (q : list_query) : option Z :=
  match search_pattern q with
  | Some _ => None
  | None => Some (Z.of_nat (List.length (creneaux_expedition db)))
  end.

(** [creneauxRouter.get('/')]; [Promise.all] fails when one of the two
    queries does. *)
Definition get_creneaux (db : store) (q : list_query) : response :=
  let c_col := sortColumn ["id"; "lieu_depart"; "destination"; "date_expedition";
                           "heure_depart"; "date_creation"] q in
  match count_creneaux_where db q with
  | None => Next
  | Some total =>
      list_answer q total
        (map with_usage
             (order_by (fun g => col c_col (fst g)) (sortDesc q)
                       (creneau_groups db (creneaux_where q))))
  end.

(** [creneauxRouter.get('/:id')] *)
Definition get_creneau (db : store) (id : string) : response :=
  if invalid_id id then error 400 "ID invalide" else
  match int4in id with
  | None => Next
  | Some k =>
      match map with_usage (creneau_groups db (has_id k)) with
      | [] => error 404 "Créneau non trouvé"
      | r :: _ => Reply 200 (JObj r)
      end
  end.

Definition creneaux_int_col (c : string) : bool := String.eqb c "capacite_max".

(** [UPDATE creneaux_expedition SET ... WHERE id = $n RETURNING *] *)
Definition update_creneaux (db : store) (id : string)
    (sets : list (string * option jsval)) : option (list row * store) :=
  match bind_sets creneaux_int_col sets, int4in id with
  | Some bound, Some k =>
      let upd := update_where_id (creneaux_expedition db) k bound in
      Some (snd upd, mkStore (reservations db) (fst upd) (colis db)
                             (colis_id_seq db))
  | _, _ => None
  end.

Definition creneaux_allowedFields : list string :=
  ["heure_depart"; "lieu_depart"; "destination"; "capacite_max";
   "frais_par_kg"; "poids_max_colis"; "type_transport"; "date_expedition"].

Definition validTransportTypes : list string :=
  ["standard"; "express"; "prioritaire"].

(** [creneauxRouter.patch('/:id')] *)
Definition patch_creneau (db : store) (id : string) (updates : obj)
    : response * store :=
  if invalid_id id then (error 400 "ID invalide", db) else
  if (List.length (keys updates) =? 0)%nat then
    (error 400 "Aucun champ à modifier", db) else
  let fields := fieldsToUpdate creneaux_allowedFields updates in
  if (List.length fields =? 0)%nat then
    (error 400 "Aucun champ valide à modifier", db) else
  if present_and_invalid validTransportTypes (prop "type_transport" updates) then
    (error 400
       "Type de transport invalide. Doit être: standard, express ou prioritaire",
     db) else
  if truthy (prop "capacite_max" updates) && le0 (prop "capacite_max" updates)
     || truthy (prop "frais_par_kg" updates) && le0 (prop "frais_par_kg" updates)
     || truthy (prop "poids_max_colis" updates)
        && le0 (prop "poids_max_colis" updates) then
    (error 400
       "La capacité, les frais et le poids maximum doivent être supérieurs à 0",
     db) else
  updated "Créneau non trouvé" (update_creneaux db id (sets_of fields updates)) db.

(** [SELECT COUNT( * ) FROM colis WHERE creneau_id = $1] *)
Definition count_colis_of (db : store) (k : Z) : Z :=
  Z.of_nat (List.length
              (filter (fun c => sql_eq (col "creneau_id" c) (JNum k)) (colis db))).

(** [creneauxRouter.delete('/:id')] *)
Definition delete_creneau (db : store) (id : string) : response * store :=
  if invalid_id id then (error 400 "ID invalide", db) else
  match int4in id with
  | None => (Next, db)
  | Some k =>
      if 0 <? count_colis_of db k then
        (error 400 "Impossible de supprimer le créneau: des colis y sont associés",
         db)
      else
        let del := delete_where (creneaux_expedition db) (has_id k) in
        match snd del with
        | [] => (error 404 "Créneau non trouvé", db)
        | r :: _ =>
            (Reply 200 (JObj [("message", JStr "Créneau supprimé");
                              ("deletedCreneau", JObj r)]),
             mkStore (reservations db) (fst del) (colis db) (colis_id_seq db))
        end
  end.

(** *** Reservations: reservationsRouter *)

(** The error middleware of the router:
    [reservationsRouter.use((error, req, res, next) => ...)]. *)
Definition reservations_error (out : response * store) : response * store :=
  match fst out with
  | Next => (error 500 "Erreur interne du serveur", snd out)
  | _ => out
  end.

(** [WHERE nom ILIKE $1 OR prenom ILIKE $1 OR email ILIKE $1
     OR destination ILIKE $1] *)
Definition reservations_where (q : list_query) (r : row) : bool :=
  match search_pattern q with
  | Some p => ilike (col "nom" r) p || ilike (col "prenom" r) p
              || ilike (col "email" r) p || ilike (col "destination" r) p
  | None => true
  end.

(** [reservationsRouter.get('/')] *)
Definition get_reservations (db : store) (q : list_query) : response :=
  let c_col := sortColumn ["id"; "nom"; "prenom"; "email"; "destination";
                           "date_depart"; "created_at"] q in
  let matching := filter (reservations_where q) (reservations db) in
  fst (reservations_error
         (list_answer q (Z.of_nat (List.length matching))
                      (order_by (col c_col) (sortDesc q) matching), db)).

(** [UPDATE reservations SET ... WHERE id = $n RETURNING *] *)
Definition update_reservations (db : store) (id : string)
    (sets : list (string * option jsval)) : option (list row * store) :=
  match bind_sets (fun _ => false) sets, int4in id with
  | Some bound, Some k =>
      let upd := update_where_id (reservations db) k bound in
      Some (snd upd, mkStore (fst upd) (creneaux_expedition db) (colis db)
                             (colis_id_seq db))
  | _, _ => None
  end.

Definition reservations_allowedFields : list string :=
  ["destination"; "nom"; "prenom"; "email"; "telephone";
   "lieu_depart"; "date_depart"; "date_retour";
   "nombre_passagers"; "classe"].

Definition validClasses : list string := ["Economique"; "Affaires"; "Premiere"].

(** [reservationsRouter.patch('/:id')] *)
Definition patch_reservation (db : store) (id : string) (updates : obj)
    : response * store :=
  reservations_error (
  if invalid_id id then (error 400 "ID invalide", db) else
  if (List.length (keys updates) =? 0)%nat then
    (error 400 "Aucun champ à modifier", db) else
  let fields := fieldsToUpdate reservations_allowedFields updates in
  if (List.length fields =? 0)%nat then
    (error 400 "Aucun champ valide à modifier", db) else
  if present_and_invalid validClasses (prop "classe" updates) then
    (error 400 "Classe invalide. Doit être: Economique, Affaires ou Premiere",
     db) else
  if truthy (prop "nombre_passagers" updates)
     && le0 (prop "nombre_passagers" updates) then
    (error 400 "Le nombre de passagers doit être supérieur à 0", db) else
  updated "Réservation non trouvée"
          (update_reservations db id (sets_of fields updates)) db).

(** [ids.filter(id => !isNaN(parseInt(id)))] *)
Definition validIds (ids : list jsval) : list jsval :=
  filter (fun id => negb (isNaN_parseInt (Some id))) ids.

(** The parameters of [id IN ($1, ..., $n)], bound as integers. *)
Fixpoint bind_ids (ids : list jsval) : option (list Z) :=
  match ids with
  | [] => Some []
  | v :: rest =>
      match bind_int (Some v), bind_ids rest with
      | Some (JNum k), Some ks => Some (k :: ks)
      | _, _ => None
      end
  end.

(** [reservationsRouter.delete('/')] *)
Definition delete_reservations (db : store) (body : obj) : response * store :=
  reservations_error (
  match prop "ids" body with
  | Some (JArr ids) =>
      if (List.length ids =? 0)%nat then (error 400 "Liste d'IDs requise", db) else
      let valid := validIds ids in
      if (List.length valid =? 0)%nat then
        (error 400 "Aucun ID valide fourni", db) else
      match bind_ids valid with
      | None => (Next, db)
      | Some ks =>
          let del := delete_where (reservations db)
                                  (fun r => existsb (fun k => has_id k r) ks) in
          (Reply 200
             (JObj [("message",
                     JStr (dec (Z.of_nat (List.length (snd del)))
                           ++ " réservation(s) supprimée(s)"));
                    ("deletedReservations", JArr (map JObj (snd del)))]),
           mkStore (fst del) (creneaux_expedition db) (colis db) (colis_id_seq db))
      end
  | _ => (error 400 "Liste d'IDs requise", db)
  end).

(** *** The remaining routes *)

(** [res.json({ count: parseInt(result.rows[0].count) })] after
    [SELECT COUNT( * ) FROM t]. *)
Definition count_answer (t : table) : response :=
  Reply 200 (JObj [("count", JNum (Z.of_nat (List.length t)))]).

(** [colisRouter.get('/count')] *)
Definition count_colis (db : store) : response := count_answer (colis db).

(** [creneauxRouter.get('/count')] *)
Definition count_creneaux (db : store) : response :=
  count_answer (creneaux_expedition db).

(** [reservationsRouter.get('/count')] *)
Definition count_reservations (db : store) : response :=
  count_answer (reservations db).

(** The end of the routes that read one row: 404 when the query returned
    none, its first row otherwise. *)
Definition found (notfound : string) (rows : list row) : response :=
  match rows with
  | [] => error 404 notfound
  | r :: _ => Reply 200 (JObj r)
  end.

(** [SELECT c.*, ce.lieu_depart, ce.destination, ce.heure_depart,
    ce.date_expedition FROM colis c
    LEFT JOIN creneaux_expedition ce ON c.creneau_id = ce.id WHERE cond] *)
Definition colis_joined (db : store) (cond : row -> bool) : list row :=
  map with_creneau
      (filter (fun j => cond (fst j))
              (left_join (colis db) (creneaux_expedition db)
                         (fun c ce => on_creneau ce c))).

(** [colisRouter.get('/:id')] *)
Definition get_colis_id (db : store) (id : string) : response :=
  if invalid_id id then error 400 "ID invalide" else
  match int4in id with
  | None => Next
  | Some k => found "Colis non trouvé" (colis_joined db (has_id k))
  end.

(** [colisRouter.get('/suivi/:numero_suivi')] *)
Definition get_colis_suivi (db : store) (numero_suivi : string) : response :=
  if String.eqb numero_suivi "" then error 400 "Numéro de suivi requis" else
  found "Colis non trouvé"
        (colis_joined db (fun c => text_eq (col "numero_suivi" c) numero_suivi)).

(** [colisRouter.delete('/:id')] *)
Definition delete_colis (db : store) (id : string) : response * store :=
  if invalid_id id then (error 400 "ID invalide", db) else
  match int4in id with
  | None => (Next, db)
  | Some k =>
      let del := delete_where (colis db) (has_id k) in
      match snd del with
      | [] => (error 404 "Colis non trouvé", db)
      | r :: _ =>
          (Reply 200 (JObj [("message", JStr "Colis supprimé");
                            ("deletedColis", JObj r)]),
           mkStore (reservations db) (creneaux_expedition db) (fst del)
                   (colis_id_seq db))
      end
  end.

Definition creneaux_required : list string :=
  ["heure_depart"; "lieu_depart"; "destination"; "capacite_max"; "frais_par_kg";
   "poids_max_colis"; "date_expedition"].

(** [capacite_max <= 0 || frais_par_kg <= 0 || poids_max_colis <= 0] *)
Definition creneau_not_positive (u : obj) : bool :=
  le0 (prop "capacite_max" u) || le0 (prop "frais_par_kg" u)
  || le0 (prop "poids_max_colis" u).

(** [creneauxRouter.post('/')].  The store record carries the sequence of
    the packages only: [nextval] is the value that the sequence behind
    [creneaux_expedition.id] hands out for this insert. *)
Definition post_creneau (db : store) (nextval : Z) (body : obj)
    : response * store :=
  match missing_field creneaux_required body with
  | Some f => (error 400 ("Champ obligatoire manquant: " ++ f), db)
  | None =>
  if present_and_invalid validTransportTypes (prop "type_transport" body) then
    (error 400
       "Type de transport invalide. Doit être: standard, express ou prioritaire",
     db) else
  if creneau_not_positive body then
    (error 400
       "La capacité, les frais et le poids maximum doivent être supérieurs à 0",
     db) else
  match bind_int (prop "capacite_max" body) with
  | None => (Next, db)
  | Some capacite_max =>
      let r := [("id", JNum nextval);
                ("heure_depart", bind_any (prop "heure_depart" body));
                ("lieu_depart", bind_any (prop "lieu_depart" body));
                ("destination", bind_any (prop "destination" body));
                ("capacite_max", capacite_max);
                ("frais_par_kg", bind_any (prop "frais_par_kg" body));
                ("poids_max_colis", bind_any (prop "poids_max_colis" body));
                ("type_transport",
                 or_default (prop "type_transport" body) (JStr "standard"));
                ("date_expedition", bind_any (prop "date_expedition" body))] in
      (Reply 201 (JObj r),
       mkStore (reservations db) (creneaux_expedition db ++ [r])%list (colis db)
               (colis_id_seq db))
  end
  end.

(** [creneauxRouter.put('/:id')] *)
Definition put_creneau (db : store) (id : string) (updates : obj)
    : response * store :=
  if invalid_id id then (error 400 "ID invalide", db) else
  match missing_field creneaux_required updates with
  | Some f => (error 400 ("Champ obligatoire manquant: " ++ f), db)
  | None =>
  if present_and_invalid validTransportTypes (prop "type_transport" updates) then
    (error 400
       "Type de transport invalide. Doit être: standard, express ou prioritaire",
     db) else
  if creneau_not_positive updates then
    (error 400
       "La capacité, les frais et le poids maximum doivent être supérieurs à 0",
     db) else
  updated "Créneau non trouvé"
    (update_creneaux db id
       [("heure_depart", prop "heure_depart" updates);
        ("lieu_depart", prop "lieu_depart" updates);
        ("destination", prop "destination" updates);
        ("capacite_max", prop "capacite_max" updates);
        ("frais_par_kg", prop "frais_par_kg" updates);
        ("poids_max_colis", prop "poids_max_colis" updates);
        ("type_transport", prop "type_transport" updates);
        ("date_expedition", prop "date_expedition" updates)])
    db
  end.

Definition reservations_required : list string :=
  ["destination"; "nom"; "prenom"; "email"; "telephone";
   "lieu_depart"; "date_depart"; "nombre_passagers"; "classe"].

(** The ten columns that the create and the full update of a reservation
    write, with the values of the payload. *)
Definition reservation_values (u : obj) : list (string * option jsval) :=
  [("destination", prop "destination" u);
   ("nom", prop "nom" u);
   ("prenom", prop "prenom" u);
   ("email", prop "email" u);
   ("telephone", prop "telephone" u);
   ("lieu_depart", prop "lieu_depart" u);
   ("date_depart", prop "date_depart" u);
   ("date_retour", prop "date_retour" u);
   ("nombre_passagers", prop "nombre_passagers" u);
   ("classe", prop "classe" u)].

(** [reservationsRouter.post('/')]; [nextval] is the value that the sequence
    behind [reservations.id] hands out for this insert. *)
Definition post_reservation (db : store) (nextval : Z) (body : obj)
    : response * store :=
  reservations_error (
  match missing_field reservations_required body with
  | Some _ => (error 400 "Champs obligatoires manquants", db)
  | None =>
  if negb (includes validClasses (prop "classe" body)) then
    (error 400 "Classe invalide. Doit être: Economique, Affaires ou Premiere",
     db) else
  if le0 (prop "nombre_passagers" body) then
    (error 400 "Le nombre de passagers doit être supérieur à 0", db) else
  let r := ("id", JNum nextval)
           :: map (fun cv => (fst cv, bind_any (snd cv))) (reservation_values body) in
  (Reply 201 (JObj r),
   mkStore (reservations db ++ [r])%list (creneaux_expedition db) (colis db)
           (colis_id_seq db))
  end).

(** [reservationsRouter.get('/:id')] *)
Definition get_reservation (db : store) (id : string) : response :=
  fst (reservations_error (
  if invalid_id id then (error 400 "ID invalide", db) else
  match int4in id with
  | None => (Next, db)
  | Some k =>
      (found "Réservation non trouvée" (filter (has_id k) (reservations db)), db)
  end)).

(** [reservationsRouter.put('/:id')] *)
Definition put_reservation (db : store) (id : string) (updates : obj)
    : response * store :=
  reservations_error (
  if invalid_id id then (error 400 "ID invalide", db) else
  match missing_field reservations_required updates with
  | Some f => (error 400 ("Champ obligatoire manquant: " ++ f), db)
  | None =>
  if negb (includes validClasses (prop "classe" updates)) then
    (error 400 "Classe invalide. Doit être: Economique, Affaires ou Premiere",
     db) else
  if le0 (prop "nombre_passagers" updates) then
    (error 400 "Le nombre de passagers doit être supérieur à 0", db) else
  updated "Réservation non trouvée"
          (update_reservations db id (reservation_values updates)) db
  end).

(** [reservationsRouter.delete('/:id')] *)
Definition delete_reservation (db : store) (id : string) : response * store :=
  reservations_error (
  if invalid_id id then (error 400 "ID invalide", db) else
  match int4in id with
  | None => (Next, db)
  | Some k =>
      let del := delete_where (reservations db) (has_id k) in
      match snd del with
      | [] => (error 404 "Réservation non trouvée", db)
      | r :: _ =>
          (Reply 200 (JObj [("message", JStr "Réservation supprimée");
                            ("deletedReservation", JObj r)]),
           mkStore (fst del) (creneaux_expedition db) (colis db)
                   (colis_id_seq db))
      end
  end).

End Handlers.

End Routes.

(* ================================================================== *)
(** ** Properties *)

Import Js Sql Routes.
Open Scope list_scope.

(** *** Vocabulary of the statements *)

(** [id] is the primary key of a table: an integer in every row, and no two
    rows with the same one. *)
Definition primary_key (t : table) : Prop :=
  NoDup (map (col "id") t) /\ Forall (fun r => exists k, col "id" r = JNum k) t.

(** The rows that the join makes of one slot. *)
Definition joined_of (cs : table) (ce : row) : list (row * option row) :=
  match filter (on_creneau ce) cs with
  | [] => [(ce, None)]
  | ms => map (fun b => (ce, Some b)) ms
  end.

Definition slot_key (j : row * option row) : option Z := int_of (col "id" (fst j)).

(** The number of packages whose [creneau_id] is the id of slot [ce]. *)
Definition usage (db : store) (ce : row) : Z :=
  Z.of_nat (List.length (filter (on_creneau ce) (colis db))).

(** Column [c] of a table holds integers or NULL. *)
Definition integer_column (c : string) (t : table) : Prop :=
  Forall (fun r => col c r = JNull \/ exists n, col c r = JNum n) t.

(** The field validation of the create route lets the body through. *)
Definition colis_fields_valid (string_le0 : string -> bool) (body : obj) : bool :=
  match missing_field colis_required body with Some _ => false | None => true end
  && negb (present_and_invalid validPackageTypes (prop "type_colis" body))
  && negb (present_and_invalid validPaymentMethods (prop "methode_paiement" body))
  && negb (le0 string_le0 (prop "poids" body)).

(** The field validation of the full update of a package. *)
Definition colis_put_valid (string_le0 : string -> bool) (u : obj) : bool :=
  colis_fields_valid string_le0 u
  && negb (present_and_invalid validStatus (prop "statut" u)).

(** The field validation of the partial update of a package. *)
Definition colis_patch_valid (string_le0 : string -> bool) (u : obj) : bool :=
  negb (present_and_invalid validPackageTypes (prop "type_colis" u))
  && negb (present_and_invalid validPaymentMethods (prop "methode_paiement" u))
  && negb (truthy (prop "poids" u) && le0 string_le0 (prop "poids" u))
  && negb (present_and_invalid validStatus (prop "statut" u)).

(** The field validation of the partial update of a slot. *)
Definition creneau_patch_valid (string_le0 : string -> bool) (u : obj) : bool :=
  negb (present_and_invalid validTransportTypes (prop "type_transport" u))
  && negb (truthy (prop "capacite_max" u) && le0 string_le0 (prop "capacite_max" u)
           || truthy (prop "frais_par_kg" u) && le0 string_le0 (prop "frais_par_kg" u)
           || truthy (prop "poids_max_colis" u)
              && le0 string_le0 (prop "poids_max_colis" u)).

(** The field validation of the partial update of a reservation. *)
Definition reservation_patch_valid (string_le0 : string -> bool) (u : obj) : bool :=
  negb (present_and_invalid validClasses (prop "classe" u))
  && negb (truthy (prop "nombre_passagers" u)
           && le0 string_le0 (prop "nombre_passagers" u)).

(** What a partial update writes: for each field to update, the supplied
    value, read as an integer ([v]) for the integer column [name]. *)
Definition written (name : string) (v : jsval) (fields : list string) (u : obj)
    : list (string * jsval) :=
  map (fun f => (f, if String.eqb f name then v else bind_any (prop f u))) fields.

(** The table after [UPDATE ... SET sets WHERE id = k]. *)
Definition replace_id (k : Z) (sets : list (string * jsval)) (t : table) : table :=
  map (fun r => if has_id k r then assign sets r else r) t.

(** What a full update of a package writes, with [v] the slot reference as
    the store reads it. *)
Definition put_written (v : jsval) (u : obj) : list (string * jsval) :=
  [("creneau_id", v);
   ("nom_expediteur", bind_any (prop "nom_expediteur" u));
   ("telephone_expediteur", bind_any (prop "telephone_expediteur" u));
   ("adresse_expediteur", bind_any (prop "adresse_expediteur" u));
   ("nom_destinataire", bind_any (prop "nom_destinataire" u));
   ("telephone_destinataire", bind_any (prop "telephone_destinataire" u));
   ("adresse_destinataire", bind_any (prop "adresse_destinataire" u));
   ("type_colis", bind_any (prop "type_colis" u));
   ("poids", bind_any (prop "poids" u));
   ("description", bind_any (prop "description" u));
   ("valeur_declaree", bind_any (prop "valeur_declaree" u));
   ("assurance", bind_any (prop "assurance" u));
   ("methode_paiement", bind_any (prop "methode_paiement" u));
   ("statut", or_default (prop "statut" u) (JStr "en_attente"))].


Fixpoint all_chars (P : ascii -> bool) (s : string) : bool :=
  match s with
  | String c r => P c && all_chars P r
  | EmptyString => true
  end.

(** The four columns of its slot that a package is read with. *)
Definition slot_columns : list string :=
  ["lieu_depart"; "destination"; "heure_depart"; "date_expedition"].

(** The rows that the join of the package routes makes of one package. *)
Definition slot_rows (slots : table) (c : row) : list (row * option row) :=
  match filter (fun ce => on_creneau ce c) slots with
  | [] => [(c, None)]
  | ms => map (fun ce => (c, Some ce)) ms
  end.

(** The row that a create request inserts, under id [id] and with slot
    reference [creneau]. *)
Definition colis_row (id : Z) (creneau : jsval) (body : obj) (now : Z)
    (frac : list nat) : row :=
  [("id", JNum id); ("creneau_id", creneau);
   ("numero_suivi", JStr (numero_suivi now frac));
   ("nom_expediteur", bind_any (prop "nom_expediteur" body));
   ("telephone_expediteur", bind_any (prop "telephone_expediteur" body));
   ("adresse_expediteur", bind_any (prop "adresse_expediteur" body));
   ("nom_destinataire", bind_any (prop "nom_destinataire" body));
   ("telephone_destinataire", bind_any (prop "telephone_destinataire" body));
   ("adresse_destinataire", bind_any (prop "adresse_destinataire" body));
   ("type_colis", or_default (prop "type_colis" body) (JStr "document"));
   ("poids", bind_any (prop "poids" body));
   ("description", bind_any (prop "description" body));
   ("valeur_declaree", or_default (prop "valeur_declaree" body) (JNum 0));
   ("assurance", or_default (prop "assurance" body) (JBool false));
   ("methode_paiement", or_default (prop "methode_paiement" body) (JStr "especes"));
   ("statut", JStr "en_attente")].

(** Every id of the table is an integer below [seq]: the sequence has not
    handed out an id twice. *)
Definition ids_below (seq : Z) (t : table) : Prop :=
  Forall (fun r => exists k, col "id" r = JNum k /\ k < seq) t.

(** No slot holds more packages than its capacity; slot 0 apart, whose id
    is falsy as a reference. *)
Definition within_capacity (db : store) : Prop :=
  forall ce k m,
    In ce (creneaux_expedition db) -> col "id" ce = JNum k -> k <> 0 ->
    col "capacite_max" ce = JNum m -> count_colis_of db k <= m.

(** Every package refers to a slot of the store, or to none. *)
Definition referential (db : store) : Prop :=
  forall c j, In c (colis db) -> col "creneau_id" c = JNum j ->
              exists ce, In ce (creneaux_expedition db) /\ col "id" ce = JNum j.

(** A table after a request, against the table before: the rows kept their
    ids, or some rows were removed. *)
Definition table_kept (t t' : table) : Prop :=
  map (col "id") t' = map (col "id") t \/ exists cond, t' = filter cond t.

Definition ids_kept (db db' : store) : Prop :=
  table_kept (reservations db) (reservations db')
  /\ table_kept (creneaux_expedition db) (creneaux_expedition db')
  /\ table_kept (colis db) (colis db').

(** [id] is the primary key of the three tables. *)
Definition keyed (db : store) : Prop :=
  primary_key (reservations db) /\ primary_key (creneaux_expedition db)
  /\ primary_key (colis db).

(** The number that the decimal digits [d] make when they follow the number
    [acc]. *)
Fixpoint uint_value (acc : Z) (d : Decimal.uint) : Z :=
  match d with
  | Decimal.Nil => acc
  | Decimal.D0 l => uint_value (acc * 10 + 0) l
  | Decimal.D1 l => uint_value (acc * 10 + 1) l
  | Decimal.D2 l => uint_value (acc * 10 + 2) l
  | Decimal.D3 l => uint_value (acc * 10 + 3) l
  | Decimal.D4 l => uint_value (acc * 10 + 4) l
  | Decimal.D5 l => uint_value (acc * 10 + 5) l
  | Decimal.D6 l => uint_value (acc * 10 + 6) l
  | Decimal.D7 l => uint_value (acc * 10 + 7) l
  | Decimal.D8 l => uint_value (acc * 10 + 8) l
  | Decimal.D9 l => uint_value (acc * 10 + 9) l
  end.

(** A request that was granted: answered with 200 or 201. *)
Definition accepted (r : response) : bool :=
  match r with
  | Reply s _ => (s =? 200) || (s =? 201)
  | Next => false
  end.

(** Both stores hold the same three tables. *)
Definition same_tables (db db' : store) : Prop :=
  reservations db' = reservations db
  /\ creneaux_expedition db' = creneaux_expedition db
  /\ colis db' = colis db.

(** The body of a list answer. *)
Definition page_of (rows : list row) (pag : jsval) : jsval :=
  JObj [("data", JArr (map JObj rows)); ("pagination", pag)].

(** The rows that the store skips for page [p] of [l] rows: the offset
    [(p - 1) * l] as the handler computes it and as the store reads its
    text. *)
Definition skipped (p l : Z) : Z :=
  match bind_int8 (times (minus_one (Finite p)) (Finite l)) with
  | Some k => k
  | None => 0
  end.



(** The list request [q] without its status filter. *)
Definition without_statut (q : list_query) : list_query :=
  mkQuery (page q) (limit q) (search q) None (sortBy q) (order q).

(** A character that stands for itself in a LIKE pattern: neither [%], [_]
    nor the backslash. *)
Definition plain (c : ascii) : bool :=
  let n := code c in negb ((n =? 37) || (n =? 95) || (n =? 92))%nat.

(** The long s (U+017F) in UTF-8. *)
Definition long_s : string :=
  String (ascii_of_nat 197) (String (ascii_of_nat 191) "").

(** The texts whose upper case is ASC. *)
Definition ASC_texts : list string :=
  flat_map (fun a =>
              flat_map (fun b => map (fun c => a ++ b ++ c)%string ["c"; "C"])
                       ["s"; "S"; long_s])
           ["a"; "A"].

(** The request asks for the ascending order. *)
Definition asks_ascending (q : list_query) : Prop :=
  exists s, order q = Some s /\ In s ASC_texts.

(** The column [c] that a request sorts by, on a route that allows the
    columns [allowed]: the one that it names when the route allows it, [id]
    otherwise. *)
Definition sorts_by (allowed : list string) (q : list_query) (c : string) : Prop :=
  (sortBy q = Some c /\ In c allowed)
  \/ (c = "id"
      /\ (sortBy q = None \/ exists x, sortBy q = Some x /\ ~ In x allowed)).

(** The values are numbers that never decrease when [ascending], and that
    never increase otherwise. *)
Definition numbers_in_order (ascending : Prop) (vs : list jsval) : Prop :=
  exists ns,
    vs = map JNum ns
    /\ (ascending -> Sorted Z.le ns) /\ (~ ascending -> Sorted Z.ge ns).

(** *** A small store and some requests, to run the routes on *)

(** A reading of text as a number that knows the integer numerals and takes
    any other text for NaN; the requests below compare no other text with 0. *)
Definition numeral_le0 (s : string) : bool :=
  match int4in s with Some n => n <=? 0 | None => false end.

Definition demo_reservation (id passagers : Z) : row :=
  [("id", JNum id); ("nom", JStr "Diallo"); ("prenom", JStr "Awa");
   ("destination", JStr "Paris"); ("nombre_passagers", JNum passagers);
   ("classe", JStr "Economique")].

Definition demo_creneau (id capacite : Z) : row :=
  [("id", JNum id); ("lieu_depart", JStr "Dakar"); ("destination", JStr "Paris");
   ("capacite_max", JNum capacite); ("frais_par_kg", JNum 5);
   ("poids_max_colis", JNum 30)].

Definition demo_colis (id : Z) (creneau : jsval) (code statut : string) : row :=
  [("id", JNum id); ("creneau_id", creneau); ("numero_suivi", JStr code);
   ("nom_expediteur", JStr "Awa"); ("nom_destinataire", JStr "Binta");
   ("poids", JNum 3); ("statut", JStr statut)].

(** Three reservations; slot 1 (capacity 1) without package and slot 2
    (capacity 2) with two; a third package without slot. *)
Definition demo : store :=
  mkStore
    [demo_reservation 1 2; demo_reservation 2 1; demo_reservation 12 4]
    [demo_creneau 1 1; demo_creneau 2 2]
    [demo_colis 1 (JNum 2) "COL1A" "livre";
     demo_colis 2 JNull "COL2B" "en_transit";
     demo_colis 3 (JNum 2) "COL3C" "en_attente"]
    4.

(** The body of a valid create or full-update request, with the slot
    reference [creneau]. *)
Definition demo_body (creneau : list (string * jsval)) : obj :=
  creneau ++
  [("nom_expediteur", JStr "Awa"); ("telephone_expediteur", JStr "770000000");
   ("adresse_expediteur", JStr "Dakar"); ("nom_destinataire", JStr "Binta");
   ("telephone_destinataire", JStr "780000000");
   ("adresse_destinataire", JStr "Paris"); ("poids", JNum 5)].

(** The package that the valid create request for slot 1 inserts into the
    small store, and the store after it. *)
Definition demo_created : row :=
  colis_row 4 (JNum 1) (demo_body [("creneau_id", JNum 1)]) 1700000000000
            [1; 2; 35; 10]%nat.

Definition demo_after : store :=
  mkStore (reservations demo) (creneaux_expedition demo)
          (colis demo ++ [demo_created]) 5.

(** The small store with one more slot, of id 0 and capacity 1, that holds a
    package. *)
Definition demo_zero : store :=
  mkStore (reservations demo)
          (demo_creneau 0 1 :: creneaux_expedition demo)
          (colis demo ++ [demo_colis 4 (JNum 0) "COL4D" "en_attente"])
          5.

(** The body of a valid create or full-update request for a reservation,
    and the row that creating it under id 13 stores. *)
Definition demo_reservation_body : obj :=
  [("destination", JStr "Lyon"); ("nom", JStr "Sow"); ("prenom", JStr "Fatou");
   ("email", JStr "fatou@example.org"); ("telephone", JStr "770000001");
   ("lieu_depart", JStr "Dakar"); ("date_depart", JStr "2025-01-15");
   ("nombre_passagers", JNum 2); ("classe", JStr "Affaires")].

Definition demo_reservation_created : row :=
  ("id", JNum 13)
  :: map (fun cv => (fst cv, bind_any (snd cv)))
         (reservation_values demo_reservation_body).

(** The body of a valid create request for a slot of capacity 1, the row
    that creating it under id 3 stores, and the store after it. *)
Definition demo_creneau_body : obj :=
  [("heure_depart", JStr "08:00"); ("lieu_depart", JStr "Dakar");
   ("destination", JStr "Lyon"); ("capacite_max", JNum 1);
   ("frais_par_kg", JNum 4); ("poids_max_colis", JNum 20);
   ("date_expedition", JStr "2025-02-01")].

Definition demo_creneau_created : row :=
  [("id", JNum 3); ("heure_depart", JStr "08:00"); ("lieu_depart", JStr "Dakar");
   ("destination", JStr "Lyon"); ("capacite_max", JNum 1);
   ("frais_par_kg", JNum 4); ("poids_max_colis", JNum 20);
   ("type_transport", JStr "standard"); ("date_expedition", JStr "2025-02-01")].

Definition demo_with_slot : store :=
  mkStore (reservations demo) (creneaux_expedition demo ++ [demo_creneau_created])
          (colis demo) 4.

(** The list request without any parameter. *)
Definition demo_query : list_query := mkQuery None None None None None None.

(** The reservations of the small store, stored in another order, and a
    request for the ascending order that writes ASC with a long s. *)
Definition demo_unsorted : store :=
  mkStore
    [demo_reservation 2 1; demo_reservation 12 4; demo_reservation 1 2]
    (creneaux_expedition demo) (colis demo) 4.

Definition demo_ascending : list_query :=
  mkQuery None None None None (Some "id") (Some ("a" ++ long_s ++ "c")%string).

(** *** Tactics *)

(** A validation that passed is a conjunction of negated checks: split it,
    and take every check in the goal to its [else] branch. *)
Ltac split_checks H := repeat (apply andb_true_iff in H as [H ?]).

Ltac pass_checks :=
  repeat match goal with
         | H : negb ?b = true |- _ => apply negb_true_iff in H; rewrite H
         end.

(** *** Rows and assignments *)

Lemma col_set_col_eq c v r : col c (set_col c v r) = v.
Proof.
  unfold col. induction r as [|[c' v'] r IH]; simpl.
  - now rewrite String.eqb_refl.
  - destruct (String.eqb c c') eqn:E; simpl.
    + now rewrite String.eqb_refl.
    + now rewrite E.
Qed.

Lemma col_set_col_neq c c' v r : c <> c' -> col c' (set_col c v r) = col c' r.
Proof.
  intros Hn. unfold col. induction r as [|[c0 v0] r IH]; simpl.
  - destruct (String.eqb c' c) eqn:E; [apply String.eqb_eq in E; congruence|reflexivity].
  - destruct (String.eqb c c0) eqn:E; simpl.
    + apply String.eqb_eq in E. subst c0.
      destruct (String.eqb c' c) eqn:E'; [apply String.eqb_eq in E'; congruence|reflexivity].
    + destruct (String.eqb c' c0); [reflexivity|exact IH].
Qed.

Lemma assign_cons c v sets r :
  assign ((c, v) :: sets) r = assign sets (set_col c v r).
Proof. reflexivity. Qed.

(** A column that no assignment names keeps its value. *)
Lemma col_assign_other c sets r :
  ~ In c (map fst sets) -> col c (assign sets r) = col c r.
Proof.
  revert r. induction sets as [|[c' v'] sets IH]; intros r Hn.
  - reflexivity.
  - rewrite assign_cons, IH by (intro; apply Hn; now right).
    apply col_set_col_neq. intro; apply Hn; now left.
Qed.

(** A column that is assigned, and always the same value, holds that value. *)
Lemma col_assign_same c v sets r :
  In c (map fst sets) ->
  (forall v', In (c, v') sets -> v' = v) ->
  col c (assign sets r) = v.
Proof.
  revert r. induction sets as [|[c' v'] sets IH]; intros r Hin Hv.
  - contradiction.
  - rewrite assign_cons.
    destruct (in_dec string_dec c (map fst sets)) as [Hi|Hi].
    + apply IH; [exact Hi|intros; apply Hv; now right].
    + rewrite col_assign_other by exact Hi.
      destruct Hin as [Hc|]; [|contradiction]. simpl in Hc. subst c'.
      rewrite (Hv v') by now left. apply col_set_col_eq.
Qed.

Lemma has_id_assign k sets r :
  ~ In "id" (map fst sets) -> has_id k (assign sets r) = has_id k r.
Proof. intros H. unfold has_id. now rewrite col_assign_other. Qed.

(** *** Primary keys *)

Lemma has_id_true k r : has_id k r = true <-> col "id" r = JNum k.
Proof.
  unfold has_id, sql_eq. destruct (col "id" r); split; intros H; try discriminate.
  - apply Z.eqb_eq in H. now subst.
  - injection H as ->. apply Z.eqb_refl.
Qed.

Lemma primary_key_tail r t : primary_key (r :: t) -> primary_key t.
Proof. intros [Hn Hf]. inversion Hn; inversion Hf; subst. now split. Qed.

Lemma filter_has_id_none k t :
  ~ In (JNum k) (map (col "id") t) -> filter (has_id k) t = [].
Proof.
  induction t as [|r t IH]; simpl; intros Hn; [reflexivity|].
  destruct (has_id k r) eqn:E.
  - apply has_id_true in E. exfalso. apply Hn. now left.
  - apply IH. intro; apply Hn; now right.
Qed.

(** Under a primary key, [WHERE id = k] selects the one row that has it. *)
Lemma filter_has_id_unique k r t :
  primary_key t -> In r t -> has_id k r = true -> filter (has_id k) t = [r].
Proof.
  induction t as [|r0 t IH]; intros Hpk Hin Hid; [contradiction|].
  simpl. destruct Hin as [->|Hin].
  - rewrite Hid. f_equal. apply filter_has_id_none.
    destruct Hpk as [Hn _]. inversion Hn; subst.
    apply has_id_true in Hid. now rewrite <- Hid.
  - destruct (has_id k r0) eqn:E.
    + exfalso. destruct Hpk as [Hn _]. inversion Hn as [|? ? Hni _]; subst.
      apply Hni. apply has_id_true in E, Hid. rewrite E, <- Hid.
      now apply in_map.
    + apply IH; [eapply primary_key_tail; eauto|assumption|assumption].
Qed.

Lemma filter_has_id_absent k t :
  (forall r, In r t -> has_id k r = false) -> filter (has_id k) t = [].
Proof.
  induction t as [|r t IH]; simpl; intros H; [reflexivity|].
  rewrite (H r) by now left. apply IH. intros; apply H; now right.
Qed.

(** *** Identifiers in the path

    A path parameter that the store reads as an integer is also one that
    [parseInt] reads, as the same integer: such a request passes the
    [isNaN(parseInt(id))] guard. *)

Lemma js_ltrim_pg_ltrim s : js_ltrim (pg_ltrim s) = js_ltrim s.
Proof.
  induction s as [|a r IH]; [reflexivity|].
  simpl pg_ltrim. destruct (ws1 a) eqn:E; [|reflexivity].
  rewrite IH. simpl. now rewrite E.
Qed.

Lemma ws2_ascii a b : (code a < 128)%nat -> ws2 a b = false.
Proof.
  intros H. unfold ws2.
  replace (code a =? 194)%nat with false; [reflexivity|].
  symmetry. apply Nat.eqb_neq. lia.
Qed.

Lemma ws3_ascii a b c : (code a < 128)%nat -> ws3 a b c = false.
Proof.
  intros H. unfold ws3. cbv zeta.
  replace (code a =? 225)%nat with false by (symmetry; apply Nat.eqb_neq; lia).
  replace (code a =? 226)%nat with false by (symmetry; apply Nat.eqb_neq; lia).
  replace (code a =? 227)%nat with false by (symmetry; apply Nat.eqb_neq; lia).
  replace (code a =? 239)%nat with false by (symmetry; apply Nat.eqb_neq; lia).
  reflexivity.
Qed.

Lemma js_ltrim_ascii a r :
  ws1 a = false -> (code a < 128)%nat -> js_ltrim (String a r) = String a r.
Proof.
  intros Hw Hc. simpl. rewrite Hw.
  destruct r as [|b [|c r3]]; try reflexivity.
  - now rewrite ws2_ascii.
  - now rewrite ws2_ascii, ws3_ascii.
Qed.

Lemma digit10_code c d : digit10 c = Some d -> (48 <= code c <= 57)%nat.
Proof.
  unfold digit10. destruct ((48 <=? code c)%nat && (code c <=? 57)%nat) eqn:E;
    [|discriminate].
  intros _. apply andb_true_iff in E as [E1 E2].
  apply Nat.leb_le in E1, E2. lia.
Qed.

Lemma ws1_code c : ws1 c = true -> (code c <= 32)%nat.
Proof.
  unfold ws1. cbv zeta. intros H. apply orb_true_iff in H as [H|H].
  - apply andb_true_iff in H as [_ H]. apply Nat.leb_le in H. lia.
  - apply Nat.eqb_eq in H. lia.
Qed.

Lemma ws1_false c : (32 < code c)%nat -> ws1 c = false.
Proof.
  intros H. destruct (ws1 c) eqn:E; [|reflexivity].
  apply ws1_code in E. lia.
Qed.

Lemma int4in_parseInt s k : int4in s = Some k -> parseInt_string s = Some k.
Proof.
  unfold int4in, parseInt_string. rewrite <- js_ltrim_pg_ltrim.
  remember (pg_ltrim s) as s1 eqn:Hs1. clear s Hs1.
  assert (Htrim : forall neg s2 n cnt rest,
             scan_sign s1 = (neg, s2) ->
             scan_digits digit10 10 0 0%nat s2 = (n, cnt, rest) ->
             (cnt =? 0)%nat = false -> js_ltrim s1 = s1).
  { intros neg s2 n cnt rest Hsg Hd Hc.
    destruct s1 as [|a r]; [simpl in Hsg; injection Hsg as <- <-;
                            simpl in Hd; injection Hd as <- <- <-; discriminate|].
    simpl in Hsg.
    destruct (Ascii.eqb a "-") eqn:Em.
    { apply Ascii.eqb_eq in Em. subst a. apply js_ltrim_ascii; [reflexivity|].
      apply Nat.ltb_lt; reflexivity. }
    destruct (Ascii.eqb a "+") eqn:Ep.
    { apply Ascii.eqb_eq in Ep. subst a. apply js_ltrim_ascii; [reflexivity|].
      apply Nat.ltb_lt; reflexivity. }
    injection Hsg as <- <-. simpl in Hd.
    destruct (digit10 a) as [d|] eqn:Ed.
    - apply digit10_code in Ed.
      apply js_ltrim_ascii; [apply ws1_false|]; lia.
    - injection Hd as <- <- <-. discriminate. }
  destruct (scan_sign s1) as [neg s2] eqn:Hsg.
  destruct (scan_digits digit10 10 0 0%nat s2) as [[n cnt] rest] eqn:Hd.
  destruct (cnt =? 0)%nat eqn:Hc; [discriminate|].
  destruct (all_ws rest) eqn:Hw; [|discriminate]. simpl negb. cbv iota.
  destruct (in_int4 (signed neg n)); [|discriminate].
  intros H. injection H as <-.
  rewrite (Htrim _ _ _ _ _ eq_refl Hd Hc), Hsg.
  destruct s2 as [|z [|x s3]]; try (rewrite Hd, Hc; reflexivity).
  destruct (Ascii.eqb z "0" && ((code x =? 120) || (code x =? 88))%nat) eqn:E;
    [|rewrite Hd, Hc; reflexivity].
  exfalso. apply andb_true_iff in E as [Ez Ex].
  apply Ascii.eqb_eq in Ez. subst z.
  assert (Hx : (code x = 120 \/ code x = 88)%nat).
  { apply orb_true_iff in Ex as [Ex|Ex]; apply Nat.eqb_eq in Ex; auto. }
  assert (Hdx : digit10 x = None).
  { unfold digit10. destruct Hx as [-> | ->]; reflexivity. }
  simpl in Hd. change (digit10 "0") with (Some 0) in Hd. cbv iota in Hd.
  rewrite Hdx in Hd. injection Hd as <- <- <-.
  simpl in Hw. rewrite ws1_false in Hw; [discriminate|].
  destruct Hx as [-> | ->]; lia.
Qed.

Lemma int4in_valid_id s k : int4in s = Some k -> invalid_id s = false.
Proof.
  intros H. unfold invalid_id, isNaN_parseInt, parseInt. simpl to_string.
  rewrite (int4in_parseInt _ _ H).
  destruct s; [discriminate|reflexivity].
Qed.

(** *** The aggregate join

    Under the primary key of the slots, the groups of
    [creneaux_expedition ce LEFT JOIN colis c ON ce.id = c.creneau_id
     ... GROUP BY ce.id] are the slots themselves, one group each, and
    [COUNT(c.id)] is the number of packages that refer to the slot. *)

Lemma left_join_flat_map l r :
  left_join l r on_creneau = flat_map (joined_of r) l.
Proof. reflexivity. Qed.

Lemma joined_of_fst cs ce j : In j (joined_of cs ce) -> fst j = ce.
Proof.
  unfold joined_of. destruct (filter (on_creneau ce) cs) as [|m ms].
  - intros [<-|[]]. reflexivity.
  - intros H. apply in_map_iff in H as [b [<- _]]. reflexivity.
Qed.

Lemma joined_of_head cs ce :
  exists j rest, joined_of cs ce = j :: rest /\ fst j = ce.
Proof.
  unfold joined_of. destruct (filter (on_creneau ce) cs) as [|m ms]; simpl; eauto.
Qed.

Lemma filter_all {A} (f : A -> bool) l :
  (forall x, In x l -> f x = true) -> filter f l = l.
Proof.
  induction l as [|x l IH]; simpl; intros H; [reflexivity|].
  rewrite (H x) by now left. f_equal. apply IH. intros; apply H; now right.
Qed.

Lemma filter_none {A} (f : A -> bool) l :
  (forall x, In x l -> f x = false) -> filter f l = [].
Proof.
  induction l as [|x l IH]; simpl; intros H; [reflexivity|].
  rewrite (H x) by now left. apply IH. intros; apply H; now right.
Qed.

Lemma filter_joined cond cs l :
  filter (fun j => cond (fst j)) (flat_map (joined_of cs) l)
  = flat_map (joined_of cs) (filter cond l).
Proof.
  induction l as [|ce l IH]; simpl; [reflexivity|].
  rewrite filter_app, IH. destruct (cond ce) eqn:E; simpl.
  - f_equal. apply filter_all. intros j Hj.
    now rewrite (joined_of_fst _ _ _ Hj).
  - rewrite filter_none; [reflexivity|]. intros j Hj.
    now rewrite (joined_of_fst _ _ _ Hj).
Qed.

Lemma count_joined cs ce :
  (forall c, In c cs -> col "id" c <> JNull) ->
  count_c_id (joined_of cs ce) = Z.of_nat (List.length (filter (on_creneau ce) cs)).
Proof.
  intros Hid. unfold count_c_id, joined_of.
  assert (Hsub : forall c, In c (filter (on_creneau ce) cs) -> col "id" c <> JNull).
  { intros c Hc. apply Hid. apply filter_In in Hc. tauto. }
  destruct (filter (on_creneau ce) cs) as [|m ms] eqn:E; [reflexivity|].
  rewrite filter_all, length_map; [reflexivity|].
  intros j Hj. apply in_map_iff in Hj as [b [<- Hb]]. simpl.
  specialize (Hsub b Hb). destruct (col "id" b); congruence.
Qed.

Lemma nodup_dup (x : option Z) l :
  In x l -> nodup option_Z_eq_dec (x :: l) = nodup option_Z_eq_dec l.
Proof.
  intros H. cbn [nodup]. destruct (in_dec option_Z_eq_dec x l); [reflexivity|contradiction].
Qed.

Lemma nodup_run (k : option Z) l1 l2 :
  l1 <> [] -> (forall x, In x l1 -> x = k) -> ~ In k l2 ->
  nodup option_Z_eq_dec (l1 ++ l2) = k :: nodup option_Z_eq_dec l2.
Proof.
  induction l1 as [|x l1 IH]; intros Hne Hall Hni; [congruence|].
  assert (x = k) by (apply Hall; now left). subst x.
  destruct l1 as [|y l1].
  - simpl. destruct (in_dec option_Z_eq_dec k l2); [contradiction|reflexivity].
  - assert (y = k) by (apply Hall; right; now left). subst y.
    change ((k :: k :: l1) ++ l2) with (k :: ((k :: l1) ++ l2)).
    rewrite nodup_dup by (now left).
    apply IH; [discriminate|intros; apply Hall; now right|assumption].
Qed.

Lemma option_Z_eqb_true a b : option_Z_eqb a b = true <-> a = b.
Proof. unfold option_Z_eqb. destruct (option_Z_eq_dec a b); split; congruence. Qed.

Lemma slot_key_joined cs l k :
  In k (map slot_key (flat_map (joined_of cs) l)) ->
  In k (map (fun ce => int_of (col "id" ce)) l).
Proof.
  intros H. apply in_map_iff in H as [j [<- Hj]].
  apply in_flat_map in Hj as [ce [Hce Hj]].
  unfold slot_key. rewrite (joined_of_fst _ _ _ Hj).
  apply in_map_iff. eauto.
Qed.

Lemma group_by_joined cs l :
  NoDup (map (fun ce => int_of (col "id" ce)) l) ->
  group_by slot_key (flat_map (joined_of cs) l) = map (joined_of cs) l.
Proof.
  induction l as [|ce l IH]; intros Hnd; [reflexivity|].
  inversion Hnd as [|? ? Hni Hnd']; subst.
  unfold group_by. simpl flat_map. rewrite map_app.
  set (k0 := int_of (col "id" ce)) in *.
  assert (Hk : forall j, In j (joined_of cs ce) -> slot_key j = k0).
  { intros j Hj. unfold slot_key. now rewrite (joined_of_fst _ _ _ Hj). }
  rewrite (nodup_run k0).
  - simpl map. f_equal.
    + rewrite filter_app, filter_all, filter_none; [apply app_nil_r| |].
      * intros j Hj. destruct (option_Z_eqb (slot_key j) k0) eqn:E; [|reflexivity].
        apply option_Z_eqb_true in E. exfalso. apply Hni.
        apply (slot_key_joined cs). rewrite <- E. now apply in_map.
      * intros j Hj. apply option_Z_eqb_true. now apply Hk.
    + rewrite <- IH by assumption. unfold group_by.
      apply map_ext_in. intros k Hkin. apply nodup_In in Hkin.
      rewrite filter_app, filter_none; [reflexivity|].
      intros j Hj. destruct (option_Z_eqb (slot_key j) k) eqn:E; [|reflexivity].
      apply option_Z_eqb_true in E. rewrite (Hk j Hj) in E. subst k.
      exfalso. apply Hni. now apply (slot_key_joined cs).
  - destruct (joined_of_head cs ce) as [j [rest [-> _]]]. discriminate.
  - intros x Hx. apply in_map_iff in Hx as [j [<- Hj]]. now apply Hk.
  - intro H. apply Hni. now apply (slot_key_joined cs).
Qed.

Lemma primary_key_int_keys t :
  primary_key t -> NoDup (map (fun r => int_of (col "id" r)) t).
Proof.
  induction t as [|r t IH]; intros Hpk; [constructor|].
  pose proof (primary_key_tail _ _ Hpk) as Hpk'.
  destruct Hpk as [Hn Hf]. inversion Hn as [|? ? Hni _]; subst.
  inversion Hf as [|? ? [k Hk] Hf']; subst.
  simpl. constructor; [|now apply IH].
  intro H. apply in_map_iff in H as [r' [Hr' Hin]].
  apply Hni. rewrite Forall_forall in Hf'. destruct (Hf' r' Hin) as [k' Hk'].
  rewrite Hk, Hk' in Hr'. simpl in Hr'. injection Hr' as ->.
  rewrite Hk, <- Hk'. now apply in_map.
Qed.

Lemma primary_key_filter cond t : primary_key t -> primary_key (filter cond t).
Proof.
  induction t as [|r t IH]; intros Hpk; [exact Hpk|].
  pose proof (IH (primary_key_tail _ _ Hpk)) as [Hn' Hf'].
  destruct Hpk as [Hn Hf]. inversion Hn as [|? ? Hni _]; subst.
  inversion Hf; subst. simpl. destruct (cond r); [|now split].
  split; [|now constructor]. simpl. constructor; [|assumption].
  intro H. apply Hni. apply in_map_iff in H as [r' [<- Hin]].
  apply in_map. apply filter_In in Hin. tauto.
Qed.

(** The groups are the matching slots, each with the number of its
    packages. *)
Lemma creneau_groups_spec db cond :
  primary_key (creneaux_expedition db) ->
  (forall c, In c (colis db) -> col "id" c <> JNull) ->
  creneau_groups db cond
  = map (fun ce => (ce, usage db ce)) (filter cond (creneaux_expedition db)).
Proof.
  intros Hpk Hid. unfold creneau_groups.
  rewrite left_join_flat_map, filter_joined.
  change (fun j : row * option row => int_of (col "id" (fst j))) with slot_key.
  rewrite group_by_joined
    by (apply primary_key_int_keys; now apply primary_key_filter).
  rewrite map_map. apply map_ext. intros ce.
  rewrite count_joined by assumption.
  destruct (joined_of_head (colis db) ce) as [j [rest [-> <-]]]. reflexivity.
Qed.

Lemma sql_eq_sym a b : sql_eq a b = sql_eq b a.
Proof. destruct a, b; simpl; try reflexivity. apply Z.eqb_sym. Qed.

Lemma usage_count db ce k :
  col "id" ce = JNum k -> usage db ce = count_colis_of db k.
Proof.
  intros H. unfold usage, count_colis_of, on_creneau. rewrite H.
  do 2 f_equal. apply filter_ext. intros c. apply sql_eq_sym.
Qed.

(** *** Sorting and paging keep the rows *)

Lemma in_insert_sorted {A} (le : A -> A -> bool) x y l :
  In y (insert_sorted le x l) <-> y = x \/ In y l.
Proof.
  induction l as [|z l IH]; simpl.
  - intuition.
  - destruct (le x z); simpl; [intuition|]. rewrite IH. intuition.
Qed.

Lemma in_sort {A} (le : A -> A -> bool) y l : In y (sort le l) <-> In y l.
Proof.
  induction l as [|x l IH]; simpl; [tauto|].
  rewrite in_insert_sorted, IH. intuition.
Qed.

Lemma in_order_by {A} (key : A -> jsval) desc y l :
  In y (order_by key desc l) <-> In y l.
Proof. apply in_sort. Qed.

Lemma length_insert_sorted {A} (le : A -> A -> bool) x l :
  List.length (insert_sorted le x l) = S (List.length l).
Proof.
  induction l as [|z l IH]; simpl; [reflexivity|].
  destruct (le x z); simpl; [reflexivity|now rewrite IH].
Qed.

Lemma length_order_by {A} (key : A -> jsval) desc (l : list A) :
  List.length (order_by key desc l) = List.length l.
Proof.
  unfold order_by, sort. induction l as [|x l IH]; simpl; [reflexivity|].
  now rewrite length_insert_sorted, IH.
Qed.

Lemma in_limit_offset {A} n k (x : A) l : In x (limit_offset n k l) -> In x l.
Proof.
  unfold limit_offset. intros H.
  rewrite <- (firstn_skipn (Z.to_nat k) l). apply in_or_app. right.
  rewrite <- (firstn_skipn (Z.to_nat n) (skipn (Z.to_nat k) l)).
  apply in_or_app. now left.
Qed.

Lemma limit_offset_map {A B} (f : A -> B) n k l :
  limit_offset n k (map f l) = map f (limit_offset n k l).
Proof. unfold limit_offset. now rewrite skipn_map, firstn_map. Qed.

(** The first page holds every row when the limit is not below their
    number. *)
Lemma limit_offset_all {A} n (l : list A) :
  Z.of_nat (List.length l) <= n -> limit_offset n 0 l = l.
Proof.
  intros H. unfold limit_offset. simpl. apply firstn_all2. lia.
Qed.

(** *** Numbers, and the parameters of LIMIT and OFFSET *)

Lemma round_double_small n : n < 2 ^ 53 -> round_double n = n.
Proof.
  intros H. unfold round_double.
  now rewrite (proj2 (Z.ltb_lt n (2 ^ 53)) H).
Qed.

(** From 2^53 on, the nearest double is a mantissa of at least 2^52 times a
    power of two that is at least 2. *)
Lemma round_double_big n : 2 ^ 53 <= n -> 2 ^ 53 <= round_double n.
Proof.
  intros H. unfold round_double.
  rewrite (proj2 (Z.ltb_ge n (2 ^ 53)) H). cbv zeta.
  assert (L : 53 <= Z.log2 n) by (apply Z.log2_le_pow2; lia).
  set (e := Z.log2 n - 52).
  assert (P : 0 < 2 ^ e) by (apply Z.pow_pos_nonneg; lia).
  assert (Q : 2 ^ 52 <= n / 2 ^ e).
  { apply Z.div_le_lower_bound; [exact P|].
    rewrite <- Z.pow_add_r by lia. replace (e + 52) with (Z.log2 n) by lia.
    apply Z.log2_spec. lia. }
  assert (E : 2 <= 2 ^ e).
  { change 2 with (2 ^ 1) at 1. apply Z.pow_le_mono_r; lia. }
  destruct (_ || _); nia.
Qed.

Lemma round_double_nonneg n : 0 <= n -> 0 <= round_double n.
Proof.
  intros H. destruct (Z.lt_ge_cases n (2 ^ 53)) as [S|B].
  - now rewrite round_double_small.
  - pose proof (round_double_big n B). lia.
Qed.

Lemma max_double_big : 2 ^ 53 <= max_double.
Proof. vm_compute. discriminate. Qed.

Lemma Number_small n : Z.abs n < 2 ^ 53 -> Number n = Finite n.
Proof.
  intros H. unfold Number. rewrite round_double_small by exact H.
  pose proof max_double_big.
  rewrite (proj2 (Z.ltb_ge max_double (Z.abs n))) by lia.
  f_equal. lia.
Qed.

Lemma Number_nonneg n v : 0 <= n -> Number n = Finite v -> 0 <= v.
Proof.
  intros H. unfold Number. destruct (_ <? _); [discriminate|].
  intros [= <-]. pose proof (round_double_nonneg (Z.abs n)). nia.
Qed.

(** A positive integer from 2^53 on has a Number value of 2^53 at least. *)
Lemma Number_big n :
  2 ^ 53 <= n ->
  Number n = Infinity false \/ exists v, Number n = Finite v /\ 2 ^ 53 <= v.
Proof.
  intros H. unfold Number.
  replace (n <? 0) with false by (symmetry; apply Z.ltb_ge; lia).
  destruct (_ <? _); [now left|]. right. eexists. split; [reflexivity|].
  pose proof (round_double_big (Z.abs n)). nia.
Qed.

Lemma Number_negative n :
  n <= 0 ->
  Number n = Infinity true \/ exists v, Number n = Finite v /\ v <= 0.
Proof.
  intros H. unfold Number. destruct (_ <? _) eqn:E.
  - left. f_equal. apply Z.ltb_lt. destruct (Z.eq_dec n 0) as [->|]; [|lia].
    vm_compute in E. discriminate.
  - right. eexists. split; [reflexivity|].
    pose proof (round_double_nonneg (Z.abs n)). nia.
Qed.

Lemma shortest_small t x : 0 <= x < 2 ^ 53 -> shortest t x = x.
Proof.
  intros H.
  assert (R : forall d, (round_double d =? x) = true -> d = x).
  { intros d E. apply Z.eqb_eq in E.
    destruct (Z.lt_ge_cases d (2 ^ 53)) as [S|B].
    - now rewrite round_double_small in E.
    - pose proof (round_double_big d B). lia. }
  induction t as [|t IH]; cbn [shortest]; cbv zeta;
    destruct (round_double (x / _ * _) =? x) eqn:E1;
    destruct (round_double (x / _ * _ + _) =? x) eqn:E2; cbn [andb];
    try (apply R in E1); try (apply R in E2);
    repeat match goal with |- context [if ?b then _ else _] => destruct b end;
    auto; lia.
Qed.

Lemma shortest_nonneg t x : 0 <= x -> 0 <= shortest t x.
Proof.
  intros H.
  assert (P : forall t : nat, 0 < 10 ^ Z.of_nat t) by (intros; apply Z.pow_pos_nonneg; lia).
  induction t as [|t IH]; cbn [shortest]; cbv zeta;
    [pose proof (P 0%nat) | pose proof (P (S t))];
    repeat match goal with |- context [if ?b then _ else _] => destruct b end;
    try assumption;
    try (pose proof (Z.div_pos x (10 ^ Z.of_nat 0) H ltac:(assumption)); nia);
    try (pose proof (Z.div_pos x (10 ^ Z.of_nat (S t)) H ltac:(assumption)); nia).
Qed.

Lemma bind_int8_small v : Z.abs v < 2 ^ 53 -> bind_int8 (Finite v) = Some v.
Proof.
  intros H. unfold bind_int8, Number_text.
  assert (T : Z.abs v < 10 ^ 21) by (change (10 ^ 21) with 1000000000000000000000;
                                     change (2 ^ 53) with 9007199254740992 in H; lia).
  rewrite (proj2 (Z.ltb_lt _ _) T), shortest_small by lia.
  replace (Z.sgn v * Z.abs v) with v by lia.
  unfold in_int8. change (2 ^ 53) with 9007199254740992 in H.
  replace (-9223372036854775808 <=? v) with true by (symmetry; apply Z.leb_le; lia).
  replace (v <=? 9223372036854775807) with true by (symmetry; apply Z.leb_le; lia).
  reflexivity.
Qed.

Lemma bind_int8_nonneg v k : 0 <= v -> bind_int8 (Finite v) = Some k -> 0 <= k.
Proof.
  intros H. unfold bind_int8, Number_text.
  destruct (_ <? _); [|discriminate]. destruct (in_int8 _); [|discriminate].
  intros [= <-]. pose proof (shortest_nonneg 21 (Z.abs v) (Z.abs_nonneg v)).
  apply Z.mul_nonneg_nonneg; [now apply Z.sgn_nonneg | assumption].
Qed.

Lemma bind_int8_finite x k : bind_int8 x = Some k -> exists v, x = Finite v.
Proof. destruct x; try discriminate. eauto. Qed.

(** The offset of page [p] of [l] rows. *)
Lemma offset_nonneg p l k :
  1 <= p -> 1 <= l ->
  bind_int8 (times (minus_one (Finite p)) (Finite l)) = Some k -> 0 <= k.
Proof.
  intros Hp Hl. cbn [minus_one].
  destruct (Number (p - 1)) as [|a|s] eqn:E; cbn [times].
  - discriminate.
  - pose proof (Number_nonneg (p - 1) a ltac:(lia) E) as A.
    destruct (Number (a * l)) as [|v|s] eqn:F; try discriminate.
    apply bind_int8_nonneg. apply (Number_nonneg (a * l)); [nia | exact F].
  - destruct (l =? 0); discriminate.
Qed.

Lemma offset_safe p l :
  1 <= p -> 1 <= l -> (p - 1) * l < 2 ^ 53 ->
  bind_int8 (times (minus_one (Finite p)) (Finite l)) = Some ((p - 1) * l).
Proof.
  intros Hp Hl H. cbn [minus_one].
  rewrite Number_small by nia. cbn [times].
  rewrite Number_small by nia. apply bind_int8_small. nia.
Qed.

Lemma round_double_ge n k : 53 <= k -> 2 ^ k <= n -> 2 ^ k <= round_double n.
Proof.
  intros K H.
  assert (B : 2 ^ 53 <= n).
  { apply Z.le_trans with (2 ^ k); [apply Z.pow_le_mono_r; lia | exact H]. }
  unfold round_double.
  rewrite (proj2 (Z.ltb_ge n (2 ^ 53)) B). cbv zeta.
  assert (N : 0 < n) by (pose proof (Z.pow_pos_nonneg 2 53); lia).
  assert (L : k <= Z.log2 n) by (apply Z.log2_le_pow2; lia).
  set (e := Z.log2 n - 52).
  assert (P : 0 < 2 ^ e) by (apply Z.pow_pos_nonneg; lia).
  assert (Q : 2 ^ 52 <= n / 2 ^ e).
  { apply Z.div_le_lower_bound; [exact P|].
    rewrite <- Z.pow_add_r by lia. replace (e + 52) with (Z.log2 n) by lia.
    apply Z.log2_spec. lia. }
  assert (E : 2 ^ k <= 2 ^ 52 * 2 ^ e).
  { rewrite <- Z.pow_add_r by lia. apply Z.pow_le_mono_r; lia. }
  destruct (_ || _); nia.
Qed.

Lemma round_double_le n k : 53 <= k -> n < 2 ^ k -> round_double n <= 2 ^ k.
Proof.
  intros K H. destruct (Z.lt_ge_cases n (2 ^ 53)) as [S|B].
  - rewrite round_double_small by exact S. lia.
  - unfold round_double.
    rewrite (proj2 (Z.ltb_ge n (2 ^ 53)) B). cbv zeta.
    assert (N : 0 < n) by (pose proof (Z.pow_pos_nonneg 2 53); lia).
    assert (L53 : 53 <= Z.log2 n) by (apply Z.log2_le_pow2; lia).
    assert (L : Z.log2 n < k) by (apply Z.log2_lt_pow2; lia).
    set (e := Z.log2 n - 52).
    assert (P : 0 < 2 ^ e) by (apply Z.pow_pos_nonneg; lia).
    assert (Q : n / 2 ^ e < 2 ^ 53).
    { apply Z.div_lt_upper_bound; [exact P|].
      rewrite <- Z.pow_add_r by lia. replace (e + 53) with (Z.succ (Z.log2 n)) by lia.
      apply Z.log2_spec. lia. }
    assert (E : 2 ^ 53 * 2 ^ e <= 2 ^ k).
    { rewrite <- Z.pow_add_r by lia. apply Z.pow_le_mono_r; lia. }
    destruct (_ || _); nia.
Qed.

(** The digits that [shortest] keeps are those of [x], or round to [x]. *)
Lemma shortest_rounds t x : shortest t x = x \/ round_double (shortest t x) = x.
Proof.
  induction t as [|t IH]; cbn [shortest]; cbv zeta;
    destruct (round_double (x / _ * _) =? x) eqn:E1;
    destruct (round_double (x / _ * _ + _) =? x) eqn:E2; cbn [andb];
    try (apply Z.eqb_eq in E1); try (apply Z.eqb_eq in E2);
    repeat match goal with |- context [if ?b then _ else _] => destruct b end;
    auto.
Qed.

(** Up to 2^62 a double is a bigint in text. *)
Lemma bind_int8_read v : 0 <= v <= 2 ^ 62 -> exists k, bind_int8 (Finite v) = Some k.
Proof.
  intros H. unfold bind_int8, Number_text.
  change (2 ^ 62) with 4611686018427387904 in H.
  assert (T : Z.abs v < 10 ^ 21)
    by (change (10 ^ 21) with 1000000000000000000000; lia).
  rewrite (proj2 (Z.ltb_lt _ _) T).
  replace (Z.abs v) with v by lia.
  pose proof (shortest_nonneg 21 v ltac:(lia)) as N.
  assert (U : shortest 21 v < 2 ^ 63).
  { destruct (shortest_rounds 21 v) as [->|R].
    - change (2 ^ 63) with 9223372036854775808. lia.
    - destruct (Z.lt_ge_cases (shortest 21 v) (2 ^ 63)) as [S|B]; [exact S|].
      pose proof (round_double_ge _ 63 ltac:(lia) B) as G. rewrite R in G.
      change (2 ^ 63) with 9223372036854775808 in G. lia. }
  change (2 ^ 63) with 9223372036854775808 in U.
  assert (I : in_int8 (Z.sgn v * shortest 21 v) = true).
  { unfold in_int8. apply andb_true_intro. split; apply Z.leb_le; nia. }
  rewrite I. eauto.
Qed.

(** A page below 2^53 of at most 100 rows has an offset that the store
    reads. *)
Lemma offset_read p l :
  1 <= p < 2 ^ 53 -> 1 <= l <= 100 ->
  exists k, bind_int8 (times (minus_one (Finite p)) (Finite l)) = Some k.
Proof.
  intros Hp Hl. cbn [minus_one].
  rewrite Number_small by lia. cbn [times].
  assert (X : 0 <= (p - 1) * l < 2 ^ 60).
  { change (2 ^ 53) with 9007199254740992 in Hp.
    change (2 ^ 60) with 1152921504606846976. nia. }
  set (x := (p - 1) * l) in *.
  pose proof (round_double_le x 60 ltac:(lia) (proj2 X)) as U.
  pose proof (round_double_nonneg x (proj1 X)) as N.
  assert (E : Number x = Finite (Z.sgn x * round_double x)).
  { unfold Number. replace (Z.abs x) with x by lia.
    replace (max_double <? round_double x) with false; [reflexivity|].
    symmetry. apply Z.ltb_ge.
    apply Z.le_trans with (2 ^ 60); [exact U | vm_compute; discriminate]. }
  rewrite E. apply bind_int8_read.
  change (2 ^ 60) with 1152921504606846976 in U.
  change (2 ^ 62) with 4611686018427387904. nia.
Qed.



(** The page is at least 1 and the limit lies between 1 and 100. *)
Lemma pageNum_ge q p : pageNum q = Finite p -> 1 <= p.
Proof.
  unfold pageNum, Math_max.
  destruct (Number_of _) as [|v|[|]]; try discriminate; intros [= <-]; lia.
Qed.

Lemma limitNum_range q l : limitNum q = Finite l -> 1 <= l <= 100.
Proof.
  unfold limitNum, Math_min, Math_max.
  destruct (Number_of _) as [|v|[|]]; try discriminate; intros [= <-]; lia.
Qed.

Lemma skipped_nonneg p l : 1 <= p -> 1 <= l -> 0 <= skipped p l.
Proof.
  intros Hp Hl. unfold skipped.
  destruct (bind_int8 _) as [k|] eqn:E; [|lia].
  now apply (offset_nonneg p l).
Qed.



(** What a list route answers, when it answers. *)
Lemma list_answer_inv q total (ordered : list row) s body :
  list_answer q total ordered = Reply s body ->
  exists p l,
    pageNum q = Finite p /\ limitNum q = Finite l /\ 1 <= p /\ 1 <= l <= 100
    /\ 0 <= skipped p l
    /\ s = 200
    /\ body = JObj [("data",
                     JArr (map JObj (limit_offset l (skipped p l) ordered)));
                    ("pagination", pagination p l total)].
Proof.
  unfold list_answer, offset. intros H.
  destruct (pageNum q) as [|p|] eqn:Hp; try discriminate.
  destruct (limitNum q) as [|l|] eqn:Hl; try discriminate.
  pose proof (pageNum_ge _ _ Hp) as P. pose proof (limitNum_range _ _ Hl) as L.
  rewrite bind_int8_small in H by (change (2 ^ 53) with 9007199254740992; lia).
  pose proof (skipped_nonneg p l P ltac:(lia)) as K.
  exists p, l. unfold skipped in *.
  destruct (bind_int8 (times (minus_one (Finite p)) (Finite l))) as [k|];
    [|discriminate].
  injection H as <- <-. repeat split; try assumption; lia.
Qed.


(** As long as the offset is below 2^53 the list is answered, and the
    offset is exact. *)
Lemma list_answer_safe q total (ordered : list row) p l :
  pageNum q = Finite p -> limitNum q = Finite l -> (p - 1) * l < 2 ^ 53 ->
  list_answer q total ordered
  = Reply 200
      (JObj [("data", JArr (map JObj (limit_offset l ((p - 1) * l) ordered)));
             ("pagination", pagination p l total)]).
Proof.
  intros Hp Hl H. unfold list_answer, offset. rewrite Hp, Hl.
  pose proof (pageNum_ge _ _ Hp) as P. pose proof (limitNum_range _ _ Hl) as L.
  rewrite bind_int8_small by (change (2 ^ 53) with 9007199254740992; lia).
  now rewrite offset_safe by lia.
Qed.



(** *** The derived columns of a slot *)

Lemma with_usage_count ce n :
  col "nombre_colis_actuels" (with_usage (ce, n)) = JStr (dec n).
Proof.
  unfold with_usage. simpl fst. simpl snd.
  rewrite col_set_col_neq by discriminate. apply col_set_col_eq.
Qed.

Lemma with_usage_remaining ce n m :
  col "capacite_max" ce = JNum m ->
  col "places_restantes" (with_usage (ce, n)) = JStr (dec (m - n)).
Proof.
  intros H. unfold with_usage. simpl fst. simpl snd.
  rewrite col_set_col_eq, H. reflexivity.
Qed.

Lemma with_usage_other ce n c :
  c <> "nombre_colis_actuels" -> c <> "places_restantes" ->
  col c (with_usage (ce, n)) = col c ce.
Proof.
  intros H1 H2. unfold with_usage. simpl fst. simpl snd.
  rewrite !col_set_col_neq by congruence. reflexivity.
Qed.

(** Without a search every slot matches. *)
Lemma creneaux_where_all db q :
  search_pattern q = None ->
  filter (creneaux_where q) (creneaux_expedition db) = creneaux_expedition db.
Proof.
  intros S. apply filter_all. intros ce _. unfold creneaux_where. now rewrite S.
Qed.

(** The slot list is the list answer of the slots in order, when its count
    query runs: without a search. *)
Lemma get_creneaux_list db q :
  primary_key (creneaux_expedition db) ->
  (forall c, In c (colis db) -> col "id" c <> JNull) ->
  search_pattern q = None ->
  exists ordered,
    get_creneaux db q
    = list_answer q (Z.of_nat (List.length (creneaux_expedition db)))
                  (map with_usage ordered)
    /\ List.length ordered = List.length (creneaux_expedition db)
    /\ forall g, In g ordered <->
                 exists ce, g = (ce, usage db ce) /\ In ce (creneaux_expedition db).
Proof.
  intros Hpk Hid S. unfold get_creneaux, count_creneaux_where.
  rewrite S, creneau_groups_spec, (creneaux_where_all db q S) by assumption.
  eexists. split; [reflexivity|]. split.
  - now rewrite length_order_by, length_map.
  - intros g. rewrite in_order_by, in_map_iff. split.
    + intros [ce [<- Hin]]. now exists ce.
    + intros [ce [-> Hin]]. now exists ce.
Qed.

(** With a search the slot list fails; an answer tells that there was
    none. *)
Lemma get_creneaux_search db q p :
  search_pattern q = Some p -> get_creneaux db q = Next.
Proof. intros S. unfold get_creneaux, count_creneaux_where. now rewrite S. Qed.

Lemma get_creneaux_answered db q s body :
  get_creneaux db q = Reply s body -> search_pattern q = None.
Proof.
  intros H. destruct (search_pattern q) as [p|] eqn:S; [|reflexivity].
  rewrite (get_creneaux_search db q p S) in H. discriminate.
Qed.

Lemma get_creneau_found db id k ce :
  primary_key (creneaux_expedition db) ->
  (forall c, In c (colis db) -> col "id" c <> JNull) ->
  int4in id = Some k -> In ce (creneaux_expedition db) -> col "id" ce = JNum k ->
  get_creneau db id = Reply 200 (JObj (with_usage (ce, count_colis_of db k))).
Proof.
  intros Hpk Hid Hk Hin Hce. unfold get_creneau.
  rewrite (int4in_valid_id _ _ Hk), Hk, creneau_groups_spec by assumption.
  rewrite (filter_has_id_unique k ce) by (try apply has_id_true; assumption).
  simpl. now rewrite (usage_count db ce k).
Qed.

(** C2. Every slot returned by the slot list and by slot get-by-id carries
    [nombre_colis_actuels] = the number of packages whose [creneau_id] is the
    id of the slot, and [places_restantes] = [capacite_max] minus that number,
    each of them as the store hands a bigint over: in decimal text; a slot
    that no package refers to is still returned - by get-by-id, and by the
    list when the request has no search and the first page holds every slot -
    with count 0 and remaining capacity [capacite_max].  ([id] is the primary
    key of both tables.) *)
Theorem slot_remaining_capacity (db : store) :
  primary_key (creneaux_expedition db) ->
  (forall c, In c (colis db) -> col "id" c <> JNull) ->
  (forall id k ce,
      int4in id = Some k -> In ce (creneaux_expedition db) -> col "id" ce = JNum k ->
      exists r,
        get_creneau db id = Reply 200 (JObj r)
        /\ col "nombre_colis_actuels" r = JStr (dec (count_colis_of db k))
        /\ (forall m, col "capacite_max" ce = JNum m ->
                      col "places_restantes" r
                      = JStr (dec (m - count_colis_of db k)))
        /\ (forall c, c <> "nombre_colis_actuels" -> c <> "places_restantes" ->
                      col c r = col c ce))
  /\ (forall q rows pag x,
         get_creneaux db q
         = Reply 200 (JObj [("data", JArr rows); ("pagination", pag)]) ->
         In x rows ->
         exists ce k r,
           x = JObj r /\ In ce (creneaux_expedition db) /\ col "id" ce = JNum k
           /\ col "nombre_colis_actuels" r = JStr (dec (count_colis_of db k))
           /\ (forall m, col "capacite_max" ce = JNum m ->
                         col "places_restantes" r
                         = JStr (dec (m - count_colis_of db k)))
           /\ (forall c, c <> "nombre_colis_actuels" -> c <> "places_restantes" ->
                         col c r = col c ce))
  /\ (forall q ce k m l,
         In ce (creneaux_expedition db) -> search_pattern q = None ->
         col "id" ce = JNum k -> col "capacite_max" ce = JNum m ->
         count_colis_of db k = 0 ->
         pageNum q = Finite 1 -> limitNum q = Finite l ->
         Z.of_nat (List.length (creneaux_expedition db)) <= l ->
         exists rows pag r,
           get_creneaux db q
           = Reply 200 (JObj [("data", JArr rows); ("pagination", pag)])
           /\ In (JObj r) rows
           /\ col "id" r = JNum k
           /\ col "nombre_colis_actuels" r = JStr "0"
           /\ col "places_restantes" r = JStr (dec m)).
Proof.
  intros Hpk Hid. split; [|split].
  - intros id k ce Hk Hin Hce. exists (with_usage (ce, count_colis_of db k)).
    split; [now apply get_creneau_found|].
    split; [apply with_usage_count|]. split.
    + intros m Hm. now apply with_usage_remaining.
    + intros c H1 H2. now apply with_usage_other.
  - intros q rows pag x Hget Hx.
    pose proof (get_creneaux_answered _ _ _ _ Hget) as S.
    destruct (get_creneaux_list db q Hpk Hid S) as [ord [Heq [_ Hord]]].
    rewrite Heq in Hget.
    destruct (list_answer_inv _ _ _ _ _ Hget) as (p & l & _ & _ & _ & _ & _ & _ & B).
    injection B as -> _.
    apply in_map_iff in Hx as [r [<- Hr]].
    apply in_limit_offset, in_map_iff in Hr as [g [<- Hg]].
    apply Hord in Hg. destruct Hg as [ce [-> Hin]].
    destruct Hpk as [_ Hf]. rewrite Forall_forall in Hf. destruct (Hf ce Hin) as [k Hk].
    exists ce, k, (with_usage (ce, usage db ce)). rewrite (usage_count db ce k Hk).
    split; [reflexivity|]. split; [assumption|]. split; [assumption|].
    split; [apply with_usage_count|]. split.
    + intros m Hm. now apply with_usage_remaining.
    + intros c H1 H2. now apply with_usage_other.
  - intros q ce k m l Hin S Hk Hm H0 Hp Hl Hlen.
    destruct (get_creneaux_list db q Hpk Hid S) as [ord [Heq [Hlo Hord]]].
    rewrite (list_answer_safe q _ _ 1 l Hp Hl) in Heq
      by (change (2 ^ 53) with 9007199254740992; lia).
    change ((1 - 1) * l) with 0 in Heq.
    rewrite limit_offset_all in Heq by (rewrite length_map, Hlo; exact Hlen).
    do 2 eexists. exists (with_usage (ce, usage db ce)).
    split; [exact Heq|]. split.
    + apply in_map, in_map. apply Hord. exists ce. tauto.
    + rewrite (usage_count db ce k Hk), H0. split; [|split].
      * rewrite with_usage_other by discriminate. exact Hk.
      * apply with_usage_count.
      * rewrite (with_usage_remaining ce 0 m Hm). do 2 f_equal. lia.
Qed.

(** *** Creating a package *)

Lemma check_creneau_spec db v k :
  primary_key (creneaux_expedition db) ->
  (forall c, In c (colis db) -> col "id" c <> JNull) ->
  truthy v = true -> bind_int v = Some (JNum k) ->
  check_creneau db v
  = match filter (has_id k) (creneaux_expedition db) with
    | [] => Some (error 400 "Créneau spécifié introuvable")
    | ce :: _ =>
        if usage_ge (count_colis_of db k) (col "capacite_max" ce)
        then Some (error 400 "Le créneau a atteint sa capacité maximale")
        else None
    end.
Proof.
  intros Hpk Hid Ht Hb. unfold check_creneau.
  rewrite Ht, Hb, creneau_groups_spec by assumption.
  destruct (filter (has_id k) (creneaux_expedition db)) as [|ce rest] eqn:E;
    [reflexivity|].
  assert (Hce : has_id k ce = true).
  { assert (In ce (filter (has_id k) (creneaux_expedition db)))
      by (rewrite E; now left).
    apply filter_In in H. tauto. }
  simpl. apply has_id_true in Hce. now rewrite (usage_count db ce k Hce).
Qed.

Lemma existsb_has_id k ce t : In ce t -> col "id" ce = JNum k -> existsb (has_id k) t = true.
Proof.
  intros Hin Hk. apply existsb_exists. exists ce. split; [assumption|].
  now apply has_id_true.
Qed.

(** Whatever the body, a request that the capacity block refuses, or that
    the validation refuses before it, is answered 400 and leaves the store as
    it was. *)
Lemma post_colis_refused sle db body now frac msg :
  check_creneau db (prop "creneau_id" body) = Some (error 400 msg) ->
  exists msg', post_colis sle db body now frac = (error 400 msg', db).
Proof.
  intros Hc. unfold post_colis.
  destruct (missing_field colis_required body); [eexists; reflexivity|].
  destruct (present_and_invalid validPackageTypes _); [eexists; reflexivity|].
  destruct (present_and_invalid validPaymentMethods _); [eexists; reflexivity|].
  destruct (le0 sle _); [eexists; reflexivity|].
  rewrite Hc. eexists; reflexivity.
Qed.

(** C1, as the code has it.  For a create request whose slot reference is
    truthy (any [creneau_id] but 0, the empty string and [false]) and is read
    by the store as the integer [k]: when no slot has id [k] the request is
    answered 400 and the store is unchanged; when the slot exists and the
    number of its packages is at least its [capacite_max] the request is
    answered 400 and the store is unchanged; when the number is below
    [capacite_max] (and the fields pass validation) the row is inserted and
    returned with status 201; and a row is inserted only in that last case. *)
Theorem create_checks_capacity sle db body now frac k :
  primary_key (creneaux_expedition db) ->
  (forall c, In c (colis db) -> col "id" c <> JNull) ->
  integer_column "capacite_max" (creneaux_expedition db) ->
  truthy (prop "creneau_id" body) = true ->
  bind_int (prop "creneau_id" body) = Some (JNum k) ->
  ((forall ce, In ce (creneaux_expedition db) -> col "id" ce <> JNum k) ->
   exists msg, post_colis sle db body now frac = (error 400 msg, db))
  /\ (forall ce m,
         In ce (creneaux_expedition db) -> col "id" ce = JNum k ->
         col "capacite_max" ce = JNum m -> m <= count_colis_of db k ->
         exists msg, post_colis sle db body now frac = (error 400 msg, db))
  /\ (forall ce m,
         In ce (creneaux_expedition db) -> col "id" ce = JNum k ->
         col "capacite_max" ce = JNum m -> count_colis_of db k < m ->
         colis_fields_valid sle body = true ->
         exists r,
           post_colis sle db body now frac
           = (Reply 201 (JObj r),
              mkStore (reservations db) (creneaux_expedition db)
                      (colis db ++ [r]) (colis_id_seq db + 1))
           /\ col "creneau_id" r = JNum k)
  /\ (forall resp db',
         post_colis sle db body now frac = (resp, db') ->
         colis db' <> colis db ->
         exists ce m,
           In ce (creneaux_expedition db) /\ col "id" ce = JNum k
           /\ col "capacite_max" ce = JNum m /\ count_colis_of db k < m).
Proof.
  intros Hpk Hid Hcap Ht Hb.
  pose proof (check_creneau_spec db _ k Hpk Hid Ht Hb) as Hc.
  split; [|split; [|split]].
  - intros Hno. rewrite filter_has_id_absent in Hc.
    + eapply post_colis_refused; eassumption.
    + intros r Hr. destruct (has_id k r) eqn:E; [|reflexivity].
      apply has_id_true in E. now apply Hno in E.
  - intros ce m Hin Hk Hm Hfull.
    rewrite (filter_has_id_unique k ce) in Hc
      by (try apply has_id_true; assumption).
    rewrite Hm in Hc. simpl in Hc.
    replace (m <=? count_colis_of db k) with true in Hc
      by (symmetry; now apply Z.leb_le).
    eapply post_colis_refused; eassumption.
  - intros ce m Hin Hk Hm Hroom Hv.
    rewrite (filter_has_id_unique k ce) in Hc
      by (try apply has_id_true; assumption).
    rewrite Hm in Hc. simpl in Hc.
    replace (m <=? count_colis_of db k) with false in Hc
      by (symmetry; apply Z.leb_gt; lia).
    unfold colis_fields_valid in Hv.
    split_checks Hv.
    destruct (missing_field colis_required body) eqn:Hmiss; [discriminate|].
    unfold post_colis. rewrite Hmiss.
    pass_checks.
    rewrite Hc, Hb. unfold insert_colis. simpl fk_creneau.
    rewrite (existsb_has_id k ce) by assumption.
    eexists. split; [reflexivity|]. reflexivity.
  - intros resp db' Hpost Hneq.
    unfold post_colis in Hpost.
    destruct (missing_field colis_required body);
      [injection Hpost as _ <-; congruence|].
    destruct (present_and_invalid validPackageTypes _);
      [injection Hpost as _ <-; congruence|].
    destruct (present_and_invalid validPaymentMethods _);
      [injection Hpost as _ <-; congruence|].
    destruct (le0 sle _); [injection Hpost as _ <-; congruence|].
    destruct (check_creneau db (prop "creneau_id" body)) as [r|] eqn:Hchk;
      [injection Hpost as _ <-; congruence|].
    rewrite Hb in Hpost. unfold insert_colis in Hpost.
    destruct (filter (has_id k) (creneaux_expedition db)) as [|ce rest] eqn:Hf;
      [discriminate|].
    assert (Hce : In ce (creneaux_expedition db) /\ has_id k ce = true).
    { apply filter_In. rewrite Hf. now left. }
    destruct Hce as [Hin Hk]. apply has_id_true in Hk.
    unfold integer_column in Hcap. rewrite Forall_forall in Hcap.
    destruct (Hcap ce Hin) as [Hnull|[m Hm]].
    + rewrite Hnull in Hc. simpl in Hc.
      replace (0 <=? count_colis_of db k) with true in Hc; [discriminate|].
      symmetry. apply Z.leb_le. unfold count_colis_of. lia.
    + rewrite Hm in Hc. simpl in Hc.
      destruct (m <=? count_colis_of db k) eqn:E; [discriminate|].
      apply Z.leb_gt in E. exists ce, m. tauto.
Qed.

(** *** Deleting a slot *)

(** C3. A slot-delete request on an id that at least one package refers to
    is answered with the conflict error (status 400, "des colis y sont
    associés") after the count, and the store - slots and packages - is left
    as it was; when no package refers to the id, the slot is deleted and the
    removed row is returned. *)
Theorem delete_creneau_guarded db id k :
  int4in id = Some k ->
  (0 < count_colis_of db k ->
   delete_creneau db id
   = (error 400 "Impossible de supprimer le créneau: des colis y sont associés",
      db))
  /\ (count_colis_of db k = 0 ->
      forall ce,
        primary_key (creneaux_expedition db) ->
        In ce (creneaux_expedition db) -> col "id" ce = JNum k ->
        exists slots',
          delete_creneau db id
          = (Reply 200 (JObj [("message", JStr "Créneau supprimé");
                              ("deletedCreneau", JObj ce)]),
             mkStore (reservations db) slots' (colis db) (colis_id_seq db))
          /\ ~ In ce slots'
          /\ (forall r, In r slots' <-> In r (creneaux_expedition db) /\ r <> ce)).
Proof.
  intros Hk. unfold delete_creneau.
  rewrite (int4in_valid_id _ _ Hk), Hk. split.
  - intros Hpos. now replace (0 <? count_colis_of db k) with true
      by (symmetry; now apply Z.ltb_lt).
  - intros H0 ce Hpk Hin Hce. rewrite H0. simpl.
    assert (Hid : has_id k ce = true) by now apply has_id_true.
    rewrite (filter_has_id_unique k ce _ Hpk Hin Hid).
    eexists. split; [reflexivity|].
    assert (Hiff : forall r, In r (filter (fun r => negb (has_id k r))
                                          (creneaux_expedition db))
                             <-> In r (creneaux_expedition db) /\ r <> ce).
    { intros r. rewrite filter_In. split.
      - intros [Hr Hn]. split; [assumption|]. intros ->. now rewrite Hid in Hn.
      - intros [Hr Hn]. split; [assumption|].
        destruct (has_id k r) eqn:E; [|reflexivity]. exfalso. apply Hn.
        assert (In r (filter (has_id k) (creneaux_expedition db)))
          by (apply filter_In; tauto).
        rewrite (filter_has_id_unique k ce _ Hpk Hin Hid) in H.
        destruct H as [<-|[]]. reflexivity. }
    split; [|exact Hiff]. intro H. apply Hiff in H. tauto.
Qed.

(** *** Updating rows *)

Lemma prop_in_keys k o v : prop k o = Some v -> In k (keys o).
Proof.
  induction o as [|[k' v'] o IH]; simpl; [discriminate|].
  destruct (String.eqb k k') eqn:E.
  - apply String.eqb_eq in E. auto.
  - intros H. right. now apply IH.
Qed.

Lemma in_fieldsToUpdate allowed u f :
  In f (fieldsToUpdate allowed u) <-> In f (keys u) /\ In f allowed.
Proof.
  unfold fieldsToUpdate. rewrite filter_In, existsb_exists. split.
  - intros [H [x [Hx E]]]. apply String.eqb_eq in E. subst. tauto.
  - intros [H1 H2]. split; [assumption|]. exists f. split; [assumption|].
    apply String.eqb_refl.
Qed.

Lemma bind_sets_int name v fields u :
  bind_int (prop name u) = Some v ->
  bind_sets (fun c => String.eqb c name) (sets_of fields u)
  = Some (written name v fields u).
Proof.
  intros Hb. induction fields as [|f fields IH]; [reflexivity|].
  simpl. rewrite IH. destruct (String.eqb f name) eqn:E; [|reflexivity].
  apply String.eqb_eq in E. subst f. now rewrite Hb.
Qed.

Lemma bind_sets_any fields u :
  bind_sets (fun _ => false) (sets_of fields u)
  = Some (map (fun f => (f, bind_any (prop f u))) fields).
Proof.
  induction fields as [|f fields IH]; [reflexivity|]. simpl. now rewrite IH.
Qed.

Lemma written_fst name v fields u : map fst (written name v fields u) = fields.
Proof. unfold written. rewrite map_map. simpl. apply map_id. Qed.

(** The columns of an updated row: a field to update holds what was
    written, every other column what it held before. *)
Lemma col_written name v fields u r c :
  (In c fields ->
   col c (assign (written name v fields u) r)
   = if String.eqb c name then v else bind_any (prop c u))
  /\ (~ In c fields -> col c (assign (written name v fields u) r) = col c r).
Proof.
  split; intros H.
  - apply col_assign_same; [now rewrite written_fst|].
    intros v' Hv'. unfold written in Hv'. apply in_map_iff in Hv' as [f [E _]].
    now injection E as -> <-.
  - apply col_assign_other. now rewrite written_fst.
Qed.

Lemma replace_id_in k sets t r :
  In r t -> has_id k r = true -> In (assign sets r) (replace_id k sets t).
Proof.
  intros Hin Hid. unfold replace_id. apply in_map_iff. exists r.
  now rewrite Hid.
Qed.

Lemma replace_id_others k sets t r :
  In r t -> has_id k r = false -> In r (replace_id k sets t).
Proof.
  intros Hin Hid. unfold replace_id. apply in_map_iff. exists r.
  now rewrite Hid.
Qed.

(** A column that the SET list does not name is the same in every row
    after the update. *)
Lemma replace_id_keeps k sets t c :
  ~ In c (map fst sets) -> map (col c) (replace_id k sets t) = map (col c) t.
Proof.
  intros H. unfold replace_id. rewrite map_map. apply map_ext. intros r.
  destruct (has_id k r); [now apply col_assign_other|reflexivity].
Qed.

Lemma update_colis_hit db id k c sets bound :
  int4in id = Some k -> primary_key (colis db) ->
  In c (colis db) -> col "id" c = JNum k ->
  bind_sets colis_int_col sets = Some bound ->
  forallb (fun cv => negb (colis_int_col (fst cv)) || fk_creneau db (snd cv)) bound
  = true ->
  update_colis db id sets
  = Some ([assign bound c],
          mkStore (reservations db) (creneaux_expedition db)
                  (replace_id k bound (colis db)) (colis_id_seq db)).
Proof.
  intros Hk Hpk Hin Hc Hb Hfk. unfold update_colis, update_where_id.
  rewrite Hb, Hk. simpl snd.
  rewrite (filter_has_id_unique k c) by (try apply has_id_true; assumption).
  simpl. now rewrite Hfk.
Qed.

Lemma fk_written db v fields u :
  fk_creneau db v = true ->
  forallb (fun cv => negb (colis_int_col (fst cv)) || fk_creneau db (snd cv))
          (written "creneau_id" v fields u) = true.
Proof.
  intros Hfk. apply forallb_forall. intros [f x] Hx.
  unfold written in Hx. apply in_map_iff in Hx as [f' [E _]].
  injection E as -> <-. unfold colis_int_col. simpl.
  destruct (String.eqb f "creneau_id"); [exact Hfk|reflexivity].
Qed.

Lemma length_eqb_0 {A} (l : list A) : l <> [] -> (List.length l =? 0)%nat = false.
Proof. destruct l; [congruence|reflexivity]. Qed.

Lemma keys_of_fields allowed u : fieldsToUpdate allowed u <> [] -> keys u <> [].
Proof. unfold fieldsToUpdate. destruct (keys u); [simpl; congruence|discriminate]. Qed.

(** A partial update of a package that passes the checks, on the id of a
    stored package, is answered with the updated row. *)
Lemma patch_colis_ok sle db id k c u v :
  int4in id = Some k -> primary_key (colis db) ->
  In c (colis db) -> col "id" c = JNum k ->
  fieldsToUpdate colis_allowedFields u <> [] ->
  colis_patch_valid sle u = true ->
  bind_int (prop "creneau_id" u) = Some v -> fk_creneau db v = true ->
  patch_colis sle db id u
  = (Reply 200
       (JObj (assign (written "creneau_id" v
                              (fieldsToUpdate colis_allowedFields u) u) c)),
     mkStore (reservations db) (creneaux_expedition db)
             (replace_id k (written "creneau_id" v
                                    (fieldsToUpdate colis_allowedFields u) u)
                         (colis db))
             (colis_id_seq db)).
Proof.
  intros Hk Hpk Hin Hc Hf Hv Hb Hfk. unfold patch_colis.
  rewrite (int4in_valid_id _ _ Hk).
  rewrite (length_eqb_0 _ (keys_of_fields _ _ Hf)), (length_eqb_0 _ Hf).
  unfold colis_patch_valid in Hv.
  split_checks Hv.
  pass_checks.
  rewrite (update_colis_hit db id k c _
             (written "creneau_id" v (fieldsToUpdate colis_allowedFields u) u));
    try assumption; [reflexivity| |].
  - now apply (bind_sets_int "creneau_id").
  - now apply fk_written.
Qed.

(** A full update of a package that passes the checks, on the id of a
    stored package, is answered with the updated row. *)
Lemma put_colis_ok sle db id k c u v :
  int4in id = Some k -> primary_key (colis db) ->
  In c (colis db) -> col "id" c = JNum k ->
  colis_put_valid sle u = true ->
  bind_int (prop "creneau_id" u) = Some v -> fk_creneau db v = true ->
  put_colis sle db id u
  = (Reply 200 (JObj (assign (put_written v u) c)),
     mkStore (reservations db) (creneaux_expedition db)
             (replace_id k (put_written v u) (colis db)) (colis_id_seq db)).
Proof.
  intros Hk Hpk Hin Hc Hv Hb Hfk. unfold put_colis.
  rewrite (int4in_valid_id _ _ Hk).
  unfold colis_put_valid, colis_fields_valid in Hv.
  split_checks Hv.
  destruct (missing_field colis_required u); [discriminate|].
  pass_checks.
  rewrite (update_colis_hit db id k c _ (put_written v u)); try assumption;
    [reflexivity| |].
  - simpl. now rewrite Hb.
  - simpl. now rewrite Hfk.
Qed.

Lemma put_written_creneau v u r : col "creneau_id" (assign (put_written v u) r) = v.
Proof.
  apply col_assign_same; [simpl; tauto|].
  intros v' H. simpl in H.
  repeat (destruct H as [H|H]; [congruence|]). contradiction.
Qed.

Lemma put_written_statut v u r :
  col "statut" (assign (put_written v u) r)
  = or_default (prop "statut" u) (JStr "en_attente").
Proof.
  apply col_assign_same; [simpl; tauto|].
  intros v' H. simpl in H.
  repeat (destruct H as [H|H]; [congruence|]). contradiction.
Qed.

Lemma written_creneau v fields u r :
  In "creneau_id" fields ->
  col "creneau_id" (assign (written "creneau_id" v fields u) r) = v.
Proof. intros H. now rewrite (proj1 (col_written _ _ _ _ _ _) H). Qed.

Lemma replace_id_absent k sets t :
  (forall r, In r t -> has_id k r = false) -> replace_id k sets t = t.
Proof.
  intros H. unfold replace_id. rewrite <- (map_id t) at 2.
  apply map_ext_in. intros r Hr. now rewrite (H r Hr).
Qed.

Lemma primary_key_head_unique k r t :
  primary_key (r :: t) -> has_id k r = true ->
  forall r', In r' t -> has_id k r' = false.
Proof.
  intros [Hn _] Hr r' Hin. inversion Hn as [|? ? Hni _]; subst.
  destruct (has_id k r') eqn:E; [|reflexivity].
  exfalso. apply Hni. apply has_id_true in Hr, E. rewrite Hr, <- E.
  now apply in_map.
Qed.

(** Moving one row into the rows that satisfy [P] adds one to their
    number. *)
Lemma count_replace_id (P : row -> bool) k sets t c :
  primary_key t -> In c t -> has_id k c = true ->
  P c = false -> P (assign sets c) = true ->
  List.length (filter P (replace_id k sets t)) = S (List.length (filter P t)).
Proof.
  induction t as [|r t IH]; intros Hpk Hin Hid Hc Hc'; [contradiction|].
  destruct Hin as [->|Hin].
  - simpl. rewrite Hid, Hc', Hc. simpl. f_equal.
    fold (replace_id k sets t).
    rewrite replace_id_absent; [reflexivity|].
    now apply (primary_key_head_unique k c).
  - assert (Hr : has_id k r = false).
    { destruct (has_id k r) eqn:E; [|reflexivity].
      rewrite (primary_key_head_unique k r t Hpk E c Hin) in Hid. discriminate. }
    simpl. rewrite Hr. fold (replace_id k sets t).
    pose proof (IH (primary_key_tail _ _ Hpk) Hin Hid Hc Hc') as IH'.
    destruct (P r); simpl; now rewrite IH'.
Qed.

Lemma sql_eq_true a j : sql_eq a (JNum j) = true <-> a = JNum j.
Proof.
  destruct a; simpl; split; intros H; try discriminate.
  - apply Z.eqb_eq in H. now subst.
  - injection H as ->. apply Z.eqb_refl.
Qed.

(** After an update that moves package [c] to slot [j], the slot counts one
    package more. *)
Lemma count_after_move db k j c sets :
  primary_key (colis db) -> In c (colis db) -> col "id" c = JNum k ->
  col "creneau_id" c <> JNum j -> col "creneau_id" (assign sets c) = JNum j ->
  count_colis_of
    (mkStore (reservations db) (creneaux_expedition db)
             (replace_id k sets (colis db)) (colis_id_seq db)) j
  = count_colis_of db j + 1.
Proof.
  intros Hpk Hin Hc Hold Hnew. unfold count_colis_of. cbn [colis].
  rewrite (count_replace_id _ k sets (colis db) c); try assumption.
  - lia.
  - now apply has_id_true.
  - destruct (sql_eq (col "creneau_id" c) (JNum j)) eqn:E; [|reflexivity].
    apply sql_eq_true in E. contradiction.
  - now apply sql_eq_true.
Qed.

(** C4. Neither the full nor the partial update of a package looks at the
    capacity of the slot: an update of a stored package that passes the field
    validation succeeds and stores the new slot reference even when that slot
    already holds as many packages as its [capacite_max], or more; a package
    that comes from elsewhere then takes the slot beyond its capacity. *)
Theorem update_ignores_capacity sle db id k c j ce m u :
  int4in id = Some k -> primary_key (colis db) ->
  In c (colis db) -> col "id" c = JNum k ->
  In ce (creneaux_expedition db) -> col "id" ce = JNum j ->
  col "capacite_max" ce = JNum m -> m <= count_colis_of db j ->
  bind_int (prop "creneau_id" u) = Some (JNum j) ->
  (colis_put_valid sle u = true ->
   exists r db',
     put_colis sle db id u = (Reply 200 (JObj r), db')
     /\ col "id" r = JNum k /\ col "creneau_id" r = JNum j /\ In r (colis db')
     /\ (col "creneau_id" c <> JNum j -> m < count_colis_of db' j))
  /\ (colis_patch_valid sle u = true ->
      exists r db',
        patch_colis sle db id u = (Reply 200 (JObj r), db')
        /\ col "id" r = JNum k /\ col "creneau_id" r = JNum j /\ In r (colis db')
        /\ (col "creneau_id" c <> JNum j -> m < count_colis_of db' j)).
Proof.
  intros Hk Hpk Hin Hc Hce Hj _ Hfull Hb.
  assert (Hfk : fk_creneau db (JNum j) = true)
    by (simpl; now apply (existsb_has_id j ce)).
  assert (Hid : has_id k c = true) by now apply has_id_true.
  split; intros Hv.
  - do 2 eexists. split; [now apply (put_colis_ok sle db id k c u (JNum j))|].
    split; [|split; [|split]].
    + rewrite col_assign_other; [assumption|]. simpl. intuition discriminate.
    + apply put_written_creneau.
    + cbn [colis]. now apply replace_id_in.
    + intros Hold. rewrite (count_after_move db k j c); try assumption; [lia|].
      apply put_written_creneau.
  - assert (Hf : In "creneau_id" (fieldsToUpdate colis_allowedFields u)).
    { apply in_fieldsToUpdate. split; [|simpl; tauto].
      destruct (prop "creneau_id" u) eqn:E; [now apply prop_in_keys in E|].
      discriminate. }
    do 2 eexists.
    split; [apply (patch_colis_ok sle db id k c u (JNum j)); try assumption|].
    + intro E. rewrite E in Hf. contradiction.
    + split; [|split; [|split]].
      * rewrite (proj2 (col_written _ _ _ _ _ _)); [assumption|].
        intro H. apply in_fieldsToUpdate in H as [_ H]. simpl in H.
        intuition discriminate.
      * now apply written_creneau.
      * cbn [colis]. now apply replace_id_in.
      * intros Hold. rewrite (count_after_move db k j c); try assumption; [lia|].
        now apply written_creneau.
Qed.

Lemma in_replace_id k sets t r' :
  In r' (replace_id k sets t) ->
  exists r, In r t /\ r' = if has_id k r then assign sets r else r.
Proof.
  unfold replace_id. intros H. apply in_map_iff in H as [r [<- Hr]]. eauto.
Qed.

(** C10. A full update of a package whose payload has no [statut] stores
    the status ['en_attente'], whatever status the package had: the row
    returned and every stored row of that id are pending afterwards. *)
Theorem put_resets_statut sle db id k c u v :
  int4in id = Some k -> primary_key (colis db) ->
  In c (colis db) -> col "id" c = JNum k ->
  colis_put_valid sle u = true ->
  bind_int (prop "creneau_id" u) = Some v -> fk_creneau db v = true ->
  prop "statut" u = None ->
  exists r db',
    put_colis sle db id u = (Reply 200 (JObj r), db')
    /\ col "id" r = JNum k
    /\ col "statut" r = JStr "en_attente"
    /\ In r (colis db')
    /\ (forall r', In r' (colis db') -> col "id" r' = JNum k ->
                   col "statut" r' = JStr "en_attente").
Proof.
  intros Hk Hpk Hin Hc Hv Hb Hfk Hs.
  assert (Hst : forall r0, col "statut" (assign (put_written v u) r0)
                           = JStr "en_attente")
    by (intros r0; now rewrite put_written_statut, Hs).
  do 2 eexists. split; [now apply (put_colis_ok sle db id k c u v)|].
  split; [|split; [|split]].
  - rewrite col_assign_other; [assumption|]. simpl. intuition discriminate.
  - apply Hst.
  - cbn [colis]. apply replace_id_in; [assumption|now apply has_id_true].
  - cbn [colis]. intros r' Hr' Hid.
    apply in_replace_id in Hr' as [r0 [_ ->]].
    destruct (has_id k r0) eqn:E; [apply Hst|].
    apply has_id_true in Hid. congruence.
Qed.

(** A partial update of a slot that passes the checks, on the id of a
    stored slot, is answered with the updated row. *)
Lemma patch_creneau_ok sle db id k ce u v :
  int4in id = Some k -> primary_key (creneaux_expedition db) ->
  In ce (creneaux_expedition db) -> col "id" ce = JNum k ->
  fieldsToUpdate creneaux_allowedFields u <> [] ->
  creneau_patch_valid sle u = true ->
  bind_int (prop "capacite_max" u) = Some v ->
  patch_creneau sle db id u
  = (Reply 200
       (JObj (assign (written "capacite_max" v
                              (fieldsToUpdate creneaux_allowedFields u) u) ce)),
     mkStore (reservations db)
             (replace_id k (written "capacite_max" v
                                    (fieldsToUpdate creneaux_allowedFields u) u)
                         (creneaux_expedition db))
             (colis db) (colis_id_seq db)).
Proof.
  intros Hk Hpk Hin Hc Hf Hv Hb. unfold patch_creneau.
  rewrite (int4in_valid_id _ _ Hk).
  rewrite (length_eqb_0 _ (keys_of_fields _ _ Hf)), (length_eqb_0 _ Hf).
  unfold creneau_patch_valid in Hv.
  apply andb_true_iff in Hv as [Hv1 Hv2].
  apply negb_true_iff in Hv1, Hv2. rewrite Hv1, Hv2.
  unfold update_creneaux, update_where_id, creneaux_int_col.
  rewrite (bind_sets_int "capacite_max" v) by assumption.
  rewrite Hk. simpl snd.
  rewrite (filter_has_id_unique k ce) by (try apply has_id_true; assumption).
  reflexivity.
Qed.

(** A partial update of a reservation that passes the checks, on the id of
    a stored reservation, is answered with the updated row. *)
Lemma patch_reservation_ok sle db id k r u :
  int4in id = Some k -> primary_key (reservations db) ->
  In r (reservations db) -> col "id" r = JNum k ->
  fieldsToUpdate reservations_allowedFields u <> [] ->
  reservation_patch_valid sle u = true ->
  patch_reservation sle db id u
  = (Reply 200
       (JObj (assign (written "" JNull
                              (fieldsToUpdate reservations_allowedFields u) u) r)),
     mkStore (replace_id k (written "" JNull
                                    (fieldsToUpdate reservations_allowedFields u) u)
                         (reservations db))
             (creneaux_expedition db) (colis db) (colis_id_seq db)).
Proof.
  intros Hk Hpk Hin Hc Hf Hv. unfold patch_reservation.
  rewrite (int4in_valid_id _ _ Hk).
  rewrite (length_eqb_0 _ (keys_of_fields _ _ Hf)), (length_eqb_0 _ Hf).
  unfold reservation_patch_valid in Hv.
  apply andb_true_iff in Hv as [Hv1 Hv2].
  apply negb_true_iff in Hv1, Hv2. rewrite Hv1, Hv2.
  unfold update_reservations, update_where_id.
  rewrite bind_sets_any, Hk. simpl snd.
  rewrite (filter_has_id_unique k r) by (try apply has_id_true; assumption).
  assert (Hw : map (fun f => (f, bind_any (prop f u)))
                   (fieldsToUpdate reservations_allowedFields u)
               = written "" JNull (fieldsToUpdate reservations_allowedFields u) u).
  { unfold written. apply map_ext_in. intros f Hf'.
    destruct (String.eqb f "") eqn:E; [|reflexivity].
    apply String.eqb_eq in E. subst f.
    apply in_fieldsToUpdate in Hf' as [_ Hf']. simpl in Hf'.
    intuition discriminate. }
  rewrite Hw. reflexivity.
Qed.

(** A payload without a recognized field is refused, whatever else the
    request holds. *)
Lemma patch_colis_unrecognized sle db id u :
  fieldsToUpdate colis_allowedFields u = [] ->
  exists msg, patch_colis sle db id u = (error 400 msg, db).
Proof.
  intros Hf. unfold patch_colis. rewrite Hf.
  destruct (invalid_id id); [eexists; reflexivity|].
  destruct (List.length (keys u) =? 0)%nat; eexists; reflexivity.
Qed.

Lemma patch_reservation_unrecognized sle db id u :
  fieldsToUpdate reservations_allowedFields u = [] ->
  exists msg, patch_reservation sle db id u = (error 400 msg, db).
Proof.
  intros Hf. unfold patch_reservation. rewrite Hf.
  destruct (invalid_id id); [eexists; reflexivity|].
  destruct (List.length (keys u) =? 0)%nat; eexists; reflexivity.
Qed.

Lemma no_recognized_field allowed u :
  (forall f, In f (keys u) -> ~ In f allowed) -> fieldsToUpdate allowed u = [].
Proof.
  intros H. destruct (fieldsToUpdate allowed u) as [|f l] eqn:E; [reflexivity|].
  assert (Hf : In f (fieldsToUpdate allowed u)) by (rewrite E; now left).
  apply in_fieldsToUpdate in Hf as [H1 H2]. now apply H in H1.
Qed.

Lemma some_recognized_field allowed u f :
  In f (keys u) -> In f allowed -> fieldsToUpdate allowed u <> [].
Proof.
  intros H1 H2 E.
  assert (Hf : In f (fieldsToUpdate allowed u)) by (apply in_fieldsToUpdate; tauto).
  rewrite E in Hf. contradiction.
Qed.

(** The other rows of a table stay in it across an update by id. *)
Lemma replace_id_other_rows k sets t r0 :
  In r0 t -> col "id" r0 <> JNum k -> In r0 (replace_id k sets t).
Proof.
  intros Hin Hid. apply replace_id_others; [assumption|].
  destruct (has_id k r0) eqn:E; [|reflexivity].
  apply has_id_true in E. contradiction.
Qed.

(** C6. A partial update whose payload is empty, or holds only fields
    outside the list of recognized fields, is answered 400 and the store is
    left as it was (reservations and packages alike); with at least one
    recognized field in the payload, a valid partial update of a stored row
    writes the recognized fields that were supplied and nothing else: every
    other column of the row, and every other row, is as before. *)
Theorem patch_recognized_fields sle db id u :
  ((forall f, In f (keys u) -> ~ In f reservations_allowedFields) ->
   exists msg, patch_reservation sle db id u = (error 400 msg, db))
  /\ ((forall f, In f (keys u) -> ~ In f colis_allowedFields) ->
      exists msg, patch_colis sle db id u = (error 400 msg, db))
  /\ (forall k r f,
         In f (keys u) -> In f reservations_allowedFields ->
         int4in id = Some k -> primary_key (reservations db) ->
         In r (reservations db) -> col "id" r = JNum k ->
         reservation_patch_valid sle u = true ->
         exists r' db',
           patch_reservation sle db id u = (Reply 200 (JObj r'), db')
           /\ In r' (reservations db')
           /\ (forall c, In c (keys u) -> In c reservations_allowedFields ->
                         col c r' = bind_any (prop c u))
           /\ (forall c, ~ (In c (keys u) /\ In c reservations_allowedFields) ->
                         col c r' = col c r)
           /\ (forall r0, In r0 (reservations db) -> col "id" r0 <> JNum k ->
                          In r0 (reservations db')))
  /\ (forall k c f v,
         In f (keys u) -> In f colis_allowedFields ->
         int4in id = Some k -> primary_key (colis db) ->
         In c (colis db) -> col "id" c = JNum k ->
         colis_patch_valid sle u = true ->
         bind_int (prop "creneau_id" u) = Some v -> fk_creneau db v = true ->
         exists c' db',
           patch_colis sle db id u = (Reply 200 (JObj c'), db')
           /\ In c' (colis db')
           /\ (forall x, In x (keys u) -> In x colis_allowedFields ->
                         col x c' = if String.eqb x "creneau_id" then v
                                    else bind_any (prop x u))
           /\ (forall x, ~ (In x (keys u) /\ In x colis_allowedFields) ->
                         col x c' = col x c)
           /\ (forall c0, In c0 (colis db) -> col "id" c0 <> JNum k ->
                          In c0 (colis db'))).
Proof.
  split; [|split; [|split]].
  - intros H. apply patch_reservation_unrecognized. now apply no_recognized_field.
  - intros H. apply patch_colis_unrecognized. now apply no_recognized_field.
  - intros k r f Hf1 Hf2 Hk Hpk Hin Hid Hv.
    do 2 eexists. split.
    + apply (patch_reservation_ok sle db id k r u); try assumption.
      now apply (some_recognized_field _ _ f).
    + cbn [reservations]. split; [|split; [|split]].
      * apply replace_id_in; [assumption|now apply has_id_true].
      * intros c Hc1 Hc2.
        rewrite (proj1 (col_written _ _ _ _ _ _))
          by (apply in_fieldsToUpdate; tauto).
        destruct (String.eqb c "") eqn:E; [|reflexivity].
        apply String.eqb_eq in E. subst c. simpl in Hc2. intuition discriminate.
      * intros c Hc. apply (proj2 (col_written _ _ _ _ _ _)).
        intro H. apply in_fieldsToUpdate in H. tauto.
      * intros r0 H0 Hne. now apply replace_id_other_rows.
  - intros k c f v Hf1 Hf2 Hk Hpk Hin Hid Hv Hb Hfk.
    do 2 eexists. split.
    + apply (patch_colis_ok sle db id k c u v); try assumption.
      now apply (some_recognized_field _ _ f).
    + cbn [colis]. split; [|split; [|split]].
      * apply replace_id_in; [assumption|now apply has_id_true].
      * intros x Hx1 Hx2. apply (proj1 (col_written _ _ _ _ _ _)).
        apply in_fieldsToUpdate; tauto.
      * intros x Hx. apply (proj2 (col_written _ _ _ _ _ _)).
        intro H. apply in_fieldsToUpdate in H. tauto.
      * intros c0 H0 Hne. now apply replace_id_other_rows.
Qed.

(** *** Zero and the positivity checks *)

Lemma guard_zero sle v :
  v = Some (JNum 0) -> le0 sle v = true /\ truthy v && le0 sle v = false.
Proof. intros ->. split; reflexivity. Qed.

(** C9. A partial update that sets a field that must be positive - the
    weight of a package, the capacity, the fee or the maximum package weight
    of a slot, the passenger count of a reservation - to exactly 0 is not
    stopped by the positivity check: 0 is not positive ([0 <= 0]), but the
    check is guarded by the truthiness of the value and 0 is falsy; when the
    other checks pass, the request is answered 200 and the stored row holds
    0 in that field. *)
Theorem zero_skips_positivity sle db id k :
  int4in id = Some k ->
  (forall c u v,
      prop "poids" u = Some (JNum 0) ->
      primary_key (colis db) -> In c (colis db) -> col "id" c = JNum k ->
      present_and_invalid validPackageTypes (prop "type_colis" u) = false ->
      present_and_invalid validPaymentMethods (prop "methode_paiement" u) = false ->
      present_and_invalid validStatus (prop "statut" u) = false ->
      bind_int (prop "creneau_id" u) = Some v -> fk_creneau db v = true ->
      le0 sle (prop "poids" u) = true
      /\ truthy (prop "poids" u) && le0 sle (prop "poids" u) = false
      /\ exists c' db',
           patch_colis sle db id u = (Reply 200 (JObj c'), db')
           /\ In c' (colis db') /\ col "id" c' = JNum k
           /\ col "poids" c' = JNum 0)
  /\ (forall field ce u v,
         In field ["capacite_max"; "frais_par_kg"; "poids_max_colis"] ->
         prop field u = Some (JNum 0) ->
         primary_key (creneaux_expedition db) ->
         In ce (creneaux_expedition db) -> col "id" ce = JNum k ->
         present_and_invalid validTransportTypes (prop "type_transport" u) = false ->
         (forall g, In g ["capacite_max"; "frais_par_kg"; "poids_max_colis"] ->
                    g <> field ->
                    truthy (prop g u) && le0 sle (prop g u) = false) ->
         bind_int (prop "capacite_max" u) = Some v ->
         le0 sle (prop field u) = true
         /\ truthy (prop field u) && le0 sle (prop field u) = false
         /\ exists ce' db',
              patch_creneau sle db id u = (Reply 200 (JObj ce'), db')
              /\ In ce' (creneaux_expedition db') /\ col "id" ce' = JNum k
              /\ col field ce' = JNum 0)
  /\ (forall r u,
         prop "nombre_passagers" u = Some (JNum 0) ->
         primary_key (reservations db) ->
         In r (reservations db) -> col "id" r = JNum k ->
         present_and_invalid validClasses (prop "classe" u) = false ->
         le0 sle (prop "nombre_passagers" u) = true
         /\ truthy (prop "nombre_passagers" u)
            && le0 sle (prop "nombre_passagers" u) = false
         /\ exists r' db',
              patch_reservation sle db id u = (Reply 200 (JObj r'), db')
              /\ In r' (reservations db') /\ col "id" r' = JNum k
              /\ col "nombre_passagers" r' = JNum 0).
Proof.
  intros Hk. split; [|split].
  - intros c u v H0 Hpk Hin Hid Ht Hm Hs Hb Hfk.
    destruct (guard_zero sle _ H0) as [Hle Hg].
    split; [exact Hle|]. split; [exact Hg|].
    assert (Hf : In "poids" (fieldsToUpdate colis_allowedFields u)).
    { apply in_fieldsToUpdate. split; [now apply prop_in_keys in H0|simpl; tauto]. }
    do 2 eexists. split.
    + apply (patch_colis_ok sle db id k c u v); try assumption.
      * intro E. rewrite E in Hf. contradiction.
      * unfold colis_patch_valid. now rewrite Ht, Hm, Hs, Hg.
    + cbn [colis]. split; [|split].
      * apply replace_id_in; [assumption|now apply has_id_true].
      * rewrite (proj2 (col_written _ _ _ _ _ _)); [assumption|].
        intro H. apply in_fieldsToUpdate in H as [_ H]. simpl in H.
        intuition discriminate.
      * rewrite (proj1 (col_written _ _ _ _ _ _) Hf), H0. reflexivity.
  - intros field ce u v Hfield H0 Hpk Hin Hid Ht Hothers Hb.
    destruct (guard_zero sle _ H0) as [Hle Hg].
    split; [exact Hle|]. split; [exact Hg|].
    assert (Hf : In field (fieldsToUpdate creneaux_allowedFields u)).
    { apply in_fieldsToUpdate. split; [now apply prop_in_keys in H0|].
      simpl in Hfield. simpl. intuition. }
    assert (Hguards :
              forall g, In g ["capacite_max"; "frais_par_kg"; "poids_max_colis"] ->
                        truthy (prop g u) && le0 sle (prop g u) = false).
    { intros g Hgin. destruct (string_dec g field) as [->|Hne];
        [exact Hg|now apply Hothers]. }
    do 2 eexists. split.
    + apply (patch_creneau_ok sle db id k ce u v); try assumption.
      * intro E. rewrite E in Hf. contradiction.
      * unfold creneau_patch_valid. rewrite Ht.
        rewrite !Hguards by (simpl; tauto). reflexivity.
    + cbn [creneaux_expedition]. split; [|split].
      * apply replace_id_in; [assumption|now apply has_id_true].
      * rewrite (proj2 (col_written _ _ _ _ _ _)); [assumption|].
        intro H. apply in_fieldsToUpdate in H as [_ H]. simpl in H.
        intuition discriminate.
      * rewrite (proj1 (col_written _ _ _ _ _ _) Hf), H0.
        destruct (String.eqb field "capacite_max") eqn:E; [|reflexivity].
        apply String.eqb_eq in E. subst field. rewrite H0 in Hb.
        simpl in Hb. now injection Hb as <-.
  - intros r u H0 Hpk Hin Hid Hc.
    destruct (guard_zero sle _ H0) as [Hle Hg].
    split; [exact Hle|]. split; [exact Hg|].
    assert (Hf : In "nombre_passagers" (fieldsToUpdate reservations_allowedFields u)).
    { apply in_fieldsToUpdate. split; [now apply prop_in_keys in H0|simpl; tauto]. }
    do 2 eexists. split.
    + apply (patch_reservation_ok sle db id k r u); try assumption.
      * intro E. rewrite E in Hf. contradiction.
      * unfold reservation_patch_valid. now rewrite Hc, Hg.
    + cbn [reservations]. split; [|split].
      * apply replace_id_in; [assumption|now apply has_id_true].
      * rewrite (proj2 (col_written _ _ _ _ _ _)); [assumption|].
        intro H. apply in_fieldsToUpdate in H as [_ H]. simpl in H.
        intuition discriminate.
      * rewrite (proj1 (col_written _ _ _ _ _ _) Hf), H0. reflexivity.
Qed.

(** *** Pagination *)


Lemma page_limit_clamped q p l :
  parseInt (Some (param (page q) (JNum 1))) = Some p ->
  parseInt (Some (param (limit q) (JNum 10))) = Some l ->
  p < 2 ^ 53 ->
  pageNum q = Finite (Z.max 1 p) /\ limitNum q = Finite (Z.min 100 (Z.max 1 l)).
Proof.
  intros Hp Hl Sp. unfold pageNum, limitNum. rewrite Hp, Hl. cbn [Number_of].
  change (2 ^ 53) with 9007199254740992 in Sp. split.
  - destruct (Z.le_gt_cases p 0) as [N|N].
    + destruct (Number_negative p N) as [->|(v & -> & V)]; cbn [Math_max];
        f_equal; lia.
    + rewrite Number_small by (change (2 ^ 53) with 9007199254740992; lia).
      reflexivity.
  - destruct (Z.le_gt_cases l 0) as [N|N];
      [|destruct (Z.lt_ge_cases l (2 ^ 53)) as [S|B]].
    + destruct (Number_negative l N) as [->|(v & -> & V)];
        cbn [Math_max Math_min]; f_equal; lia.
    + rewrite Number_small by lia. reflexivity.
    + change (2 ^ 53) with 9007199254740992 in B.
      destruct (Number_big l B) as [->|(v & -> & V)];
        cbn [Math_max Math_min]; f_equal;
        change (2 ^ 53) with 9007199254740992 in *; lia.
Qed.

(** C7. In a list request whose page and limit [parseInt] reads as the
    integers [p] and [l], with [p] below 2^53, the effective page is the
    maximum of 1 and [p] and the effective limit is [l] clamped into
    [1, 100]; the list of the reservations and that of the packages answer,
    and so does that of the slots when the request has no search, and the
    pagination of the answer reports that page and that limit, with the
    total of matching rows, the number of pages, and whether there is a next
    and a previous page.  A request without [page] or [limit] asks for page
    1 and limit 10, and an offset below 2^53 reaches the store as it is. *)
Theorem pagination_clamped db q p l :
  parseInt (Some (param (page q) (JNum 1))) = Some p ->
  parseInt (Some (param (limit q) (JNum 10))) = Some l ->
  p < 2 ^ 53 ->
  let P := Z.max 1 p in
  let L := Z.min 100 (Z.max 1 l) in
  let answer total rows :=
    Reply 200
      (JObj [("data", JArr rows);
             ("pagination",
              JObj [("page", JNum P);
                    ("limit", JNum L);
                    ("total", JNum total);
                    ("totalPages", JNum (ceil_div total L));
                    ("hasNext", JBool (P <? ceil_div total L));
                    ("hasPrev", JBool (1 <? P))])]) in
  pageNum q = Finite P /\ limitNum q = Finite L
  /\ 1 <= P /\ 1 <= L <= 100
  /\ (page q = None -> P = 1) /\ (limit q = None -> L = 10)
  /\ ((P - 1) * L < 2 ^ 53 -> bind_int8 (offset q) = Some ((P - 1) * L))
  /\ (exists rows,
         get_reservations db q
         = answer (Z.of_nat (List.length (filter (reservations_where q)
                                                 (reservations db)))) rows)
  /\ (exists rows,
         get_colis db q
         = answer (Z.of_nat (List.length (filter (colis_where q) (colis db))))
                  rows)
  /\ (search_pattern q = None ->
      exists rows,
        get_creneaux db q
        = answer (Z.of_nat (List.length (creneaux_expedition db))) rows).
Proof.
  intros Hp Hl Sp P L answer.
  destruct (page_limit_clamped q p l Hp Hl Sp) as [HP HL].
  assert (RL : 1 <= L <= 100) by (subst L; lia).
  assert (BL : bind_int8 (Finite L) = Some L)
    by (apply bind_int8_small; change (2 ^ 53) with 9007199254740992; lia).
  split; [exact HP|]. split; [exact HL|].
  split; [subst P; lia|]. split; [exact RL|].
  split; [|split; [|split]].
  - intros E. rewrite E in Hp. simpl in Hp. vm_compute in Hp.
    injection Hp as <-. reflexivity.
  - intros E. rewrite E in Hl. simpl in Hl. vm_compute in Hl.
    injection Hl as <-. reflexivity.
  - intros S. unfold offset. rewrite HP, HL. fold P L.
    apply offset_safe; [subst P; lia | lia | exact S].
  - destruct (offset_read P L ltac:(subst P; lia) RL) as [k Hk].
    assert (A : forall total (ordered : list row),
               exists rows, list_answer q total ordered = answer total rows).
    { intros total ordered. unfold list_answer, offset. rewrite HP, HL.
      fold P L. rewrite BL, Hk. eexists. reflexivity. }
    split; [|split].
    + unfold get_reservations. cbn [fst].
      destruct (A (Z.of_nat (List.length (filter (reservations_where q)
                                                 (reservations db))))
                  (order_by (col (sortColumn ["id"; "nom"; "prenom"; "email";
                                              "destination"; "date_depart";
                                              "created_at"] q))
                            (sortDesc q)
                            (filter (reservations_where q) (reservations db))))
        as [rows E].
      exists rows. now rewrite E.
    + unfold get_colis. apply A.
    + intros S. unfold get_creneaux, count_creneaux_where. rewrite S. apply A.
Qed.

(** *** Deleting many reservations *)

Lemma in_validIds ids v :
  In v (validIds ids) <-> In v ids /\ parseInt (Some v) <> None.
Proof.
  unfold validIds, isNaN_parseInt. rewrite filter_In.
  destruct (parseInt (Some v)); simpl; intuition congruence.
Qed.

(** When the store refuses one of the kept identifiers, the DELETE fails:
    the error middleware answers 500 and no row is deleted. *)
Lemma delete_many_refused db body ids :
  prop "ids" body = Some (JArr ids) ->
  validIds ids <> [] -> bind_ids (validIds ids) = None ->
  delete_reservations db body = (error 500 "Erreur interne du serveur", db).
Proof.
  intros Hids Hv Hb. unfold delete_reservations. rewrite Hids.
  assert (Hne : ids <> []) by (intros ->; now apply Hv).
  now rewrite (length_eqb_0 _ Hne), (length_eqb_0 _ Hv), Hb.
Qed.

(** C8, as the code has it.  Of the identifiers of a delete-many request,
    those for which [parseInt] is NaN are dropped, and only those.  When none
    is left the request is answered 400 and no row is deleted.  Otherwise one
    DELETE over the kept identifiers is sent: when the store reads each of
    them as an integer, all the rows with these ids are deleted and the answer
    carries their number and the rows. *)
Theorem delete_many_by_parseInt db body ids :
  prop "ids" body = Some (JArr ids) ->
  (forall v, In v (validIds ids) <-> In v ids /\ parseInt (Some v) <> None)
  /\ (validIds ids = [] ->
      exists msg, delete_reservations db body = (error 400 msg, db))
  /\ (forall ks,
         validIds ids <> [] -> bind_ids (validIds ids) = Some ks ->
         let deleted :=
           filter (fun r => existsb (fun k => has_id k r) ks) (reservations db) in
         delete_reservations db body
         = (Reply 200
              (JObj [("message",
                      JStr (dec (Z.of_nat (List.length deleted))
                            ++ " réservation(s) supprimée(s)")%string);
                     ("deletedReservations", JArr (map JObj deleted))]),
            mkStore (filter (fun r => negb (existsb (fun k => has_id k r) ks))
                            (reservations db))
                    (creneaux_expedition db) (colis db) (colis_id_seq db))
         /\ (forall r, In r deleted <->
                       In r (reservations db)
                       /\ exists k, In k ks /\ col "id" r = JNum k)).
Proof.
  intros Hids. split; [apply in_validIds|].
  assert (Hne : validIds ids <> [] -> ids <> []).
  { intros H E. subst ids. now apply H. }
  unfold delete_reservations. rewrite Hids. split.
  - intros E. rewrite E. destruct (List.length ids =? 0)%nat; eexists; reflexivity.
  - intros ks Hv Hb. cbv zeta.
    rewrite (length_eqb_0 _ (Hne Hv)), (length_eqb_0 _ Hv), Hb.
    split; [reflexivity|].
    intros r. rewrite filter_In, existsb_exists.
    split.
    + intros [Hr [k [Hk E]]]. apply has_id_true in E. eauto.
    + intros [Hr [k [Hk E]]]. split; [assumption|]. exists k.
      split; [assumption|now apply has_id_true].
Qed.

(** *** The tracking code *)








Lemma bind_sets_fst ic sets bound :
  bind_sets ic sets = Some bound -> map fst bound = map fst sets.
Proof.
  revert bound. induction sets as [|[c v] sets IH]; intros bound; simpl.
  - now intros [= <-].
  - destruct (if ic c then bind_int v else Some (bind_any v)); [|discriminate].
    destruct (bind_sets ic sets); [|discriminate].
    intros [= <-]. simpl. f_equal. now apply IH.
Qed.








(* ================================================================== *)
(** ** The routes at work on the small store *)

Example parseInt_reads_a_prefix :
  map parseInt_string ["12abc"; "  42"; "-7x"; "0x1A"; "abc"; ""; "3.7"; "0"; "500"]
  = [Some 12; Some 42; Some (-7); Some 26; None; None; Some 3; Some 0; Some 500].
Proof. reflexivity. Qed.

Example parseInt_of_values :
  map (fun v => parseInt (Some v))
      [JNum 7; JNull; JBool true; JArr [JNum 5; JNum 6]; JObj []]
  = [Some 7; None; None; Some 5; None].
Proof. reflexivity. Qed.

Example int4in_is_strict :
  map int4in ["12"; " 12 "; "-3"; "12abc"; "0x1A"; ""; "2147483648"]
  = [Some 12; Some 12; Some (-3); None; None; None; None].
Proof. reflexivity. Qed.

Example numero_suivi_example :
  numero_suivi 1700000000000 [1; 2; 35; 10]%nat = "COL170000000000012ZA"%string.
Proof. reflexivity. Qed.

Example ilike_example :
  ilike (JStr "Dakar") "%AK%" = true /\ ilike (JStr "Dakar") "%a_a%" = true
  /\ ilike (JStr "Dakar") "%paris%" = false /\ ilike JNull "%" = false.
Proof. repeat split. Qed.

Example creneau_groups_demo :
  creneau_groups demo (fun _ => true)
  = [(demo_creneau 1 1, 0); (demo_creneau 2 2, 2)].
Proof. reflexivity. Qed.

(** The list of packages in transit, with the columns of their slot. *)
Example get_colis_demo :
  get_colis demo (mkQuery None None (Some "col") (Some "en_transit") None None)
  = Reply 200
      (JObj [("data",
              JArr [JObj (demo_colis 2 JNull "COL2B" "en_transit"
                          ++ [("lieu_depart", JNull); ("destination", JNull);
                              ("heure_depart", JNull);
                              ("date_expedition", JNull)])]);
             ("pagination",
              JObj [("page", JNum 1); ("limit", JNum 10); ("total", JNum 1);
                    ("totalPages", JNum 1); ("hasNext", JBool false);
                    ("hasPrev", JBool false)])]).
Proof. reflexivity. Qed.

Lemma demo_creneaux_key : primary_key (creneaux_expedition demo).
Proof.
  split.
  - repeat constructor; simpl; intuition discriminate.
  - repeat constructor; eexists; reflexivity.
Defined.

Lemma demo_colis_key : primary_key (colis demo).
Proof.
  split.
  - repeat constructor; simpl; intuition discriminate.
  - repeat constructor; eexists; reflexivity.
Defined.

Lemma demo_reservations_key : primary_key (reservations demo).
Proof.
  split.
  - repeat constructor; simpl; intuition discriminate.
  - repeat constructor; eexists; reflexivity.
Defined.

Lemma demo_colis_ids c : In c (colis demo) -> col "id" c <> JNull.
Proof. simpl. intros [<-|[<-|[<-|[]]]]; discriminate. Defined.

Lemma demo_capacities : integer_column "capacite_max" (creneaux_expedition demo).
Proof.
  unfold integer_column. simpl.
  repeat (apply Forall_cons; [right; eexists; reflexivity|]). apply Forall_nil.
Defined.

(** The slot reference 0 is falsy: the block that looks for the slot is
    skipped, and the request, which refers to a slot that does not exist, is
    not answered 400 (the insert is attempted and the store refuses the
    dangling reference).  A reference that is no numeral makes the capacity
    query itself fail: no 400 either. *)
Lemma create_zero_reference_unchecked :
  (forall ce, In ce (creneaux_expedition demo) -> col "id" ce <> JNum 0)
  /\ check_creneau demo (Some (JNum 0)) = None
  /\ fst (post_colis numeral_le0 demo (demo_body [("creneau_id", JNum 0)])
                     1700000000000 [1; 2; 35; 10]%nat) = Next
  /\ fst (post_colis numeral_le0 demo (demo_body [("creneau_id", JStr "abc")])
                     1700000000000 [1; 2; 35; 10]%nat) = Next.
Proof.
  split; [|repeat split].
  simpl. intros ce [<-|[<-|[]]]; discriminate.
Qed.

(** Creation against a missing slot (7), a full slot (2) and a slot with
    room (1). *)
Lemma create_checks_capacity_witness :
  (exists msg,
      post_colis numeral_le0 demo (demo_body [("creneau_id", JNum 7)]) 1700000000000
                 [1; 2; 35; 10]%nat
      = (error 400 msg, demo))
  /\ (exists msg,
         post_colis numeral_le0 demo (demo_body [("creneau_id", JNum 2)])
                    1700000000000 [1; 2; 35; 10]%nat
         = (error 400 msg, demo))
  /\ (exists r,
         post_colis numeral_le0 demo (demo_body [("creneau_id", JNum 1)])
                    1700000000000 [1; 2; 35; 10]%nat
         = (Reply 201 (JObj r),
            mkStore (reservations demo) (creneaux_expedition demo)
                    (colis demo ++ [r]) 5)
         /\ col "creneau_id" r = JNum 1).
Proof.
  split; [|split].
  - apply (create_checks_capacity numeral_le0 demo
             (demo_body [("creneau_id", JNum 7)]) 1700000000000 [1; 2; 35; 10]%nat 7
             demo_creneaux_key demo_colis_ids demo_capacities eq_refl eq_refl).
    simpl. intros ce [<-|[<-|[]]]; discriminate.
  - apply (create_checks_capacity numeral_le0 demo
             (demo_body [("creneau_id", JNum 2)]) 1700000000000 [1; 2; 35; 10]%nat 2
             demo_creneaux_key demo_colis_ids demo_capacities eq_refl eq_refl)
      with (ce := demo_creneau 2 2) (m := 2).
    + simpl. tauto.
    + reflexivity.
    + reflexivity.
    + vm_compute. discriminate.
  - apply (create_checks_capacity numeral_le0 demo
             (demo_body [("creneau_id", JNum 1)]) 1700000000000 [1; 2; 35; 10]%nat 1
             demo_creneaux_key demo_colis_ids demo_capacities eq_refl eq_refl)
      with (ce := demo_creneau 1 1) (m := 1).
    + simpl. tauto.
    + reflexivity.
    + reflexivity.
    + reflexivity.
    + reflexivity.
Defined.

(** Slot 1 has no package: it is returned with count 0 and one place left,
    by id and in the list; slot 2 holds two packages and has none left. *)
Lemma slot_remaining_capacity_witness :
  (exists r,
      get_creneau demo "1" = Reply 200 (JObj r)
      /\ col "nombre_colis_actuels" r = JStr "0"
      /\ col "places_restantes" r = JStr "1")
  /\ (exists r,
         get_creneau demo "2" = Reply 200 (JObj r)
         /\ col "nombre_colis_actuels" r = JStr "2"
         /\ col "places_restantes" r = JStr "0")
  /\ (exists rows pag r,
         get_creneaux demo (mkQuery None None None None None None)
         = Reply 200 (JObj [("data", JArr rows); ("pagination", pag)])
         /\ In (JObj r) rows
         /\ col "id" r = JNum 1
         /\ col "nombre_colis_actuels" r = JStr "0"
         /\ col "places_restantes" r = JStr "1").
Proof.
  destruct (slot_remaining_capacity demo demo_creneaux_key demo_colis_ids)
    as [Hget [_ Hlist]].
  split; [|split].
  - destruct (Hget "1" 1 (demo_creneau 1 1) eq_refl (or_introl eq_refl) eq_refl)
      as [r [E [N [P _]]]].
    exists r. split; [exact E|]. split; [exact N|]. exact (P 1 eq_refl).
  - destruct (Hget "2" 2 (demo_creneau 2 2) eq_refl
                   (or_intror (or_introl eq_refl)) eq_refl)
      as [r [E [N [P _]]]].
    exists r. split; [exact E|]. split; [exact N|]. exact (P 2 eq_refl).
  - apply (Hlist (mkQuery None None None None None None) (demo_creneau 1 1) 1 1 10).
    + simpl. tauto.
    + reflexivity.
    + reflexivity.
    + reflexivity.
    + reflexivity.
    + reflexivity.
    + reflexivity.
    + vm_compute. discriminate.
Defined.

(** Slot 2 is referred to and cannot be deleted; slot 1 is not and goes. *)
Lemma delete_creneau_guarded_witness :
  delete_creneau demo "2"
  = (error 400 "Impossible de supprimer le créneau: des colis y sont associés",
     demo)
  /\ exists slots',
       delete_creneau demo "1"
       = (Reply 200 (JObj [("message", JStr "Créneau supprimé");
                           ("deletedCreneau", JObj (demo_creneau 1 1))]),
          mkStore (reservations demo) slots' (colis demo) 4)
       /\ ~ In (demo_creneau 1 1) slots'.
Proof.
  split.
  - apply (delete_creneau_guarded demo "2" 2 eq_refl). reflexivity.
  - destruct (proj2 (delete_creneau_guarded demo "1" 1 eq_refl) eq_refl
                    (demo_creneau 1 1) demo_creneaux_key (or_introl eq_refl) eq_refl)
      as [slots' [E [N _]]].
    exists slots'. split; [exact E|exact N].
Defined.

(** Package 2 moves to slot 2, which is full, by a full and by a partial
    update: both succeed and the slot then holds three packages for a
    capacity of two. *)
Lemma update_ignores_capacity_witness :
  (exists r db',
      put_colis numeral_le0 demo "2" (demo_body [("creneau_id", JNum 2)])
      = (Reply 200 (JObj r), db')
      /\ col "creneau_id" r = JNum 2 /\ 2 < count_colis_of db' 2)
  /\ (exists r db',
         patch_colis numeral_le0 demo "2" [("creneau_id", JNum 2)]
         = (Reply 200 (JObj r), db')
         /\ col "creneau_id" r = JNum 2 /\ 2 < count_colis_of db' 2).
Proof.
  assert (Hfull : 2 <= count_colis_of demo 2) by (vm_compute; discriminate).
  assert (Hold : col "creneau_id" (demo_colis 2 JNull "COL2B" "en_transit")
                 <> JNum 2) by discriminate.
  split.
  - destruct (proj1 (update_ignores_capacity numeral_le0 demo "2" 2
                       (demo_colis 2 JNull "COL2B" "en_transit") 2
                       (demo_creneau 2 2) 2 (demo_body [("creneau_id", JNum 2)])
                       eq_refl demo_colis_key
                       (or_intror (or_introl eq_refl)) eq_refl
                       (or_intror (or_introl eq_refl)) eq_refl eq_refl
                       Hfull eq_refl) eq_refl)
      as [r [db' [E [_ [C [_ M]]]]]].
    exists r, db'. split; [exact E|]. split; [exact C|exact (M Hold)].
  - destruct (proj2 (update_ignores_capacity numeral_le0 demo "2" 2
                       (demo_colis 2 JNull "COL2B" "en_transit") 2
                       (demo_creneau 2 2) 2 [("creneau_id", JNum 2)]
                       eq_refl demo_colis_key
                       (or_intror (or_introl eq_refl)) eq_refl
                       (or_intror (or_introl eq_refl)) eq_refl eq_refl
                       Hfull eq_refl) eq_refl)
      as [r [db' [E [_ [C [_ M]]]]]].
    exists r, db'. split; [exact E|]. split; [exact C|exact (M Hold)].
Defined.


(** A payload with only an unknown field is refused; a payload with a
    recognized and an unknown field updates the recognized one alone. *)
Lemma patch_recognized_fields_witness :
  (exists msg,
      patch_reservation numeral_le0 demo "1" [("role", JStr "admin")]
      = (error 400 msg, demo))
  /\ (exists msg,
         patch_colis numeral_le0 demo "1" [("numero_suivi", JStr "COL0")]
         = (error 400 msg, demo))
  /\ (exists r' db',
         patch_reservation numeral_le0 demo "1"
                           [("nombre_passagers", JNum 3); ("role", JStr "admin")]
         = (Reply 200 (JObj r'), db')
         /\ col "nombre_passagers" r' = JNum 3
         /\ col "role" r' = JNull
         /\ col "classe" r' = JStr "Economique"
         /\ In (demo_reservation 2 1) (reservations db')).
Proof.
  split; [|split].
  - apply (patch_recognized_fields numeral_le0 demo "1" [("role", JStr "admin")]).
    simpl. intros f [<-|[]]. intuition discriminate.
  - apply (patch_recognized_fields numeral_le0 demo "1"
             [("numero_suivi", JStr "COL0")]).
    simpl. intros f [<-|[]]. intuition discriminate.
  - destruct (proj1 (proj2 (proj2
                (patch_recognized_fields numeral_le0 demo "1"
                   [("nombre_passagers", JNum 3); ("role", JStr "admin")])))
              1 (demo_reservation 1 2) "nombre_passagers"
              (or_introl eq_refl)
              ltac:(simpl; tauto) eq_refl demo_reservations_key
              (or_introl eq_refl) eq_refl eq_refl)
      as [r' [db' [E [_ [Hset [Hkeep Hother]]]]]].
    exists r', db'. split; [exact E|]. split; [|split; [|split]].
    + apply (Hset "nombre_passagers"); simpl; tauto.
    + rewrite (Hkeep "role"); [reflexivity|]. simpl. intuition discriminate.
    + rewrite (Hkeep "classe"); [reflexivity|]. simpl. intuition discriminate.
    + apply Hother; [simpl; tauto|discriminate].
Defined.

(** A page or a limit that is no numeral makes the list fail, and so does a
    search in the slots; a page of more than 53 bits is rounded: none of
    these lists reports the maximum of 1 and the page asked for. *)
Lemma page_unread_or_rounded :
  get_reservations demo (mkQuery (Some "abc") None None None None None)
  = error 500 "Erreur interne du serveur"
  /\ get_colis demo (mkQuery (Some "abc") None None None None None) = Next
  /\ get_colis demo (mkQuery None (Some "abc") None None None None) = Next
  /\ get_creneaux demo (mkQuery (Some "1") (Some "10") (Some "Dakar") None None None)
     = Next
  /\ parseInt (Some (JStr "9007199254740993")) = Some 9007199254740993
  /\ pageNum (mkQuery (Some "9007199254740993") None None None None None)
     = Finite 9007199254740992.
Proof. repeat split. Qed.

(** [page=0] becomes 1 and [limit=500] becomes 100. *)
Lemma pagination_clamped_witness :
  pageNum (mkQuery (Some "0") (Some "500") None None None None) = Finite 1
  /\ limitNum (mkQuery (Some "0") (Some "500") None None None None) = Finite 100
  /\ exists rows,
       get_reservations demo (mkQuery (Some "0") (Some "500") None None None None)
       = Reply 200
           (JObj [("data", JArr rows);
                  ("pagination",
                   JObj [("page", JNum 1); ("limit", JNum 100); ("total", JNum 3);
                         ("totalPages", JNum 1); ("hasNext", JBool false);
                         ("hasPrev", JBool false)])]).
Proof.
  destruct (pagination_clamped demo
              (mkQuery (Some "0") (Some "500") None None None None) 0 500
              eq_refl eq_refl eq_refl)
    as [HP [HL [_ [_ [_ [_ [_ [Hans _]]]]]]]].
  split; [exact HP|]. split; [exact HL|]. exact Hans.
Defined.

(** Of ["abc"], 2 and ["1"], the first is dropped and the reservations 2 and
    1 are deleted. *)
Lemma delete_many_by_parseInt_witness :
  validIds [JStr "abc"; JNum 2; JStr "1"] = [JNum 2; JStr "1"]
  /\ delete_reservations demo [("ids", JArr [JStr "abc"; JNum 2; JStr "1"])]
     = (Reply 200
          (JObj [("message", JStr "2 réservation(s) supprimée(s)");
                 ("deletedReservations",
                  JArr [JObj (demo_reservation 1 2); JObj (demo_reservation 2 1)])]),
        mkStore [demo_reservation 12 4] (creneaux_expedition demo) (colis demo) 4).
Proof.
  split; [reflexivity|].
  exact (proj1 (proj2 (proj2
           (delete_many_by_parseInt demo
              [("ids", JArr [JStr "abc"; JNum 2; JStr "1"])]
              [JStr "abc"; JNum 2; JStr "1"] eq_refl))
           [2; 1] ltac:(discriminate) eq_refl)).
Defined.

(** The entry ["12abc"] is not an integer, yet it is kept: the request is not
    refused with 400 but fails in the store, and reservation 12 stays. *)
Lemma delete_many_keeps_non_integer :
  int4in "12abc" = None
  /\ validIds [JStr "12abc"] = [JStr "12abc"]
  /\ delete_reservations demo [("ids", JArr [JStr "12abc"])]
     = (error 500 "Erreur interne du serveur", demo).
Proof. repeat split. Qed.

(** The weight of package 1, the capacity of slot 1 and the passenger count
    of reservation 1 are set to 0. *)
Lemma zero_skips_positivity_witness :
  (exists c' db',
      patch_colis numeral_le0 demo "1" [("poids", JNum 0)]
      = (Reply 200 (JObj c'), db')
      /\ In c' (colis db') /\ col "poids" c' = JNum 0)
  /\ (exists ce' db',
         patch_creneau numeral_le0 demo "1" [("capacite_max", JNum 0)]
         = (Reply 200 (JObj ce'), db')
         /\ In ce' (creneaux_expedition db') /\ col "capacite_max" ce' = JNum 0)
  /\ (exists r' db',
         patch_reservation numeral_le0 demo "1" [("nombre_passagers", JNum 0)]
         = (Reply 200 (JObj r'), db')
         /\ In r' (reservations db') /\ col "nombre_passagers" r' = JNum 0).
Proof.
  destruct (zero_skips_positivity numeral_le0 demo "1" 1 eq_refl)
    as [Hcolis [Hcreneau Hres]].
  split; [|split].
  - destruct (Hcolis (demo_colis 1 (JNum 2) "COL1A" "livre") [("poids", JNum 0)]
                     JNull eq_refl demo_colis_key (or_introl eq_refl)
                     eq_refl eq_refl eq_refl eq_refl eq_refl eq_refl)
      as [_ [_ [c' [db' [E [I [_ Z0]]]]]]].
    exists c', db'. auto.
  - destruct (Hcreneau "capacite_max" (demo_creneau 1 1) [("capacite_max", JNum 0)]
                       (JNum 0) (or_introl eq_refl) eq_refl demo_creneaux_key
                       (or_introl eq_refl) eq_refl eq_refl)
      as [_ [_ [ce' [db' [E [I [_ Z0]]]]]]].
    + simpl. intros g [<-|[<-|[<-|[]]]] Hne; reflexivity.
    + reflexivity.
    + exists ce', db'. auto.
  - destruct (Hres (demo_reservation 1 2) [("nombre_passagers", JNum 0)]
                   eq_refl demo_reservations_key (or_introl eq_refl)
                   eq_refl eq_refl)
      as [_ [_ [r' [db' [E [I [_ Z0]]]]]]].
    exists r', db'. auto.
Defined.

(** Package 1 is delivered; a full update that does not mention the status
    leaves it pending. *)
Lemma put_resets_statut_witness :
  col "statut" (demo_colis 1 (JNum 2) "COL1A" "livre") = JStr "livre"
  /\ exists r db',
       put_colis numeral_le0 demo "1" (demo_body [("creneau_id", JNum 2)])
       = (Reply 200 (JObj r), db')
       /\ col "id" r = JNum 1
       /\ col "statut" r = JStr "en_attente"
       /\ In r (colis db').
Proof.
  split; [reflexivity|].
  destruct (put_resets_statut numeral_le0 demo "1" 1
              (demo_colis 1 (JNum 2) "COL1A" "livre")
              (demo_body [("creneau_id", JNum 2)]) (JNum 2)
              eq_refl demo_colis_key (or_introl eq_refl) eq_refl
              eq_refl eq_refl eq_refl eq_refl)
    as [r [db' [E [I [S [M _]]]]]].
  exists r, db'. auto.
Defined.

(* ================================================================== *)
(** ** Further properties of the routes *)

(** *** Creating a package, again *)

(** What a successful creation did. *)
Lemma post_colis_inv sle db body now frac r db' :
  post_colis sle db body now frac = (Reply 201 (JObj r), db') ->
  exists v,
    bind_int (prop "creneau_id" body) = Some v
    /\ fk_creneau db v = true
    /\ check_creneau db (prop "creneau_id" body) = None
    /\ colis_fields_valid sle body = true
    /\ r = colis_row (colis_id_seq db) v body now frac
    /\ db' = mkStore (reservations db) (creneaux_expedition db)
                     (colis db ++ [r]) (colis_id_seq db + 1).
Proof.
  unfold post_colis, colis_fields_valid.
  destruct (missing_field colis_required body); [discriminate|].
  destruct (present_and_invalid validPackageTypes _); [discriminate|].
  destruct (present_and_invalid validPaymentMethods _); [discriminate|].
  destruct (le0 sle _); [discriminate|].
  destruct (check_creneau db (prop "creneau_id" body)) as [resp|] eqn:Hc.
  - intros [= -> <-]. unfold check_creneau in Hc.
    destruct (truthy _); [|discriminate].
    destruct (bind_int _) as [[| | k | | |]|]; try discriminate.
    destruct (creneau_groups db (has_id k)) as [|[ce n] ?]; [discriminate|].
    destruct (usage_ge n _); discriminate.
  - destruct (bind_int (prop "creneau_id" body)) as [v|]; [|discriminate].
    unfold insert_colis. destruct (fk_creneau db v) eqn:Hfk; [|discriminate].
    cbn [fst snd]. intros [= <- <-]. exists v.
    repeat split; try assumption; reflexivity.
Qed.

(** A reference that the store reads as a non-zero integer is truthy: the
    capacity block runs for it. *)
Lemma bind_int_truthy v k :
  bind_int v = Some (JNum k) -> k <> 0 -> truthy v = true.
Proof.
  destruct v as [[| b | n | s | l | o]|]; simpl; try discriminate.
  - destruct (in_int4 n); [|discriminate]. intros [= ->] Hk.
    apply negb_true_iff. now apply Z.eqb_neq.
  - destruct s; [discriminate|reflexivity].
Qed.

Lemma count_colis_of_app db r k :
  count_colis_of (mkStore (reservations db) (creneaux_expedition db)
                          (colis db ++ [r]) (colis_id_seq db + 1)) k
  = count_colis_of db k + (if sql_eq (col "creneau_id" r) (JNum k) then 1 else 0).
Proof.
  unfold count_colis_of. cbn [colis]. rewrite filter_app, length_app. simpl.
  destruct (sql_eq (col "creneau_id" r) (JNum k)); simpl; lia.
Qed.

(** X1. Creation keeps every slot within its capacity, for a request that
    is served alone: if no slot with a non-zero id holds more packages than
    its [capacite_max] before a create request, and no other request runs
    between the statements of this one, none does after it, whatever the
    request and its answer.  (The route counts and inserts in two statements
    without a transaction, and [post_colis] runs them on one store, one
    after the other; of two requests served together nothing is said.  The
    reference 0 is falsy and bypasses the check, so slot 0 is left out.) *)
Theorem create_keeps_capacity sle db body now frac resp db' :
  primary_key (creneaux_expedition db) ->
  (forall c, In c (colis db) -> col "id" c <> JNull) ->
  within_capacity db ->
  post_colis sle db body now frac = (resp, db') ->
  within_capacity db'.
Proof.
  intros Hpk Hid Hcap Hpost.
  assert (Hsame : (colis db' = colis db /\ creneaux_expedition db' = creneaux_expedition db)
                  \/ exists r, resp = Reply 201 (JObj r)).
  { unfold post_colis in Hpost.
    destruct (missing_field colis_required body); [left; now injection Hpost as _ <-|].
    destruct (present_and_invalid validPackageTypes _);
      [left; now injection Hpost as _ <-|].
    destruct (present_and_invalid validPaymentMethods _);
      [left; now injection Hpost as _ <-|].
    destruct (le0 sle _); [left; now injection Hpost as _ <-|].
    destruct (check_creneau db _); [left; now injection Hpost as _ <-|].
    destruct (bind_int _) as [v|]; [|left; now injection Hpost as _ <-].
    unfold insert_colis in Hpost. destruct (fk_creneau db v); cbn [fst snd] in Hpost.
    - right. injection Hpost as <- _. eauto.
    - left. now injection Hpost as _ <-. }
  destruct Hsame as [[Hc Hs]|[r ->]].
  - intros ce k m Hin Hk Hk0 Hm. unfold count_colis_of. rewrite Hc.
    rewrite Hs in Hin. now apply (Hcap ce k m).
  - destruct (post_colis_inv _ _ _ _ _ _ _ Hpost)
      as [v [Hb [_ [Hchk [_ [Hr ->]]]]]].
    intros ce k m Hin Hk Hk0 Hm. cbn [creneaux_expedition] in Hin.
    rewrite count_colis_of_app.
    pose proof (Hcap ce k m Hin Hk Hk0 Hm) as Hle.
    destruct (sql_eq (col "creneau_id" r) (JNum k)) eqn:E; [|lia].
    apply sql_eq_true in E. rewrite Hr in E. cbn in E. subst v.
    rewrite (check_creneau_spec db _ k Hpk Hid (bind_int_truthy _ _ Hb Hk0) Hb) in Hchk.
    rewrite (filter_has_id_unique k ce) in Hchk
      by (try apply has_id_true; assumption).
    rewrite Hm in Hchk. simpl in Hchk.
    destruct (m <=? count_colis_of db k) eqn:E; [discriminate|].
    apply Z.leb_gt in E. lia.
Qed.

(** X2. The reference 0 goes round the capacity check: when a slot has id
    0, a valid create request with [creneau_id] 0 is inserted whatever the
    number of packages of that slot. *)
Theorem create_zero_bypasses sle db body now frac ce :
  prop "creneau_id" body = Some (JNum 0) ->
  colis_fields_valid sle body = true ->
  In ce (creneaux_expedition db) -> col "id" ce = JNum 0 ->
  exists r,
    post_colis sle db body now frac
    = (Reply 201 (JObj r),
       mkStore (reservations db) (creneaux_expedition db)
               (colis db ++ [r]) (colis_id_seq db + 1))
    /\ col "creneau_id" r = JNum 0
    /\ count_colis_of (mkStore (reservations db) (creneaux_expedition db)
                               (colis db ++ [r]) (colis_id_seq db + 1)) 0
       = count_colis_of db 0 + 1.
Proof.
  intros Hc Hv Hin Hid. unfold colis_fields_valid in Hv. split_checks Hv.
  destruct (missing_field colis_required body) eqn:Hmiss; [discriminate|].
  unfold post_colis. rewrite Hmiss. pass_checks.
  rewrite Hc. unfold check_creneau, insert_colis. simpl truthy. cbv iota.
  simpl bind_int. cbv iota. simpl fk_creneau.
  rewrite (existsb_has_id 0 ce) by assumption. cbn [fst snd].
  eexists. split; [reflexivity|]. split; [reflexivity|].
  now rewrite count_colis_of_app.
Qed.

Lemma ids_below_weaken seq seq' t : seq <= seq' -> ids_below seq t -> ids_below seq' t.
Proof.
  intros Hle H. unfold ids_below in *. rewrite Forall_forall in *.
  intros r Hr. destruct (H r Hr) as [k [Hk Hlt]]. exists k. split; [assumption|lia].
Qed.

Lemma primary_key_snoc t r k :
  primary_key t -> ids_below k t -> col "id" r = JNum k -> primary_key (t ++ [r]).
Proof.
  intros [Hn Hf] Hb Hr. split.
  - rewrite map_app. simpl. apply NoDup_app; [exact Hn|repeat constructor; simpl; tauto|].
    intros x Hx [<-|[]]. rewrite Hr in Hx. apply in_map_iff in Hx as [r' [E Hin]].
    unfold ids_below in Hb. rewrite Forall_forall in Hb.
    destruct (Hb r' Hin) as [k' [Hk' Hlt]]. rewrite Hk' in E.
    injection E as ->. lia.
  - apply Forall_app. split; [assumption|]. constructor; [eauto|constructor].
Qed.

(** X3. Creation keeps the primary key of the packages: when the ids of
    the stored packages are distinct integers below the sequence, they still
    are after any create request, and the sequence never goes back. *)
Theorem create_keeps_keys sle db body now frac resp db' :
  primary_key (colis db) -> ids_below (colis_id_seq db) (colis db) ->
  post_colis sle db body now frac = (resp, db') ->
  primary_key (colis db') /\ ids_below (colis_id_seq db') (colis db')
  /\ colis_id_seq db <= colis_id_seq db'.
Proof.
  intros Hpk Hb Hpost.
  assert (Hcases : (colis db' = colis db
                    /\ (colis_id_seq db' = colis_id_seq db
                        \/ colis_id_seq db' = colis_id_seq db + 1))
                   \/ exists r, resp = Reply 201 (JObj r)).
  { unfold post_colis in Hpost.
    destruct (missing_field colis_required body);
      [left; injection Hpost as _ <-; auto|].
    destruct (present_and_invalid validPackageTypes _);
      [left; injection Hpost as _ <-; auto|].
    destruct (present_and_invalid validPaymentMethods _);
      [left; injection Hpost as _ <-; auto|].
    destruct (le0 sle _); [left; injection Hpost as _ <-; auto|].
    destruct (check_creneau db _); [left; injection Hpost as _ <-; auto|].
    destruct (bind_int _) as [v|]; [|left; injection Hpost as _ <-; auto].
    unfold insert_colis in Hpost. destruct (fk_creneau db v); cbn [fst snd] in Hpost.
    - right. injection Hpost as <- _. eauto.
    - left. injection Hpost as _ <-. auto. }
  destruct Hcases as [[Hc Hs]|[r ->]].
  - rewrite Hc. split; [assumption|]. split; [|lia].
    apply (ids_below_weaken (colis_id_seq db)); [lia|assumption].
  - destruct (post_colis_inv _ _ _ _ _ _ _ Hpost) as [v [_ [_ [_ [_ [Hr ->]]]]]].
    cbn [colis colis_id_seq].
    assert (Hid : col "id" r = JNum (colis_id_seq db)) by (now rewrite Hr).
    split; [now apply (primary_key_snoc _ _ (colis_id_seq db))|]. split; [|lia].
    unfold ids_below. apply Forall_app. split.
    + apply (ids_below_weaken (colis_id_seq db)); [lia|assumption].
    + constructor; [|constructor]. exists (colis_id_seq db). split; [assumption|lia].
Qed.

Lemma truthy_bind_any v : truthy (Some (bind_any v)) = truthy v.
Proof. destruct v; reflexivity. Qed.

Lemma or_default_includes valid v d :
  present_and_invalid valid v = false -> existsb (String.eqb d) valid = true ->
  includes valid (Some (or_default v (JStr d))) = true.
Proof.
  unfold present_and_invalid, or_default. intros H Hd.
  destruct v as [x|]; [|exact Hd].
  destruct (truthy (Some x)); [|exact Hd].
  simpl in H. now apply negb_false_iff in H.
Qed.

Lemma required_truthy required body f :
  missing_field required body = None -> In f required ->
  truthy (prop f body) = true.
Proof.
  intros H Hf. apply (find_none _ _ H) in Hf. now apply negb_false_iff in Hf.
Qed.

(** X4. A package that was created holds valid fields: its type and its
    payment method are of their enumerations (the defaults ['document'] and
    ['especes'] included), its seven mandatory fields are the truthy values
    of the payload, and its weight is not [<= 0] - a number is strictly
    positive. *)
Theorem created_colis_valid sle db body now frac r db' :
  post_colis sle db body now frac = (Reply 201 (JObj r), db') ->
  includes validPackageTypes (Some (col "type_colis" r)) = true
  /\ includes validPaymentMethods (Some (col "methode_paiement" r)) = true
  /\ (forall f, In f colis_required ->
                prop f body = Some (col f r) /\ truthy (Some (col f r)) = true)
  /\ le0 sle (Some (col "poids" r)) = false
  /\ (forall n, col "poids" r = JNum n -> 0 < n).
Proof.
  intros Hpost.
  destruct (post_colis_inv _ _ _ _ _ _ _ Hpost) as [v [_ [_ [_ [Hv [-> _]]]]]].
  unfold colis_fields_valid in Hv. split_checks Hv.
  destruct (missing_field colis_required body) eqn:Hmiss; [discriminate|].
  repeat match goal with
         | H : negb ?b = true |- _ => apply negb_true_iff in H
         end.
  assert (Hreq : forall f, In f colis_required ->
                           prop f body = Some (col f (colis_row (colis_id_seq db) v body now frac))
                           /\ truthy (Some (col f (colis_row (colis_id_seq db) v body now frac))) = true).
  { intros f Hf. pose proof (required_truthy _ _ _ Hmiss Hf) as Ht.
    assert (E : col f (colis_row (colis_id_seq db) v body now frac)
                = bind_any (prop f body)).
    { simpl in Hf. repeat (destruct Hf as [<-|Hf]; [reflexivity|]). contradiction. }
    rewrite E. destruct (prop f body); [auto|discriminate]. }
  assert (Hp : le0 sle (Some (col "poids" (colis_row (colis_id_seq db) v body now frac)))
               = false).
  { destruct (Hreq "poids") as [E _]; [simpl; tauto|]. now rewrite <- E. }
  repeat split.
  - now apply (or_default_includes validPackageTypes _ "document").
  - now apply (or_default_includes validPaymentMethods _ "especes").
  - now apply Hreq.
  - now apply Hreq.
  - exact Hp.
  - intros n Hn. rewrite Hn in Hp. simpl in Hp. now apply Z.leb_gt in Hp.
Qed.

(** *** Reading and deleting one package *)

Lemma filter_flat_map_fst {A B} (f : A -> list (A * B)) cond l :
  (forall a j, In j (f a) -> fst j = a) ->
  filter (fun j => cond (fst j)) (flat_map f l) = flat_map f (filter cond l).
Proof.
  intros Hf. induction l as [|a l IH]; simpl; [reflexivity|].
  rewrite filter_app, IH. destruct (cond a) eqn:E; simpl.
  - f_equal. apply filter_all. intros j Hj. now rewrite (Hf _ _ Hj).
  - rewrite filter_none; [reflexivity|]. intros j Hj. now rewrite (Hf _ _ Hj).
Qed.

Lemma slot_rows_fst slots c j : In j (slot_rows slots c) -> fst j = c.
Proof.
  unfold slot_rows. destruct (filter _ slots) as [|m ms].
  - intros [<-|[]]. reflexivity.
  - intros H. apply in_map_iff in H as [b [<- _]]. reflexivity.
Qed.

Lemma colis_joined_rows db cond :
  colis_joined db cond
  = map with_creneau
        (flat_map (slot_rows (creneaux_expedition db)) (filter cond (colis db))).
Proof.
  unfold colis_joined. f_equal.
  apply (filter_flat_map_fst (slot_rows (creneaux_expedition db))).
  intros a j. apply slot_rows_fst.
Qed.

(** What the join adds to a package: nothing but the four slot columns. *)
Lemma with_creneau_other j x :
  ~ In x slot_columns -> col x (with_creneau j) = col x (fst j).
Proof.
  intros H. unfold with_creneau. simpl fold_left.
  rewrite !col_set_col_neq; [reflexivity| | | |];
    intros E; subst x; apply H; simpl; tauto.
Qed.

Lemma with_creneau_slot c o x :
  In x slot_columns ->
  col x (with_creneau (c, o))
  = match o with Some ce => col x ce | None => JNull end.
Proof.
  intros H. unfold with_creneau. simpl fold_left. simpl snd.
  assert (Hnil : col x [] = JNull) by reflexivity.
  simpl in H. destruct H as [<-|[<-|[<-|[<-|[]]]]];
    rewrite ?col_set_col_neq by discriminate; rewrite col_set_col_eq;
    destruct o; auto.
Qed.

(** The first row that the join makes of a package: the package with its
    slot, if it has one. *)
Lemma slot_rows_head slots c :
  exists o rest,
    slot_rows slots c = (c, o) :: rest
    /\ (col "creneau_id" c = JNull -> o = None)
    /\ (forall j ce, primary_key slots -> col "creneau_id" c = JNum j ->
                     In ce slots -> col "id" ce = JNum j -> o = Some ce).
Proof.
  unfold slot_rows.
  destruct (filter (fun ce => on_creneau ce c) slots) as [|m ms] eqn:E.
  - exists None, []. split; [reflexivity|]. split; [reflexivity|].
    intros j ce _ Hj Hin Hid. exfalso.
    assert (In ce (filter (fun ce => on_creneau ce c) slots)).
    { apply filter_In. split; [assumption|]. unfold on_creneau.
      rewrite Hid, Hj. apply Z.eqb_refl. }
    rewrite E in H. contradiction.
  - exists (Some m), (map (fun ce => (c, Some ce)) ms). split; [reflexivity|]. split.
    + intros Hn. exfalso.
      assert (Hm : In m (filter (fun ce => on_creneau ce c) slots))
        by (rewrite E; now left).
      apply filter_In in Hm as [_ Hm]. unfold on_creneau in Hm. rewrite Hn in Hm.
      destruct (col "id" m); discriminate.
    + intros j ce Hpk Hj Hin Hid.
      assert (Hext : filter (fun ce => on_creneau ce c) slots = filter (has_id j) slots).
      { apply filter_ext. intros a. unfold on_creneau, has_id. now rewrite Hj. }
      rewrite Hext, (filter_has_id_unique j ce) in E
        by (try apply has_id_true; assumption).
      now injection E as <- _.
Qed.

(** X5. Reading a package by id answers with that package - its own
    columns unchanged - together with the four columns of its slot, or NULL in
    them when it has no slot; an id that no package bears is answered 404. *)
Theorem get_colis_by_id db id k :
  int4in id = Some k -> primary_key (colis db) ->
  (forall c,
      In c (colis db) -> col "id" c = JNum k ->
      exists r,
        get_colis_id db id = Reply 200 (JObj r)
        /\ (forall x, ~ In x slot_columns -> col x r = col x c)
        /\ (col "creneau_id" c = JNull ->
            forall x, In x slot_columns -> col x r = JNull)
        /\ (forall j ce,
               primary_key (creneaux_expedition db) ->
               col "creneau_id" c = JNum j ->
               In ce (creneaux_expedition db) -> col "id" ce = JNum j ->
               forall x, In x slot_columns -> col x r = col x ce))
  /\ ((forall c, In c (colis db) -> col "id" c <> JNum k) ->
      get_colis_id db id = error 404 "Colis non trouvé").
Proof.
  intros Hk Hpk. unfold get_colis_id.
  rewrite (int4in_valid_id _ _ Hk), Hk, colis_joined_rows. split.
  - intros c Hin Hid.
    rewrite (filter_has_id_unique k c) by (try apply has_id_true; assumption).
    simpl flat_map. rewrite app_nil_r.
    destruct (slot_rows_head (creneaux_expedition db) c) as [o [rest [-> [Hnone Hsome]]]].
    exists (with_creneau (c, o)). split; [reflexivity|]. split; [|split].
    + intros x Hx. now apply with_creneau_other.
    + intros Hn x Hx. now rewrite with_creneau_slot, (Hnone Hn).
    + intros j ce Hpk' Hj Hce Hcid x Hx.
      now rewrite with_creneau_slot, (Hsome j ce Hpk' Hj Hce Hcid).
  - intros Hno. rewrite filter_has_id_absent; [reflexivity|].
    intros r Hr. destruct (has_id k r) eqn:E; [|reflexivity].
    apply has_id_true in E. now apply Hno in E.
Qed.

Lemma text_eq_refl s : text_eq (JStr s) s = true.
Proof. unfold text_eq. simpl. apply String.eqb_refl. Qed.

(** X6. Looking up the tracking code of a package that was just created
    answers with that package, provided no package already stored bears the
    same code (the creation itself does not check it). *)
Theorem suivi_round_trip sle db body now frac r db' :
  post_colis sle db body now frac = (Reply 201 (JObj r), db') ->
  (forall c, In c (colis db) ->
             text_eq (col "numero_suivi" c) (numero_suivi now frac) = false) ->
  exists r',
    get_colis_suivi db' (numero_suivi now frac) = Reply 200 (JObj r')
    /\ forall x, ~ In x slot_columns -> col x r' = col x r.
Proof.
  intros Hpost Hfresh.
  destruct (post_colis_inv _ _ _ _ _ _ _ Hpost) as [v [_ [_ [_ [_ [Hr ->]]]]]].
  unfold get_colis_suivi.
  replace (String.eqb (numero_suivi now frac) "") with false by reflexivity.
  rewrite colis_joined_rows. cbn [colis creneaux_expedition].
  rewrite filter_app, (filter_none _ (colis db)) by exact Hfresh.
  assert (Hcode : text_eq (col "numero_suivi" r) (numero_suivi now frac) = true).
  { rewrite Hr. apply text_eq_refl. }
  simpl filter. rewrite Hcode. simpl flat_map. rewrite app_nil_r.
  destruct (slot_rows_head (creneaux_expedition db) r) as [o [rest [-> _]]].
  exists (with_creneau (r, o)). split; [reflexivity|].
  intros x Hx. now apply with_creneau_other.
Qed.

Lemma primary_key_other_ids k c t r :
  primary_key t -> In c t -> col "id" c = JNum k -> In r t -> r <> c ->
  has_id k r = false.
Proof.
  intros Hpk Hc Hk Hr Hne. destruct (has_id k r) eqn:E; [|reflexivity].
  exfalso. apply Hne.
  assert (H : In r (filter (has_id k) t)) by (apply filter_In; tauto).
  rewrite (filter_has_id_unique k c) in H by (try apply has_id_true; assumption).
  destruct H as [<-|[]]. reflexivity.
Qed.

(** Removing the one row of id [k] removes it from the rows that satisfy
    [P], if it was one of them. *)
Lemma count_remove_id (P : row -> bool) k t c :
  primary_key t -> In c t -> has_id k c = true ->
  Z.of_nat (List.length (filter P (filter (fun r => negb (has_id k r)) t)))
  = Z.of_nat (List.length (filter P t)) - (if P c then 1 else 0).
Proof.
  induction t as [|r t IH]; intros Hpk Hin Hid; [contradiction|].
  destruct Hin as [->|Hin].
  - cbn [filter]. rewrite Hid. cbn [negb].
    rewrite (filter_all (fun r => negb (has_id k r)) t).
    + destruct (P c); cbn [List.length]; lia.
    + intros r Hr. now rewrite (primary_key_head_unique k c t Hpk Hid r Hr).
  - assert (Hr : has_id k r = false).
    { destruct (has_id k r) eqn:E; [|reflexivity].
      rewrite (primary_key_head_unique k r t Hpk E c Hin) in Hid. discriminate. }
    cbn [filter]. rewrite Hr. cbn [negb filter].
    pose proof (IH (primary_key_tail _ _ Hpk) Hin Hid) as IH'.
    destruct (P r); cbn [List.length]; lia.
Qed.

(** What deleting a stored package does. *)
Lemma delete_colis_found db id k c :
  int4in id = Some k -> primary_key (colis db) ->
  In c (colis db) -> col "id" c = JNum k ->
  exists db',
    delete_colis db id
    = (Reply 200 (JObj [("message", JStr "Colis supprimé");
                        ("deletedColis", JObj c)]), db')
    /\ (forall r, In r (colis db') <-> In r (colis db) /\ r <> c)
    /\ creneaux_expedition db' = creneaux_expedition db
    /\ reservations db' = reservations db
    /\ (forall j, count_colis_of db' j
                  = count_colis_of db j
                    - (if sql_eq (col "creneau_id" c) (JNum j) then 1 else 0))
    /\ get_colis_id db' id = error 404 "Colis non trouvé"
    /\ delete_colis db' id = (error 404 "Colis non trouvé", db').
Proof.
  intros Hk Hpk Hin Hid.
  assert (Hc : has_id k c = true) by now apply has_id_true.
  set (rest := filter (fun r => negb (has_id k r)) (colis db)).
  assert (Hrest : forall r, In r rest <-> In r (colis db) /\ r <> c).
  { intros r. unfold rest. rewrite filter_In. split.
    - intros [Hr Hn]. split; [assumption|]. intros ->. now rewrite Hc in Hn.
    - intros [Hr Hn]. split; [assumption|].
      now rewrite (primary_key_other_ids k c (colis db) r). }
  assert (Hgone : forall r, In r rest -> has_id k r = false).
  { intros r Hr. apply Hrest in Hr as [Hr Hn].
    now apply (primary_key_other_ids k c (colis db) r). }
  exists (mkStore (reservations db) (creneaux_expedition db) rest (colis_id_seq db)).
  split; [|split; [|split; [|split; [|split; [|split]]]]];
    try reflexivity; try exact Hrest.
  - unfold delete_colis. rewrite (int4in_valid_id _ _ Hk), Hk.
    unfold delete_where. cbn [fst snd].
    now rewrite (filter_has_id_unique k c) by assumption.
  - intros j. unfold count_colis_of. cbn [colis]. unfold rest.
    now rewrite (count_remove_id _ k (colis db) c).
  - unfold get_colis_id. rewrite (int4in_valid_id _ _ Hk), Hk, colis_joined_rows.
    cbn [colis]. now rewrite (filter_none _ rest Hgone).
  - unfold delete_colis. rewrite (int4in_valid_id _ _ Hk), Hk.
    unfold delete_where. cbn [fst snd colis]. now rewrite (filter_none _ rest Hgone).
Qed.

(** X7. Deleting a package by id removes that package and nothing else and
    returns it, whatever its slot and its status; the slot it was in counts
    one package less (capacity is derived, not stored); reading or deleting
    the same id again is answered 404.  An id that no package bears is
    answered 404 and the store is left as it was. *)
Theorem delete_colis_by_id db id k :
  int4in id = Some k -> primary_key (colis db) ->
  (forall c,
      In c (colis db) -> col "id" c = JNum k ->
      exists db',
        delete_colis db id
        = (Reply 200 (JObj [("message", JStr "Colis supprimé");
                            ("deletedColis", JObj c)]), db')
        /\ (forall r, In r (colis db') <-> In r (colis db) /\ r <> c)
        /\ creneaux_expedition db' = creneaux_expedition db
        /\ reservations db' = reservations db
        /\ (forall j, count_colis_of db' j
                      = count_colis_of db j
                        - (if sql_eq (col "creneau_id" c) (JNum j) then 1 else 0))
        /\ get_colis_id db' id = error 404 "Colis non trouvé"
        /\ delete_colis db' id = (error 404 "Colis non trouvé", db'))
  /\ ((forall c, In c (colis db) -> col "id" c <> JNum k) ->
      delete_colis db id = (error 404 "Colis non trouvé", db)).
Proof.
  intros Hk Hpk. split.
  - intros c Hin Hid. now apply (delete_colis_found db id k c).
  - intros Hno. unfold delete_colis. rewrite (int4in_valid_id _ _ Hk), Hk.
    unfold delete_where. cbn [fst snd]. rewrite filter_has_id_absent; [reflexivity|].
    intros r Hr. destruct (has_id k r) eqn:E; [|reflexivity].
    apply has_id_true in E. now apply Hno in E.
Qed.

(** A valid create request for a slot that has room is inserted. *)
Lemma post_colis_accepts sle db body now frac k ce m :
  primary_key (creneaux_expedition db) ->
  (forall c, In c (colis db) -> col "id" c <> JNull) ->
  colis_fields_valid sle body = true ->
  truthy (prop "creneau_id" body) = true ->
  bind_int (prop "creneau_id" body) = Some (JNum k) ->
  In ce (creneaux_expedition db) -> col "id" ce = JNum k ->
  col "capacite_max" ce = JNum m -> count_colis_of db k < m ->
  post_colis sle db body now frac
  = (Reply 201 (JObj (colis_row (colis_id_seq db) (JNum k) body now frac)),
     mkStore (reservations db) (creneaux_expedition db)
             (colis db ++ [colis_row (colis_id_seq db) (JNum k) body now frac])
             (colis_id_seq db + 1)).
Proof.
  intros Hpk Hid Hv Ht Hb Hin Hk Hm Hroom.
  pose proof (check_creneau_spec db _ k Hpk Hid Ht Hb) as Hc.
  rewrite (filter_has_id_unique k ce) in Hc by (try apply has_id_true; assumption).
  rewrite Hm in Hc. simpl in Hc.
  replace (m <=? count_colis_of db k) with false in Hc
    by (symmetry; apply Z.leb_gt; lia).
  unfold colis_fields_valid in Hv. split_checks Hv.
  destruct (missing_field colis_required body) eqn:Hmiss; [discriminate|].
  unfold post_colis. rewrite Hmiss. pass_checks.
  rewrite Hc, Hb. unfold insert_colis. simpl fk_creneau.
  now rewrite (existsb_has_id k ce) by assumption.
Qed.

(** A create request for a full slot is refused. *)
Lemma post_colis_full sle db body now frac k ce m :
  primary_key (creneaux_expedition db) ->
  (forall c, In c (colis db) -> col "id" c <> JNull) ->
  truthy (prop "creneau_id" body) = true ->
  bind_int (prop "creneau_id" body) = Some (JNum k) ->
  In ce (creneaux_expedition db) -> col "id" ce = JNum k ->
  col "capacite_max" ce = JNum m -> m <= count_colis_of db k ->
  exists msg, post_colis sle db body now frac = (error 400 msg, db).
Proof.
  intros Hpk Hid Ht Hb Hin Hk Hm Hfull.
  pose proof (check_creneau_spec db _ k Hpk Hid Ht Hb) as Hc.
  rewrite (filter_has_id_unique k ce) in Hc by (try apply has_id_true; assumption).
  rewrite Hm in Hc. simpl in Hc.
  replace (m <=? count_colis_of db k) with true in Hc
    by (symmetry; now apply Z.leb_le).
  eapply post_colis_refused; eassumption.
Qed.

Lemma primary_key_not_null t c : primary_key t -> In c t -> col "id" c <> JNull.
Proof.
  intros [_ Hf] Hin. rewrite Forall_forall in Hf.
  destruct (Hf c Hin) as [k ->]. discriminate.
Qed.

(** X8. Deleting a package frees its place: a create request for a slot
    that is exactly full is refused, and the same request is accepted once
    one of the packages of the slot has been deleted. *)
Theorem delete_frees_place sle db id k c j ce body now frac :
  primary_key (creneaux_expedition db) -> primary_key (colis db) ->
  int4in id = Some k -> In c (colis db) -> col "id" c = JNum k ->
  col "creneau_id" c = JNum j ->
  In ce (creneaux_expedition db) -> col "id" ce = JNum j ->
  col "capacite_max" ce = JNum (count_colis_of db j) ->
  colis_fields_valid sle body = true ->
  truthy (prop "creneau_id" body) = true ->
  bind_int (prop "creneau_id" body) = Some (JNum j) ->
  (exists msg, post_colis sle db body now frac = (error 400 msg, db))
  /\ exists del db1 r db2,
       delete_colis db id = (Reply 200 del, db1)
       /\ post_colis sle db1 body now frac = (Reply 201 (JObj r), db2)
       /\ col "creneau_id" r = JNum j
       /\ count_colis_of db2 j = count_colis_of db j.
Proof.
  intros Hpks Hpkc Hk Hin Hid Hcj Hce Hcid Hm Hv Ht Hb.
  split.
  - apply (post_colis_full sle db body now frac j ce (count_colis_of db j));
      try assumption; [|lia].
    intros c0. now apply primary_key_not_null.
  - destruct (delete_colis_found db id k c Hk Hpkc Hin Hid)
      as [db1 [Hdel [Hrows [Hs [_ [Hcount _]]]]]].
    assert (Hc1 : count_colis_of db1 j = count_colis_of db j - 1).
    { rewrite Hcount, Hcj. simpl. now rewrite Z.eqb_refl. }
    assert (Hpost : post_colis sle db1 body now frac
                    = (Reply 201 (JObj (colis_row (colis_id_seq db1) (JNum j) body now frac)),
                       mkStore (reservations db1) (creneaux_expedition db1)
                               (colis db1 ++ [colis_row (colis_id_seq db1) (JNum j)
                                                        body now frac])
                               (colis_id_seq db1 + 1))).
    { apply (post_colis_accepts sle db1 body now frac j ce (count_colis_of db j));
        try assumption; rewrite ?Hs; try assumption; [|lia].
      intros c0 H0. apply Hrows in H0 as [H0 _].
      now apply (primary_key_not_null (colis db)). }
    do 4 eexists. split; [exact Hdel|]. split; [exact Hpost|]. split; [reflexivity|].
    rewrite count_colis_of_app. simpl. rewrite Z.eqb_refl. lia.
Qed.

(** *** Invariants of the updates and the deletions *)

Lemma table_kept_refl t : table_kept t t.
Proof. now left. Qed.

Lemma ids_kept_refl db : ids_kept db db.
Proof. repeat split; apply table_kept_refl. Qed.

Lemma primary_key_same_ids t t' :
  map (col "id") t' = map (col "id") t -> primary_key t -> primary_key t'.
Proof.
  intros E [Hn Hf]. split; [now rewrite E|].
  apply Forall_forall. intros r Hr.
  assert (Hin : In (col "id" r) (map (col "id") t)) by (rewrite <- E; now apply in_map).
  apply in_map_iff in Hin as [r0 [E0 H0]]. rewrite Forall_forall in Hf.
  destruct (Hf r0 H0) as [k Hk]. exists k. congruence.
Qed.

Lemma primary_key_kept t t' : table_kept t t' -> primary_key t -> primary_key t'.
Proof.
  intros [E|[cond ->]] Hpk.
  - now apply (primary_key_same_ids t).
  - now apply primary_key_filter.
Qed.

Lemma snd_reservations_error out : snd (reservations_error out) = snd out.
Proof. unfold reservations_error. destruct out as [[s b|] db]; reflexivity. Qed.

Lemma updated_snd nf res db :
  snd (updated nf res db) = match res with Some (_, db') => db' | None => db end.
Proof. destruct res as [[[|r rows] db']|]; reflexivity. Qed.

Lemma update_colis_ids db id sets :
  ~ In "id" (map fst sets) ->
  ids_kept db (match update_colis db id sets with Some (_, d) => d | None => db end).
Proof.
  intros Hid. unfold update_colis.
  destruct (bind_sets colis_int_col sets) as [bound|] eqn:Hb; [|apply ids_kept_refl].
  destruct (int4in id) as [k|]; [|apply ids_kept_refl].
  destruct (snd (update_where_id (colis db) k bound)); [apply ids_kept_refl|].
  destruct (forallb _ bound); [|apply ids_kept_refl].
  repeat split; try apply table_kept_refl. left. cbn [colis fst update_where_id].
  apply (replace_id_keeps k bound). now rewrite (bind_sets_fst _ _ _ Hb).
Qed.

Lemma update_creneaux_ids db id sets :
  ~ In "id" (map fst sets) ->
  ids_kept db (match update_creneaux db id sets with Some (_, d) => d | None => db end).
Proof.
  intros Hid. unfold update_creneaux.
  destruct (bind_sets creneaux_int_col sets) as [bound|] eqn:Hb; [|apply ids_kept_refl].
  destruct (int4in id) as [k|]; [|apply ids_kept_refl].
  repeat split; try apply table_kept_refl. left.
  cbn [creneaux_expedition fst update_where_id].
  apply (replace_id_keeps k bound). now rewrite (bind_sets_fst _ _ _ Hb).
Qed.

Lemma update_reservations_ids db id sets :
  ~ In "id" (map fst sets) ->
  ids_kept db (match update_reservations db id sets with
               | Some (_, d) => d | None => db end).
Proof.
  intros Hid. unfold update_reservations.
  destruct (bind_sets (fun _ => false) sets) as [bound|] eqn:Hb; [|apply ids_kept_refl].
  destruct (int4in id) as [k|]; [|apply ids_kept_refl].
  repeat split; try apply table_kept_refl. left.
  cbn [reservations fst update_where_id].
  apply (replace_id_keeps k bound). now rewrite (bind_sets_fst _ _ _ Hb).
Qed.

Lemma sets_of_no_id allowed u :
  ~ In "id" allowed -> ~ In "id" (map fst (sets_of (fieldsToUpdate allowed u) u)).
Proof.
  intros Hn. unfold sets_of. rewrite map_map. simpl. rewrite map_id.
  intro H. apply in_fieldsToUpdate in H. tauto.
Qed.

(** The validations in front of a statement answer without touching the
    store: go down their [else] branches. *)
Ltac skip_guards :=
  repeat match goal with
         | |- ids_kept ?db (snd (if ?b then _ else _)) =>
             destruct b; [apply ids_kept_refl|]
         | |- ids_kept ?db (snd (match ?x with Some _ => _ | None => _ end)) =>
             destruct x; [apply ids_kept_refl|]
         end.

Lemma put_colis_ids sle db id u : ids_kept db (snd (put_colis sle db id u)).
Proof.
  unfold put_colis. skip_guards. rewrite updated_snd.
  apply update_colis_ids. simpl. intuition discriminate.
Qed.

Lemma patch_colis_ids sle db id u : ids_kept db (snd (patch_colis sle db id u)).
Proof.
  unfold patch_colis. skip_guards. rewrite updated_snd.
  apply update_colis_ids, sets_of_no_id. simpl. intuition discriminate.
Qed.

Lemma put_creneau_ids sle db id u : ids_kept db (snd (put_creneau sle db id u)).
Proof.
  unfold put_creneau. skip_guards. rewrite updated_snd.
  apply update_creneaux_ids. simpl. intuition discriminate.
Qed.

Lemma patch_creneau_ids sle db id u : ids_kept db (snd (patch_creneau sle db id u)).
Proof.
  unfold patch_creneau. skip_guards. rewrite updated_snd.
  apply update_creneaux_ids, sets_of_no_id. simpl. intuition discriminate.
Qed.

Lemma put_reservation_ids sle db id u :
  ids_kept db (snd (put_reservation sle db id u)).
Proof.
  unfold put_reservation. rewrite snd_reservations_error. skip_guards.
  rewrite updated_snd. apply update_reservations_ids. simpl. intuition discriminate.
Qed.

Lemma patch_reservation_ids sle db id u :
  ids_kept db (snd (patch_reservation sle db id u)).
Proof.
  unfold patch_reservation. rewrite snd_reservations_error. skip_guards.
  rewrite updated_snd. apply update_reservations_ids, sets_of_no_id.
  simpl. intuition discriminate.
Qed.

Lemma delete_colis_ids db id : ids_kept db (snd (delete_colis db id)).
Proof.
  unfold delete_colis. destruct (invalid_id id); [apply ids_kept_refl|].
  destruct (int4in id) as [k|]; [|apply ids_kept_refl].
  destruct (snd (delete_where (colis db) (has_id k))); [apply ids_kept_refl|].
  repeat split; try apply table_kept_refl. right. eexists. reflexivity.
Qed.

Lemma delete_creneau_ids db id : ids_kept db (snd (delete_creneau db id)).
Proof.
  unfold delete_creneau. destruct (invalid_id id); [apply ids_kept_refl|].
  destruct (int4in id) as [k|]; [|apply ids_kept_refl].
  destruct (0 <? count_colis_of db k); [apply ids_kept_refl|].
  destruct (snd (delete_where (creneaux_expedition db) (has_id k)));
    [apply ids_kept_refl|].
  repeat split; try apply table_kept_refl. right. eexists. reflexivity.
Qed.

Lemma delete_reservation_ids db id : ids_kept db (snd (delete_reservation db id)).
Proof.
  unfold delete_reservation. rewrite snd_reservations_error.
  destruct (invalid_id id); [apply ids_kept_refl|].
  destruct (int4in id) as [k|]; [|apply ids_kept_refl].
  destruct (snd (delete_where (reservations db) (has_id k))); [apply ids_kept_refl|].
  repeat split; try apply table_kept_refl. right. eexists. reflexivity.
Qed.

Lemma delete_reservations_ids db body :
  ids_kept db (snd (delete_reservations db body)).
Proof.
  unfold delete_reservations. rewrite snd_reservations_error.
  destruct (prop "ids" body) as [[| | | |ids|]|]; try apply ids_kept_refl.
  destruct (List.length ids =? 0)%nat; [apply ids_kept_refl|].
  destruct (List.length (validIds ids) =? 0)%nat; [apply ids_kept_refl|].
  destruct (bind_ids (validIds ids)); [|apply ids_kept_refl].
  repeat split; try apply table_kept_refl. right. eexists. reflexivity.
Qed.

Lemma keyed_kept db db' : ids_kept db db' -> keyed db -> keyed db'.
Proof.
  intros [H1 [H2 H3]] [K1 [K2 K3]].
  repeat split; eapply primary_key_kept; eauto.
Qed.

(** X9. No update and no deletion changes the id of a row or brings a
    second row under an id: when [id] is the primary key of the three tables
    before a full update, a partial update or a deletion (of one row, or of
    many reservations), it is after it, whatever the request and its answer;
    [id] is in no list of recognized fields and in no SET list. *)
Theorem updates_keep_keys sle db id u :
  keyed db ->
  keyed (snd (put_colis sle db id u))
  /\ keyed (snd (patch_colis sle db id u))
  /\ keyed (snd (delete_colis db id))
  /\ keyed (snd (put_creneau sle db id u))
  /\ keyed (snd (patch_creneau sle db id u))
  /\ keyed (snd (delete_creneau db id))
  /\ keyed (snd (put_reservation sle db id u))
  /\ keyed (snd (patch_reservation sle db id u))
  /\ keyed (snd (delete_reservation db id))
  /\ keyed (snd (delete_reservations db u)).
Proof.
  intros Hk.
  repeat split;
    (eapply keyed_kept; [|exact Hk]);
    auto using put_colis_ids, patch_colis_ids, delete_colis_ids, put_creneau_ids,
      patch_creneau_ids, delete_creneau_ids, put_reservation_ids,
      patch_reservation_ids, delete_reservation_ids, delete_reservations_ids.
Qed.

(** X10. Deleting a slot never leaves a package that refers to a missing
    slot: the count that guards the deletion keeps the references of the
    packages valid without help from the store. *)
Theorem delete_creneau_keeps_references db id :
  referential db -> referential (snd (delete_creneau db id)).
Proof.
  intros Href. unfold delete_creneau.
  destruct (invalid_id id); [exact Href|].
  destruct (int4in id) as [k|]; [|exact Href].
  destruct (0 <? count_colis_of db k) eqn:Hcount; [exact Href|].
  destruct (snd (delete_where (creneaux_expedition db) (has_id k))); [exact Href|].
  cbn [snd fst delete_where]. intros c j Hc Hj. cbn [colis] in Hc.
  destruct (Href c j Hc Hj) as [ce [Hin Hid]].
  exists ce. split; [|exact Hid]. cbn [creneaux_expedition].
  apply filter_In. split; [exact Hin|].
  destruct (has_id k ce) eqn:E; [|reflexivity]. exfalso.
  apply has_id_true in E. rewrite Hid in E. injection E as ->.
  apply Z.ltb_ge in Hcount. unfold count_colis_of in Hcount.
  assert (Hnone : filter (fun c => sql_eq (col "creneau_id" c) (JNum k)) (colis db) = []).
  { destruct (filter _ (colis db)); [reflexivity|]. simpl in Hcount. lia. }
  assert (Hmem : In c (filter (fun c => sql_eq (col "creneau_id" c) (JNum k)) (colis db))).
  { apply filter_In. split; [exact Hc|]. now apply sql_eq_true. }
  rewrite Hnone in Hmem. contradiction.
Qed.

(** *** Decimal text *)

Lemma scan_decimal d : forall acc cnt,
  scan_digits digit10 10 acc cnt (NilEmpty.string_of_uint d)
  = (uint_value acc d, (cnt + Decimal.nb_digits d)%nat, "").
Proof.
  induction d; intros acc cnt; cbn [NilEmpty.string_of_uint scan_digits uint_value
                                     Decimal.nb_digits];
    [ now rewrite Nat.add_0_r
    | match goal with
      | |- context [digit10 ?c] =>
          let v := eval vm_compute in (digit10 c) in
          change (digit10 c) with v
      end; cbv iota; rewrite IHd, Nat.add_succ_r; reflexivity .. ].
Qed.

Lemma uint_value_pos d : forall p, uint_value (Z.pos p) d = Z.pos (Pos.of_uint_acc d p).
Proof.
  induction d; intros p; cbn [uint_value Pos.of_uint_acc]; [reflexivity | ..];
    match goal with
    | |- uint_value ?a _ = Z.pos (Pos.of_uint_acc _ ?q) =>
        replace a with (Z.pos q) by lia
    end; apply IHd.
Qed.

Lemma uint_value_0 d : uint_value 0 d = Z.of_N (Pos.of_uint d).
Proof.
  induction d; cbn [uint_value Pos.of_uint]; [reflexivity | exact IHd | ..];
    match goal with
    | |- uint_value ?a _ = _ =>
        let v := eval cbv in a in change a with v
    end; rewrite uint_value_pos; reflexivity.
Qed.

Lemma uint_value_to_uint p : uint_value 0 (Pos.to_uint p) = Z.pos p.
Proof. now rewrite uint_value_0, Unsigned.of_to. Qed.

Lemma digits_head d :
  d <> Decimal.Nil ->
  exists c rest, NilEmpty.string_of_uint d = String c rest
                 /\ (48 <=? code c)%nat && (code c <=? 57)%nat = true.
Proof.
  destruct d; [congruence | ..]; intros _; do 2 eexists; split; reflexivity.
Qed.

Lemma nb_digits_pos d : d <> Decimal.Nil -> Decimal.nb_digits d <> 0%nat.
Proof. destruct d; [congruence | ..]; discriminate. Qed.

Lemma digit_not_sign c :
  (48 <=? code c)%nat && (code c <=? 57)%nat = true ->
  ws1 c = false /\ Ascii.eqb c "-" = false /\ Ascii.eqb c "+" = false.
Proof.
  intros H. apply andb_true_iff in H as [H1 H2].
  apply Nat.leb_le in H1, H2.
  split; [apply ws1_false; lia |].
  split; apply Ascii.eqb_neq; intros ->; vm_compute in H1; lia.
Qed.

(** The store reads the decimal text of an integer of 32 bits as that
    integer. *)
Lemma int4in_dec k : in_int4 k = true -> int4in (dec k) = Some k.
Proof.
  intros R. unfold dec.
  destruct k as [| p | p]; [reflexivity | |]; cbn [Z.to_int NilZero.string_of_int].
  - pose proof (Unsigned.to_uint_nonnil p) as N.
    destruct (digits_head _ N) as (c & rest & E & D).
    destruct (digit_not_sign _ D) as (W & M & P).
    assert (S : NilZero.string_of_uint (Pos.to_uint p)
                = NilEmpty.string_of_uint (Pos.to_uint p)).
    { destruct (Pos.to_uint p); [congruence | reflexivity ..]. }
    rewrite S. unfold int4in.
    assert (T : pg_ltrim (NilEmpty.string_of_uint (Pos.to_uint p))
                = NilEmpty.string_of_uint (Pos.to_uint p)).
    { rewrite E. cbn [pg_ltrim]. now rewrite W. }
    rewrite T.
    assert (G : scan_sign (NilEmpty.string_of_uint (Pos.to_uint p))
                = (false, NilEmpty.string_of_uint (Pos.to_uint p))).
    { rewrite E. unfold scan_sign. now rewrite M, P. }
    rewrite G, scan_decimal, uint_value_to_uint.
    cbn [Nat.add]. rewrite (proj2 (Nat.eqb_neq _ _) (nb_digits_pos _ N)).
    cbn [all_ws negb signed]. now rewrite R.
  - pose proof (Unsigned.to_uint_nonnil p) as N.
    assert (S : NilZero.string_of_uint (Pos.to_uint p)
                = NilEmpty.string_of_uint (Pos.to_uint p)).
    { destruct (Pos.to_uint p); [congruence | reflexivity ..]. }
    rewrite S. unfold int4in.
    change (pg_ltrim (String "-" (NilEmpty.string_of_uint (Pos.to_uint p))))
      with (String "-" (NilEmpty.string_of_uint (Pos.to_uint p))).
    change (scan_sign (String "-" (NilEmpty.string_of_uint (Pos.to_uint p))))
      with (true, NilEmpty.string_of_uint (Pos.to_uint p)).
    cbv iota beta.
    rewrite scan_decimal, uint_value_to_uint.
    cbn [Nat.add]. rewrite (proj2 (Nat.eqb_neq _ _) (nb_digits_pos _ N)).
    cbn [all_ws negb signed].
    change (- Z.pos p) with (Z.neg p). now rewrite R.
Qed.

Lemma parseInt_dec k : in_int4 k = true -> parseInt (Some (JNum k)) = Some k.
Proof. intros R. apply int4in_parseInt, int4in_dec, R. Qed.

Lemma valid_id_dec k : in_int4 k = true -> invalid_id (dec k) = false.
Proof. intros R. eapply int4in_valid_id, int4in_dec, R. Qed.

(** *** The pages of the list routes *)




(** With [id] the key of the slots, the join makes one row of each
    package. *)
Lemma slot_rows_single slots c :
  primary_key slots -> exists o, slot_rows slots c = [(c, o)].
Proof.
  intros K. unfold slot_rows.
  destruct (col "creneau_id" c) as [| | j | | |] eqn:E;
    try (rewrite (filter_none (fun ce => on_creneau ce c) slots);
         [eexists; reflexivity
         | intros ce _; unfold on_creneau; rewrite E; now destruct (col "id" ce)]).
  assert (X : filter (fun ce => on_creneau ce c) slots = filter (has_id j) slots).
  { apply filter_ext. intros ce. unfold on_creneau, has_id. now rewrite E. }
  rewrite X.
  destruct (filter (has_id j) slots) as [|ce rest] eqn:F; [eexists; reflexivity|].
  assert (I : In ce (filter (has_id j) slots)) by (rewrite F; now left).
  apply filter_In in I as [I Hj].
  rewrite (filter_has_id_unique j ce slots K I Hj) in F.
  injection F as <-. eexists. reflexivity.
Qed.

Lemma length_slot_rows slots (l : table) :
  primary_key slots ->
  List.length (flat_map (slot_rows slots) l) = List.length l.
Proof.
  intros K. induction l as [|c l IH]; [reflexivity|].
  cbn [flat_map]. destruct (slot_rows_single slots c K) as [o ->].
  cbn [app List.length]. now rewrite IH.
Qed.

Lemma colis_page_rows db q :
  filter (fun j => colis_where q (fst j))
         (left_join (colis db) (creneaux_expedition db) (fun c ce => on_creneau ce c))
  = flat_map (slot_rows (creneaux_expedition db)) (filter (colis_where q) (colis db)).
Proof.
  unfold left_join.
  apply (filter_flat_map_fst (slot_rows (creneaux_expedition db))).
  intros a j. apply slot_rows_fst.
Qed.


Lemma get_reservations_answer db q body :
  get_reservations db q = Reply 200 body ->
  list_answer q (Z.of_nat (List.length (filter (reservations_where q)
                                               (reservations db))))
              (order_by (col (sortColumn ["id"; "nom"; "prenom"; "email";
                                          "destination"; "date_depart";
                                          "created_at"] q))
                        (sortDesc q)
                        (filter (reservations_where q) (reservations db)))
  = Reply 200 body.
Proof.
  unfold get_reservations, reservations_error. cbn [fst snd].
  destruct (list_answer _ _ _); [trivial|]. discriminate.
Qed.


Lemma existsb_eqb_in s l : existsb (String.eqb s) l = true <-> In s l.
Proof.
  rewrite existsb_exists. split.
  - intros (x & I & E). apply String.eqb_eq in E. now subst.
  - intros I. exists s. split; [exact I | apply String.eqb_refl].
Qed.

(** X12. The status filter of the package list: with a status of the
    enumeration, every package of the answer has that status; any other
    status is ignored, the answer being that of the request without it. *)
Theorem statut_filter db q s :
  statut q = Some s ->
  (In s validStatus ->
   forall rows pag x,
     get_colis db q = Reply 200 (JObj [("data", JArr rows); ("pagination", pag)]) ->
     In x rows -> exists r, x = JObj r /\ text_eq (col "statut" r) s = true)
  /\ (~ In s validStatus -> get_colis db q = get_colis db (without_statut q)).
Proof.
  intros S. split.
  - intros V rows pag x H Hx.
    unfold get_colis in H.
    destruct (list_answer_inv _ _ _ _ _ H) as (p & l & _ & _ & _ & _ & _ & _ & B).
    injection B as -> _.
    apply in_map_iff in Hx as (r & <- & Hr).
    exists r. split; [reflexivity|].
    apply in_limit_offset, in_map_iff in Hr as (j & <- & Hj).
    apply in_order_by, filter_In in Hj as [_ W].
    rewrite with_creneau_other by (cbv; intuition discriminate).
    unfold colis_where in W. rewrite S in W.
    apply andb_true_iff in W as [_ W].
    assert (E : negb (String.eqb s "") && existsb (String.eqb s) validStatus = true).
    { apply andb_true_iff. split.
      - apply negb_true_iff, String.eqb_neq. intros ->.
        cbv in V; intuition discriminate.
      - now apply existsb_eqb_in. }
    now rewrite E in W.
  - intros V.
    assert (E : existsb (String.eqb s) validStatus = false).
    { apply not_true_is_false. intros E. now apply existsb_eqb_in in E. }
    assert (W : forall c, colis_where q c = colis_where (without_statut q) c).
    { intros c. unfold colis_where, search_pattern, without_statut.
      cbn [search statut]. rewrite S, E, andb_false_r. reflexivity. }
    unfold get_colis, list_answer, offset, pageNum, limitNum, sortColumn,
      sortDesc, without_statut.
    cbn [page limit sortBy order].
    rewrite (filter_ext _ _ W).
    rewrite (filter_ext (fun j => colis_where q (fst j))
                        (fun j => colis_where (without_statut q) (fst j)))
      by (intros j; apply W).
    reflexivity.
Qed.

(** *** Reading a row by the id that the store gave it *)

Lemma get_colis_id_found db id k c :
  int4in id = Some k -> primary_key (colis db) ->
  In c (colis db) -> col "id" c = JNum k ->
  exists o, get_colis_id db id = Reply 200 (JObj (with_creneau (c, o))).
Proof.
  intros Hk Hpk Hin Hid. unfold get_colis_id.
  rewrite (int4in_valid_id _ _ Hk), Hk, colis_joined_rows.
  rewrite (filter_has_id_unique k c) by (try apply has_id_true; assumption).
  cbn [flat_map]. rewrite app_nil_r.
  destruct (slot_rows_head (creneaux_expedition db) c) as (o & rest & -> & _).
  exists o. reflexivity.
Qed.

Lemma get_reservation_found db id k r :
  int4in id = Some k -> primary_key (reservations db) ->
  In r (reservations db) -> col "id" r = JNum k ->
  get_reservation db id = Reply 200 (JObj r).
Proof.
  intros Hk Hpk Hin Hid. unfold get_reservation.
  rewrite (int4in_valid_id _ _ Hk), Hk.
  now rewrite (filter_has_id_unique k r) by (try apply has_id_true; assumption).
Qed.

Lemma no_id_no_row k (t : table) :
  (forall r, In r t -> col "id" r <> JNum k) -> filter (has_id k) t = [].
Proof.
  intros H. apply filter_has_id_absent. intros r Hr.
  destruct (has_id k r) eqn:E; [|reflexivity].
  apply has_id_true in E. now apply H in E.
Qed.

Lemma get_reservation_absent db id k :
  int4in id = Some k ->
  (forall r, In r (reservations db) -> col "id" r <> JNum k) ->
  get_reservation db id = error 404 "Réservation non trouvée".
Proof.
  intros Hk Hno. unfold get_reservation.
  rewrite (int4in_valid_id _ _ Hk), Hk. now rewrite no_id_no_row.
Qed.

(** X13. Every row can be read by the decimal text of its id: for an id
    [k] of 32 bits, the request for [/k] answers with the reservation, with
    the slot (and its count of packages) and with the package (apart from the
    columns read from its slot) that bear the id [k]. *)
Theorem read_by_decimal_id db k :
  in_int4 k = true -> keyed db ->
  (forall r, In r (reservations db) -> col "id" r = JNum k ->
             get_reservation db (dec k) = Reply 200 (JObj r))
  /\ (forall ce, In ce (creneaux_expedition db) -> col "id" ce = JNum k ->
                 get_creneau db (dec k)
                 = Reply 200 (JObj (with_usage (ce, count_colis_of db k))))
  /\ (forall c, In c (colis db) -> col "id" c = JNum k ->
                exists r,
                  get_colis_id db (dec k) = Reply 200 (JObj r)
                  /\ forall x, ~ In x slot_columns -> col x r = col x c).
Proof.
  intros R (Kr & Ks & Kc). pose proof (int4in_dec k R) as D.
  split; [|split].
  - intros r Hin Hid. now apply (get_reservation_found db (dec k) k).
  - intros ce Hin Hid. apply get_creneau_found; try assumption.
    intros c Hc. now apply (primary_key_not_null (colis db)).
  - intros c Hin Hid.
    destruct (get_colis_id_found db (dec k) k c D Kc Hin Hid) as [o E].
    exists (with_creneau (c, o)). split; [exact E|].
    intros x Hx. now apply with_creneau_other.
Qed.

Lemma ids_below_fresh seq (t : table) r :
  ids_below seq t -> In r t -> col "id" r <> JNum seq.
Proof.
  intros B Hr. unfold ids_below in B. rewrite Forall_forall in B.
  destruct (B r Hr) as (k & E & L). rewrite E. intros [= ->]. lia.
Qed.

(** X14. A package that was just created can be read by the id of the
    answer: the request for that id returns the created row (apart from the
    columns read from its slot).  The ids of the stored packages are taken
    to be distinct and below the sequence, within 32 bits. *)
Theorem created_colis_readable sle db body now frac r db' :
  primary_key (colis db) -> ids_below (colis_id_seq db) (colis db) ->
  in_int4 (colis_id_seq db) = true ->
  post_colis sle db body now frac = (Reply 201 (JObj r), db') ->
  exists r',
    get_colis_id db' (to_string (col "id" r)) = Reply 200 (JObj r')
    /\ forall x, ~ In x slot_columns -> col x r' = col x r.
Proof.
  intros K B R H.
  destruct (post_colis_inv _ _ _ _ _ _ _ H) as (v & _ & _ & _ & _ & Er & ->).
  assert (Hid : col "id" r = JNum (colis_id_seq db)) by (subst r; reflexivity).
  rewrite Hid. cbn [to_string].
  destruct (get_colis_id_found
              (mkStore (reservations db) (creneaux_expedition db)
                       (colis db ++ [r]) (colis_id_seq db + 1))
              (dec (colis_id_seq db)) (colis_id_seq db) r) as [o E].
  - now apply int4in_dec.
  - cbn [colis]. now apply (primary_key_snoc _ _ (colis_id_seq db)).
  - cbn [colis]. apply in_or_app. right. now left.
  - exact Hid.
  - exists (with_creneau (r, o)). split; [exact E|].
    intros x Hx. now apply with_creneau_other.
Qed.

(** *** Creating a reservation and creating a slot *)

Lemma truthy_some v : truthy v = true -> exists x, v = Some x.
Proof. destruct v; [eauto | discriminate]. Qed.

Lemma post_reservation_inv sle db nextval body r db' :
  post_reservation sle db nextval body = (Reply 201 (JObj r), db') ->
  missing_field reservations_required body = None
  /\ includes validClasses (prop "classe" body) = true
  /\ le0 sle (prop "nombre_passagers" body) = false
  /\ r = ("id", JNum nextval)
         :: map (fun cv => (fst cv, bind_any (snd cv))) (reservation_values body)
  /\ db' = mkStore (reservations db ++ [r]) (creneaux_expedition db) (colis db)
                   (colis_id_seq db).
Proof.
  unfold post_reservation.
  destruct (missing_field reservations_required body); [discriminate|].
  destruct (includes validClasses _); [|discriminate].
  destruct (le0 sle _); [discriminate|].
  cbn [negb reservations_error fst snd]. intros [= <- <-]. repeat split.
Qed.

(** X15. A reservation that was created holds valid fields and can be read
    back: its nine required columns are the truthy values of the payload, its
    class is one of the three classes, its passenger count is not below 1,
    its return date is the one of the payload or NULL; it is appended to the
    reservations, the other tables being untouched; and, its id being new
    among distinct ids, the request for that id returns it. *)
Theorem created_reservation sle db nextval body r db' :
  post_reservation sle db nextval body = (Reply 201 (JObj r), db') ->
  col "id" r = JNum nextval
  /\ (forall f, In f reservations_required ->
                prop f body = Some (col f r) /\ truthy (Some (col f r)) = true)
  /\ includes validClasses (Some (col "classe" r)) = true
  /\ le0 sle (Some (col "nombre_passagers" r)) = false
  /\ (forall n, col "nombre_passagers" r = JNum n -> 0 < n)
  /\ col "date_retour" r = bind_any (prop "date_retour" body)
  /\ reservations db' = reservations db ++ [r]
  /\ creneaux_expedition db' = creneaux_expedition db
  /\ colis db' = colis db
  /\ (in_int4 nextval = true -> primary_key (reservations db) ->
      (forall r0, In r0 (reservations db) -> col "id" r0 <> JNum nextval) ->
      get_reservation db' (dec nextval) = Reply 200 (JObj r)).
Proof.
  intros H.
  destruct (post_reservation_inv _ _ _ _ _ _ H) as (M & C & P & Er & ->).
  assert (Hreq : forall f, In f reservations_required ->
                           prop f body = Some (col f r)
                           /\ truthy (Some (col f r)) = true).
  { intros f Hf. pose proof (required_truthy _ _ _ M Hf) as Ht.
    assert (E : col f r = bind_any (prop f body)).
    { subst r. simpl in Hf.
      repeat (destruct Hf as [<-|Hf]; [reflexivity|]). contradiction. }
    rewrite E. destruct (prop f body); [auto|discriminate]. }
  assert (Hc : Some (col "classe" r) = prop "classe" body).
  { destruct (Hreq "classe") as [E _]; [simpl; tauto | now rewrite E]. }
  assert (Hn : Some (col "nombre_passagers" r) = prop "nombre_passagers" body).
  { destruct (Hreq "nombre_passagers") as [E _]; [simpl; tauto | now rewrite E]. }
  assert (Hid : col "id" r = JNum nextval) by (subst r; reflexivity).
  split; [exact Hid|]. split; [exact Hreq|].
  split; [now rewrite Hc|]. split; [now rewrite Hn|].
  split.
  { intros n E. rewrite <- Hn, E in P. cbn [le0] in P. now apply Z.leb_gt in P. }
  split; [subst r; reflexivity|].
  split; [reflexivity|]. split; [reflexivity|]. split; [reflexivity|].
  intros R K F.
  apply (get_reservation_found _ (dec nextval) nextval).
  - now apply int4in_dec.
  - cbn [reservations]. destruct K as [Kn Kf]. split.
    + rewrite map_app. apply NoDup_app; [exact Kn | repeat constructor; intros [] |].
      intros v Hv [<-|[]]. cbn [map] in Hv. rewrite Hid in Hv.
      apply in_map_iff in Hv as (r0 & E & I). now apply (F r0 I).
    + apply Forall_app. split; [exact Kf|].
      constructor; [now exists nextval | constructor].
  - cbn [reservations]. apply in_or_app. right. now left.
  - exact Hid.
Qed.

Lemma post_creneau_inv sle db nextval body ce db' :
  post_creneau sle db nextval body = (Reply 201 (JObj ce), db') ->
  exists capacite_max,
    missing_field creneaux_required body = None
    /\ present_and_invalid validTransportTypes (prop "type_transport" body) = false
    /\ creneau_not_positive sle body = false
    /\ bind_int (prop "capacite_max" body) = Some capacite_max
    /\ ce = [("id", JNum nextval);
             ("heure_depart", bind_any (prop "heure_depart" body));
             ("lieu_depart", bind_any (prop "lieu_depart" body));
             ("destination", bind_any (prop "destination" body));
             ("capacite_max", capacite_max);
             ("frais_par_kg", bind_any (prop "frais_par_kg" body));
             ("poids_max_colis", bind_any (prop "poids_max_colis" body));
             ("type_transport",
              or_default (prop "type_transport" body) (JStr "standard"));
             ("date_expedition", bind_any (prop "date_expedition" body))]
    /\ db' = mkStore (reservations db) (creneaux_expedition db ++ [ce]) (colis db)
                     (colis_id_seq db).
Proof.
  unfold post_creneau.
  destruct (missing_field creneaux_required body); [discriminate|].
  destruct (present_and_invalid validTransportTypes _); [discriminate|].
  destruct (creneau_not_positive sle body); [discriminate|].
  destruct (bind_int (prop "capacite_max" body)) as [c|]; [|discriminate].
  intros [= <- <-]. exists c. repeat split.
Qed.

Lemma bind_int_number v x :
  truthy v = true -> bind_int v = Some x -> exists m, x = JNum m.
Proof.
  destruct v as [[| b | n | s | l | o]|]; cbn; try discriminate.
  - intros _. destruct (in_int4 n); [|discriminate]. intros [= <-]. eauto.
  - intros _. destruct (int4in s); [|discriminate]. intros [= <-]. eauto.
Qed.

Lemma primary_key_fresh (t : table) r k :
  primary_key t -> (forall r0, In r0 t -> col "id" r0 <> JNum k) ->
  col "id" r = JNum k -> primary_key (t ++ [r]).
Proof.
  intros [Kn Kf] F Hid. split.
  - rewrite map_app. apply NoDup_app; [exact Kn | repeat constructor; intros [] |].
    intros v Hv [<-|[]]. cbn [map] in Hv. rewrite Hid in Hv.
    apply in_map_iff in Hv as (r0 & E & I). now apply (F r0 I).
  - apply Forall_app. split; [exact Kf|].
    constructor; [now exists k | constructor].
Qed.

(** X16. A slot that was created holds valid fields and can be read back:
    its capacity is an integer, and neither the capacity, the fee nor the
    maximum weight of the payload is below or equal to 0; its transport type
    is one of the three types, ["standard"] when the payload names none; it is
    appended to the slots, the other tables being untouched; and, its id
    being new among distinct ids, the request for that id returns it with its
    count of packages and with the places that remain, both in decimal text
    (they are bigints of the store). *)
Theorem created_creneau sle db nextval body ce db' :
  post_creneau sle db nextval body = (Reply 201 (JObj ce), db') ->
  col "id" ce = JNum nextval
  /\ (exists m, col "capacite_max" ce = JNum m)
  /\ (forall f, In f ["capacite_max"; "frais_par_kg"; "poids_max_colis"] ->
                le0 sle (prop f body) = false
                /\ forall n, prop f body = Some (JNum n) ->
                             0 < n /\ col f ce = JNum n)
  /\ includes validTransportTypes (Some (col "type_transport" ce)) = true
  /\ (prop "type_transport" body = None -> col "type_transport" ce = JStr "standard")
  /\ creneaux_expedition db' = creneaux_expedition db ++ [ce]
  /\ reservations db' = reservations db
  /\ colis db' = colis db
  /\ (in_int4 nextval = true -> primary_key (creneaux_expedition db) ->
      (forall ce0, In ce0 (creneaux_expedition db) -> col "id" ce0 <> JNum nextval) ->
      (forall c, In c (colis db) -> col "id" c <> JNull) ->
      exists r,
        get_creneau db' (dec nextval) = Reply 200 (JObj r)
        /\ col "nombre_colis_actuels" r = JStr (dec (count_colis_of db nextval))
        /\ (forall m, col "capacite_max" ce = JNum m ->
                      col "places_restantes" r
                      = JStr (dec (m - count_colis_of db nextval)))).
Proof.
  intros H.
  destruct (post_creneau_inv _ _ _ _ _ _ H) as (cm & M & T & P & B & Ece & ->).
  assert (Hid : col "id" ce = JNum nextval) by (subst ce; reflexivity).
  assert (Hcm : col "capacite_max" ce = cm) by (subst ce; reflexivity).
  pose proof (required_truthy _ _ "capacite_max" M ltac:(simpl; tauto)) as Tc.
  unfold creneau_not_positive in P.
  apply orb_false_iff in P as [P P3]. apply orb_false_iff in P as [P1 P2].
  split; [exact Hid|]. split.
  { rewrite Hcm. now apply (bind_int_number (prop "capacite_max" body)). }
  split.
  { intros f Hf. simpl in Hf.
    destruct Hf as [<-|[<-|[<-|[]]]]; (split; [assumption|]); intros n E.
    - rewrite E in P1. cbn [le0] in P1. apply Z.leb_gt in P1. split; [exact P1|].
      rewrite Hcm. rewrite E in B. cbn [bind_int] in B.
      destruct (in_int4 n); [|discriminate]. now injection B as <-.
    - rewrite E in P2. cbn [le0] in P2. apply Z.leb_gt in P2. split; [exact P2|].
      subst ce. cbn. now rewrite E.
    - rewrite E in P3. cbn [le0] in P3. apply Z.leb_gt in P3. split; [exact P3|].
      subst ce. cbn. now rewrite E. }
  split.
  { replace (col "type_transport" ce)
      with (or_default (prop "type_transport" body) (JStr "standard"))
      by (subst ce; reflexivity).
    now apply (or_default_includes validTransportTypes _ "standard"). }
  split; [intros E; subst ce; cbn; now rewrite E|].
  split; [reflexivity|]. split; [reflexivity|]. split; [reflexivity|].
  intros R K F N.
  exists (with_usage (ce, count_colis_of db nextval)).
  split; [|split].
  - rewrite (get_creneau_found _ (dec nextval) nextval ce).
    + reflexivity.
    + cbn [creneaux_expedition]. now apply (primary_key_fresh _ _ nextval).
    + exact N.
    + now apply int4in_dec.
    + cbn [creneaux_expedition]. apply in_or_app. right. now left.
    + exact Hid.
  - apply with_usage_count.
  - intros m Hm. now apply with_usage_remaining.
Qed.

Lemma count_colis_of_none db k :
  (forall c, In c (colis db) -> col "creneau_id" c <> JNum k) ->
  count_colis_of db k = 0.
Proof.
  intros H. unfold count_colis_of. rewrite filter_none; [reflexivity|].
  intros c Hc. destruct (sql_eq _ _) eqn:E; [|reflexivity].
  apply sql_eq_true in E. now apply H in E.
Qed.

(** X17. A new slot fills up: after a slot was created under an id that no
    slot bears and no package refers to (and that is not 0), a valid create
    request for a package of that slot is accepted as long as the capacity is
    at least 1 and the slot then counts one package; when the capacity is 1,
    any further create request for that slot is refused and changes
    nothing. *)
Theorem new_slot_fills_up sle db nextval slot ce db1 m b1 now1 frac1 b2 now2 frac2 :
  primary_key (creneaux_expedition db) ->
  (forall c, In c (colis db) -> col "id" c <> JNull) ->
  (forall ce0, In ce0 (creneaux_expedition db) -> col "id" ce0 <> JNum nextval) ->
  (forall c, In c (colis db) -> col "creneau_id" c <> JNum nextval) ->
  nextval <> 0 -> in_int4 nextval = true ->
  post_creneau sle db nextval slot = (Reply 201 (JObj ce), db1) ->
  col "capacite_max" ce = JNum m -> 0 < m ->
  colis_fields_valid sle b1 = true ->
  prop "creneau_id" b1 = Some (JNum nextval) ->
  prop "creneau_id" b2 = Some (JNum nextval) ->
  exists r db2,
    post_colis sle db1 b1 now1 frac1 = (Reply 201 (JObj r), db2)
    /\ col "creneau_id" r = JNum nextval
    /\ count_colis_of db2 nextval = 1
    /\ (m = 1 ->
        exists msg, post_colis sle db2 b2 now2 frac2 = (error 400 msg, db2)).
Proof.
  intros K N F U Z R H Hm Pm V1 C1 C2.
  destruct (post_creneau_inv _ _ _ _ _ _ H) as (cm & _ & _ & _ & _ & Ece & ->).
  assert (Hid : col "id" ce = JNum nextval) by (subst ce; reflexivity).
  set (db1 := mkStore (reservations db) (creneaux_expedition db ++ [ce]) (colis db)
                      (colis_id_seq db)).
  assert (K1 : primary_key (creneaux_expedition db1))
    by (cbn [db1 creneaux_expedition]; now apply (primary_key_fresh _ _ nextval)).
  assert (I1 : In ce (creneaux_expedition db1))
    by (cbn [db1 creneaux_expedition]; apply in_or_app; right; now left).
  assert (U1 : count_colis_of db1 nextval = 0) by now apply count_colis_of_none.
  assert (T : forall b, prop "creneau_id" b = Some (JNum nextval) ->
                        truthy (prop "creneau_id" b) = true
                        /\ bind_int (prop "creneau_id" b) = Some (JNum nextval)).
  { intros b ->. cbn [truthy bind_int]. rewrite R. split; [|reflexivity].
    now apply negb_true_iff, Z.eqb_neq. }
  destruct (T b1 C1) as [T1 B1]. destruct (T b2 C2) as [T2 B2].
  set (r := colis_row (colis_id_seq db1) (JNum nextval) b1 now1 frac1).
  exists r, (mkStore (reservations db1) (creneaux_expedition db1)
                     (colis db1 ++ [r]) (colis_id_seq db1 + 1)).
  assert (Cnt : count_colis_of
                  (mkStore (reservations db1) (creneaux_expedition db1)
                           (colis db1 ++ [r]) (colis_id_seq db1 + 1)) nextval = 1).
  { rewrite count_colis_of_app, U1. subst r. cbn [colis_row col prop String.eqb
      Ascii.eqb Bool.eqb sql_eq]. now rewrite Z.eqb_refl. }
  split; [|split; [reflexivity|split; [exact Cnt|]]].
  - apply (post_colis_accepts sle db1 b1 now1 frac1 nextval ce m); try assumption.
    lia.
  - intros ->.
    apply (post_colis_full sle _ b2 now2 frac2 nextval ce 1); try assumption.
    + cbn [colis]. intros c Hc. apply in_app_or in Hc as [Hc|[<-|[]]].
      * now apply N.
      * discriminate.
    + lia.
Qed.

(** *** Requests that are refused *)

Lemma same_tables_refl db : same_tables db db.
Proof. repeat split. Qed.

Lemma filter_nil_all {A} (f : A -> bool) l :
  filter f l = [] -> forall x, In x l -> f x = false.
Proof.
  intros E x Hx. destruct (f x) eqn:F; [|reflexivity].
  assert (I : In x (filter f l)) by (apply filter_In; now split).
  rewrite E in I. destruct I.
Qed.

Lemma update_where_id_none (t : table) k sets :
  snd (update_where_id t k sets) = [] -> fst (update_where_id t k sets) = t.
Proof.
  unfold update_where_id. cbn [fst snd]. intros E.
  apply map_eq_nil in E. apply (replace_id_absent k sets t).
  now apply filter_nil_all.
Qed.

Lemma update_colis_none db id sets db' :
  update_colis db id sets = Some ([], db') -> same_tables db db'.
Proof.
  unfold update_colis.
  destruct (bind_sets colis_int_col sets) as [bound|]; [|discriminate].
  destruct (int4in id) as [k|]; [|discriminate].
  destruct (snd (update_where_id (colis db) k bound)) as [|r rows].
  - intros [= <-]. apply same_tables_refl.
  - destruct (forallb _ bound); discriminate.
Qed.

Lemma update_creneaux_none db id sets db' :
  update_creneaux db id sets = Some ([], db') -> same_tables db db'.
Proof.
  unfold update_creneaux.
  destruct (bind_sets creneaux_int_col sets) as [bound|]; [|discriminate].
  destruct (int4in id) as [k|]; [|discriminate].
  intros [= E <-]. repeat split. cbn [creneaux_expedition].
  now apply update_where_id_none.
Qed.

Lemma update_reservations_none db id sets db' :
  update_reservations db id sets = Some ([], db') -> same_tables db db'.
Proof.
  unfold update_reservations.
  destruct (bind_sets (fun _ => false) sets) as [bound|]; [|discriminate].
  destruct (int4in id) as [k|]; [|discriminate].
  intros [= E <-]. repeat split. cbn [reservations].
  now apply update_where_id_none.
Qed.

Lemma updated_refused nf res db :
  (forall db', res = Some ([], db') -> same_tables db db') ->
  accepted (fst (updated nf res db)) = false ->
  same_tables db (snd (updated nf res db)).
Proof.
  intros H. destruct res as [[[|r rows] db']|]; cbn.
  - intros _. now apply H.
  - discriminate.
  - intros _. apply same_tables_refl.
Qed.

Lemma reservations_error_refused out db :
  (accepted (fst out) = false -> same_tables db (snd out)) ->
  accepted (fst (reservations_error out)) = false ->
  same_tables db (snd (reservations_error out)).
Proof. destruct out as [[s b|] d]; cbn; auto. Qed.

(** The validations in front of a statement: each of them answers with an
    error and the store as it was. *)
Ltac refuse :=
  repeat match goal with
         | |- accepted (fst (if ?b then _ else _)) = false -> _ =>
             destruct b; [intros _; apply same_tables_refl|]
         | |- accepted (fst (match ?x with Some _ => _ | None => _ end)) = false
              -> _ =>
             destruct x; [intros _; apply same_tables_refl|]
         end.

Lemma post_colis_refusal sle db body now frac :
  accepted (fst (post_colis sle db body now frac)) = false ->
  same_tables db (snd (post_colis sle db body now frac)).
Proof.
  unfold post_colis. refuse.
  destruct (bind_int (prop "creneau_id" body)) as [v|];
    [|intros _; apply same_tables_refl].
  unfold insert_colis. destruct (fk_creneau db v); cbn; [discriminate|].
  intros _. repeat split.
Qed.

Lemma put_colis_refusal sle db id u :
  accepted (fst (put_colis sle db id u)) = false ->
  same_tables db (snd (put_colis sle db id u)).
Proof.
  unfold put_colis. refuse. apply updated_refused. apply update_colis_none.
Qed.

Lemma patch_colis_refusal sle db id u :
  accepted (fst (patch_colis sle db id u)) = false ->
  same_tables db (snd (patch_colis sle db id u)).
Proof.
  unfold patch_colis. refuse. apply updated_refused. apply update_colis_none.
Qed.

Lemma delete_colis_refusal db id :
  accepted (fst (delete_colis db id)) = false ->
  same_tables db (snd (delete_colis db id)).
Proof.
  unfold delete_colis. refuse.
  destruct (int4in id) as [k|]; [|intros _; apply same_tables_refl].
  cbv zeta. destruct (snd (delete_where (colis db) (has_id k)));
    [intros _; apply same_tables_refl | discriminate].
Qed.

Lemma post_creneau_refusal sle db nextval body :
  accepted (fst (post_creneau sle db nextval body)) = false ->
  same_tables db (snd (post_creneau sle db nextval body)).
Proof.
  unfold post_creneau. refuse.
  destruct (bind_int (prop "capacite_max" body));
    [discriminate | intros _; apply same_tables_refl].
Qed.

Lemma put_creneau_refusal sle db id u :
  accepted (fst (put_creneau sle db id u)) = false ->
  same_tables db (snd (put_creneau sle db id u)).
Proof.
  unfold put_creneau. refuse. apply updated_refused. apply update_creneaux_none.
Qed.

Lemma patch_creneau_refusal sle db id u :
  accepted (fst (patch_creneau sle db id u)) = false ->
  same_tables db (snd (patch_creneau sle db id u)).
Proof.
  unfold patch_creneau. refuse. apply updated_refused. apply update_creneaux_none.
Qed.

Lemma delete_creneau_refusal db id :
  accepted (fst (delete_creneau db id)) = false ->
  same_tables db (snd (delete_creneau db id)).
Proof.
  unfold delete_creneau. refuse.
  destruct (int4in id) as [k|]; [|intros _; apply same_tables_refl].
  refuse. cbv zeta.
  destruct (snd (delete_where (creneaux_expedition db) (has_id k)));
    [intros _; apply same_tables_refl | discriminate].
Qed.

Lemma post_reservation_refusal sle db nextval body :
  accepted (fst (post_reservation sle db nextval body)) = false ->
  same_tables db (snd (post_reservation sle db nextval body)).
Proof.
  unfold post_reservation. apply reservations_error_refused. refuse. discriminate.
Qed.

Lemma put_reservation_refusal sle db id u :
  accepted (fst (put_reservation sle db id u)) = false ->
  same_tables db (snd (put_reservation sle db id u)).
Proof.
  unfold put_reservation. apply reservations_error_refused. refuse.
  apply updated_refused. apply update_reservations_none.
Qed.

Lemma patch_reservation_refusal sle db id u :
  accepted (fst (patch_reservation sle db id u)) = false ->
  same_tables db (snd (patch_reservation sle db id u)).
Proof.
  unfold patch_reservation. apply reservations_error_refused. refuse.
  apply updated_refused. apply update_reservations_none.
Qed.

Lemma delete_reservation_refusal db id :
  accepted (fst (delete_reservation db id)) = false ->
  same_tables db (snd (delete_reservation db id)).
Proof.
  unfold delete_reservation. apply reservations_error_refused. refuse.
  destruct (int4in id) as [k|]; [|intros _; apply same_tables_refl].
  cbv zeta. destruct (snd (delete_where (reservations db) (has_id k)));
    [intros _; apply same_tables_refl | discriminate].
Qed.

Lemma delete_reservations_refusal db body :
  accepted (fst (delete_reservations db body)) = false ->
  same_tables db (snd (delete_reservations db body)).
Proof.
  unfold delete_reservations. apply reservations_error_refused.
  destruct (prop "ids" body) as [[| | | |ids|]|];
    try (intros _; apply same_tables_refl).
  refuse. destruct (bind_ids (validIds ids));
    [discriminate | intros _; apply same_tables_refl].
Qed.

(** X18. A request that is not granted changes no table: whenever a create,
    an update or a delete route answers with anything but 200 or 201 - a
    validation error, a missing row, a conflict, a failing statement - the
    reservations, the slots and the packages are what they were before. *)
Theorem refusal_keeps_tables sle db id u nextval now frac :
  let kept (out : response * store) :=
    accepted (fst out) = false -> same_tables db (snd out) in
  kept (post_colis sle db u now frac)
  /\ kept (put_colis sle db id u)
  /\ kept (patch_colis sle db id u)
  /\ kept (delete_colis db id)
  /\ kept (post_creneau sle db nextval u)
  /\ kept (put_creneau sle db id u)
  /\ kept (patch_creneau sle db id u)
  /\ kept (delete_creneau db id)
  /\ kept (post_reservation sle db nextval u)
  /\ kept (put_reservation sle db id u)
  /\ kept (patch_reservation sle db id u)
  /\ kept (delete_reservation db id)
  /\ kept (delete_reservations db u).
Proof.
  cbv zeta.
  split; [apply post_colis_refusal|]. split; [apply put_colis_refusal|].
  split; [apply patch_colis_refusal|]. split; [apply delete_colis_refusal|].
  split; [apply post_creneau_refusal|]. split; [apply put_creneau_refusal|].
  split; [apply patch_creneau_refusal|]. split; [apply delete_creneau_refusal|].
  split; [apply post_reservation_refusal|].
  split; [apply put_reservation_refusal|].
  split; [apply patch_reservation_refusal|].
  split; [apply delete_reservation_refusal|].
  apply delete_reservations_refusal.
Qed.

(** *** Failing statements *)



(** *** Replacing and deleting a reservation *)

Lemma reservation_values_written u :
  bind_sets (fun _ => false) (reservation_values u)
  = Some (written "" JNull reservations_allowedFields u).
Proof.
  change (reservation_values u) with (sets_of reservations_allowedFields u).
  rewrite bind_sets_any. reflexivity.
Qed.

(** X20. The full update of a reservation replaces its ten fields and
    nothing else: given the id of a stored reservation and a payload that
    passes the validation, the answer is the row with each of the ten fields
    set to the value of the payload - the return date to NULL when the
    payload has none - and its other columns as they were, its id included;
    that row is stored and the other reservations stay. *)
Theorem put_reservation_replaces sle db id k r u :
  int4in id = Some k -> primary_key (reservations db) ->
  In r (reservations db) -> col "id" r = JNum k ->
  missing_field reservations_required u = None ->
  includes validClasses (prop "classe" u) = true ->
  le0 sle (prop "nombre_passagers" u) = false ->
  exists r' db',
    put_reservation sle db id u = (Reply 200 (JObj r'), db')
    /\ In r' (reservations db')
    /\ col "id" r' = JNum k
    /\ (forall f, In f reservations_allowedFields -> col f r' = bind_any (prop f u))
    /\ (prop "date_retour" u = None -> col "date_retour" r' = JNull)
    /\ (forall c, ~ In c reservations_allowedFields -> col c r' = col c r)
    /\ (forall r0, In r0 (reservations db) -> col "id" r0 <> JNum k ->
                   In r0 (reservations db')).
Proof.
  intros Hk Hpk Hin Hid M C P.
  set (w := written "" JNull reservations_allowedFields u).
  assert (Hf : forall f, In f reservations_allowedFields ->
                         col f (assign w r) = bind_any (prop f u)).
  { intros f Hf. unfold w. rewrite (proj1 (col_written _ _ _ _ _ _)) by exact Hf.
    destruct (String.eqb f "") eqn:E; [|reflexivity].
    apply String.eqb_eq in E. subst f. simpl in Hf. intuition discriminate. }
  assert (Ho : forall c, ~ In c reservations_allowedFields ->
                         col c (assign w r) = col c r).
  { intros c Hc. now apply (proj2 (col_written _ _ _ _ _ _)). }
  exists (assign w r),
         (mkStore (replace_id k w (reservations db)) (creneaux_expedition db)
                  (colis db) (colis_id_seq db)).
  split; [|split; [|split; [|split; [|split; [|split]]]]].
  - unfold put_reservation. rewrite (int4in_valid_id _ _ Hk), M, C, P.
    cbn [negb]. unfold update_reservations, update_where_id.
    rewrite reservation_values_written, Hk. cbn [fst snd].
    rewrite (filter_has_id_unique k r) by (try apply has_id_true; assumption).
    reflexivity.
  - cbn [reservations]. apply replace_id_in; [assumption | now apply has_id_true].
  - rewrite Ho; [exact Hid|]. simpl. intuition discriminate.
  - exact Hf.
  - intros N. rewrite Hf by (simpl; tauto). now rewrite N.
  - exact Ho.
  - intros r0 H0 Hne. cbn [reservations]. now apply replace_id_other_rows.
Qed.

(** X21. Deleting a reservation by id removes that reservation and nothing
    else and returns it; afterwards, reading it and deleting it again both
    answer 404.  With no reservation of that id the answer is 404 and the
    store is unchanged. *)
Theorem delete_reservation_by_id db id k :
  int4in id = Some k -> primary_key (reservations db) ->
  (forall r,
      In r (reservations db) -> col "id" r = JNum k ->
      exists db',
        delete_reservation db id
        = (Reply 200 (JObj [("message", JStr "Réservation supprimée");
                            ("deletedReservation", JObj r)]), db')
        /\ (forall r0, In r0 (reservations db') <-> In r0 (reservations db) /\ r0 <> r)
        /\ creneaux_expedition db' = creneaux_expedition db
        /\ colis db' = colis db
        /\ get_reservation db' id = error 404 "Réservation non trouvée"
        /\ delete_reservation db' id = (error 404 "Réservation non trouvée", db'))
  /\ ((forall r, In r (reservations db) -> col "id" r <> JNum k) ->
      delete_reservation db id = (error 404 "Réservation non trouvée", db)
      /\ get_reservation db id = error 404 "Réservation non trouvée").
Proof.
  intros Hk Hpk. split.
  - intros r Hin Hid.
    assert (Hc : has_id k r = true) by now apply has_id_true.
    set (rest := filter (fun r0 => negb (has_id k r0)) (reservations db)).
    assert (Hrest : forall r0, In r0 rest <-> In r0 (reservations db) /\ r0 <> r).
    { intros r0. unfold rest. rewrite filter_In. split.
      - intros [Hr Hn]. split; [assumption|]. intros ->. now rewrite Hc in Hn.
      - intros [Hr Hn]. split; [assumption|].
        now rewrite (primary_key_other_ids k r (reservations db) r0). }
    assert (Hgone : forall r0, In r0 rest -> has_id k r0 = false).
    { intros r0 Hr. apply Hrest in Hr as [Hr Hn].
      now apply (primary_key_other_ids k r (reservations db) r0). }
    exists (mkStore rest (creneaux_expedition db) (colis db) (colis_id_seq db)).
    split; [|split; [|split; [|split; [|split]]]];
      try reflexivity; try exact Hrest.
    + unfold delete_reservation. rewrite (int4in_valid_id _ _ Hk), Hk.
      unfold delete_where. cbn [fst snd].
      now rewrite (filter_has_id_unique k r) by assumption.
    + unfold get_reservation. rewrite (int4in_valid_id _ _ Hk), Hk.
      cbn [reservations]. now rewrite (filter_none _ rest Hgone).
    + unfold delete_reservation. rewrite (int4in_valid_id _ _ Hk), Hk.
      unfold delete_where. cbn [fst snd reservations].
      now rewrite (filter_none _ rest Hgone).
  - intros Hno. split.
    + unfold delete_reservation. rewrite (int4in_valid_id _ _ Hk), Hk.
      unfold delete_where. cbn [fst snd]. now rewrite no_id_no_row.
    + now apply (get_reservation_absent db id k).
Qed.

(** *** Values outside an enumeration *)

(** X22. The class check of the partial update of a reservation is put
    behind [updates.classe &&]: a payload whose class is a non-empty text
    outside the three classes is always refused with 400 and changes nothing,
    whereas the empty text goes round the check and is stored as the class
    of the reservation. *)
Theorem patch_class_check sle db id u :
  (forall c, prop "classe" u = Some (JStr c) -> c <> "" -> ~ In c validClasses ->
             exists msg, patch_reservation sle db id u = (error 400 msg, db))
  /\ (forall k r,
         prop "classe" u = Some (JStr "") ->
         int4in id = Some k -> primary_key (reservations db) ->
         In r (reservations db) -> col "id" r = JNum k ->
         truthy (prop "nombre_passagers" u) && le0 sle (prop "nombre_passagers" u)
         = false ->
         exists r' db',
           patch_reservation sle db id u = (Reply 200 (JObj r'), db')
           /\ In r' (reservations db')
           /\ col "id" r' = JNum k
           /\ col "classe" r' = JStr ""
           /\ includes validClasses (Some (col "classe" r')) = false).
Proof.
  split.
  - intros c E Hc Hv. unfold patch_reservation.
    destruct (invalid_id id); [eexists; reflexivity|].
    destruct (_ =? _)%nat; [eexists; reflexivity|].
    destruct (_ =? _)%nat; [eexists; reflexivity|].
    assert (X : present_and_invalid validClasses (prop "classe" u) = true).
    { rewrite E. unfold present_and_invalid. cbn [truthy includes].
      apply andb_true_iff. split; apply negb_true_iff.
      - now apply String.eqb_neq.
      - apply not_true_is_false. intros X. now apply existsb_eqb_in in X. }
    rewrite X. eexists. reflexivity.
  - intros k r E Hk Hpk Hin Hid P.
    assert (Hf : In "classe" (fieldsToUpdate reservations_allowedFields u)).
    { apply in_fieldsToUpdate. split; [now apply (prop_in_keys _ _ _ E)|].
      simpl. tauto. }
    assert (Hne : fieldsToUpdate reservations_allowedFields u <> [])
      by (intros X; now rewrite X in Hf).
    assert (Hv : reservation_patch_valid sle u = true).
    { unfold reservation_patch_valid. rewrite P, E. reflexivity. }
    set (w := written "" JNull (fieldsToUpdate reservations_allowedFields u) u).
    assert (Hc : col "classe" (assign w r) = JStr "").
    { unfold w. rewrite (proj1 (col_written _ _ _ _ _ _)) by exact Hf.
      cbn [String.eqb]. now rewrite E. }
    exists (assign w r),
           (mkStore (replace_id k w (reservations db)) (creneaux_expedition db)
                    (colis db) (colis_id_seq db)).
    split; [|split; [|split; [|split]]].
    + now apply patch_reservation_ok.
    + cbn [reservations]. apply replace_id_in; [assumption | now apply has_id_true].
    + unfold w. rewrite (proj2 (col_written _ _ _ _ _ _)); [exact Hid|].
      intros X. apply in_fieldsToUpdate in X as [_ X]. simpl in X.
      intuition discriminate.
    + exact Hc.
    + now rewrite Hc.
Qed.

(** *** The capacity of a slot that holds packages *)

(** X23. The partial update of a slot sets a new capacity without a look at
    the packages of the slot: a positive capacity [n] is accepted whatever
    the number of packages assigned, and the slot is then read with
    [places_restantes] the decimal text of [n - count], a negative number
    when [n] is below the count. *)
Theorem patch_capacity_unchecked sle db id k ce u n :
  int4in id = Some k -> primary_key (creneaux_expedition db) ->
  (forall c, In c (colis db) -> col "id" c <> JNull) ->
  In ce (creneaux_expedition db) -> col "id" ce = JNum k ->
  prop "capacite_max" u = Some (JNum n) -> in_int4 n = true ->
  creneau_patch_valid sle u = true ->
  exists ce' db' r,
    patch_creneau sle db id u = (Reply 200 (JObj ce'), db')
    /\ col "capacite_max" ce' = JNum n
    /\ colis db' = colis db
    /\ get_creneau db' id = Reply 200 (JObj r)
    /\ col "nombre_colis_actuels" r = JStr (dec (count_colis_of db k))
    /\ col "places_restantes" r = JStr (dec (n - count_colis_of db k)).
Proof.
  intros Hk Hpk Hn Hin Hid E R Hv.
  assert (Hf : In "capacite_max" (fieldsToUpdate creneaux_allowedFields u)).
  { apply in_fieldsToUpdate. split; [now apply (prop_in_keys _ _ _ E)|].
    simpl. tauto. }
  assert (Hne : fieldsToUpdate creneaux_allowedFields u <> [])
    by (intros X; now rewrite X in Hf).
  assert (Hb : bind_int (prop "capacite_max" u) = Some (JNum n))
    by (rewrite E; cbn [bind_int]; now rewrite R).
  set (w := written "capacite_max" (JNum n)
                    (fieldsToUpdate creneaux_allowedFields u) u).
  assert (Hnoid : ~ In "id" (map fst w)).
  { unfold w. rewrite written_fst. intros X.
    apply in_fieldsToUpdate in X as [_ X]. simpl in X. intuition discriminate. }
  assert (Hc : col "capacite_max" (assign w ce) = JNum n).
  { unfold w. now rewrite (proj1 (col_written _ _ _ _ _ _)) by exact Hf. }
  assert (Hid' : col "id" (assign w ce) = JNum k)
    by (rewrite col_assign_other by exact Hnoid; exact Hid).
  set (db' := mkStore (reservations db) (replace_id k w (creneaux_expedition db))
                      (colis db) (colis_id_seq db)).
  exists (assign w ce), db', (with_usage (assign w ce, count_colis_of db k)).
  split; [|split; [|split; [|split; [|split]]]].
  - now apply patch_creneau_ok.
  - exact Hc.
  - reflexivity.
  - apply (get_creneau_found db' id k (assign w ce)); try assumption.
    + cbn [db' creneaux_expedition].
      apply (primary_key_same_ids (creneaux_expedition db)); [|exact Hpk].
      now apply replace_id_keeps.
    + cbn [db' creneaux_expedition].
      apply replace_id_in; [assumption | now apply has_id_true].
  - apply with_usage_count.
  - now apply with_usage_remaining.
Qed.

(** *** Counting *)

Lemma list_answer_total q total (ordered : list row) body :
  list_answer q total ordered = Reply 200 body ->
  exists rows p l, body = page_of rows (pagination p l total).
Proof.
  intros H.
  destruct (list_answer_inv _ _ _ _ _ H) as (p & l & _ & _ & _ & _ & _ & _ & ->).
  now eexists _, p, l.
Qed.

(** X24. The count routes agree with the lists and follow the creations:
    the count of a table is the [total] that its list reports when the
    request has no search (and, for the packages, no status filter), and it
    is one more after a package, a slot or a reservation was created. *)
Theorem count_routes sle db q :
  search_pattern q = None -> statut q = None ->
  (forall body,
      get_reservations db q = Reply 200 body ->
      exists rows p l n,
        body = page_of rows (pagination p l n)
        /\ count_reservations db = Reply 200 (JObj [("count", JNum n)]))
  /\ (forall body,
         get_creneaux db q = Reply 200 body ->
         exists rows p l n,
           body = page_of rows (pagination p l n)
           /\ count_creneaux db = Reply 200 (JObj [("count", JNum n)]))
  /\ (forall body,
         get_colis db q = Reply 200 body ->
         exists rows p l n,
           body = page_of rows (pagination p l n)
           /\ count_colis db = Reply 200 (JObj [("count", JNum n)]))
  /\ (forall body now frac r db',
         post_colis sle db body now frac = (Reply 201 (JObj r), db') ->
         count_colis db'
         = Reply 200 (JObj [("count", JNum (Z.of_nat (List.length (colis db)) + 1))]))
  /\ (forall nextval body r db',
         post_creneau sle db nextval body = (Reply 201 (JObj r), db') ->
         count_creneaux db'
         = Reply 200 (JObj [("count",
                             JNum (Z.of_nat (List.length (creneaux_expedition db))
                                   + 1))]))
  /\ (forall nextval body r db',
         post_reservation sle db nextval body = (Reply 201 (JObj r), db') ->
         count_reservations db'
         = Reply 200 (JObj [("count",
                             JNum (Z.of_nat (List.length (reservations db)) + 1))])).
Proof.
  intros S T.
  assert (one_more : forall (t : table) r,
             Z.of_nat (List.length (t ++ [r])) = Z.of_nat (List.length t) + 1).
  { intros t r. rewrite length_app. cbn [List.length]. lia. }
  split; [|split; [|split; [|split; [|split]]]].
  - intros body H. apply get_reservations_answer, list_answer_total in H.
    destruct H as (rows & p & l & ->). eexists rows, p, l, _. split; [reflexivity|].
    unfold count_reservations, count_answer. do 5 f_equal.
    rewrite filter_all; [reflexivity|].
    intros r _. unfold reservations_where. now rewrite S.
  - intros body H. unfold get_creneaux, count_creneaux_where in H.
    rewrite S in H. apply list_answer_total in H.
    destruct H as (rows & p & l & ->). eexists rows, p, l, _. split; reflexivity.
  - intros body H. unfold get_colis in H. apply list_answer_total in H.
    destruct H as (rows & p & l & ->). eexists rows, p, l, _. split; [reflexivity|].
    unfold count_colis, count_answer. do 5 f_equal.
    rewrite filter_all; [reflexivity|].
    intros r _. unfold colis_where. now rewrite S, T.
  - intros body now frac r db' H.
    destruct (post_colis_inv _ _ _ _ _ _ _ H) as (v & _ & _ & _ & _ & _ & ->).
    unfold count_colis, count_answer. cbn [colis]. now rewrite one_more.
  - intros nextval body r db' H.
    destruct (post_creneau_inv _ _ _ _ _ _ H) as (cm & _ & _ & _ & _ & _ & ->).
    unfold count_creneaux, count_answer. cbn [creneaux_expedition].
    now rewrite one_more.
  - intros nextval body r db' H.
    destruct (post_reservation_inv _ _ _ _ _ _ H) as (_ & _ & _ & _ & ->).
    unfold count_reservations, count_answer. cbn [reservations].
    now rewrite one_more.
Qed.

(** *** Searching *)

Lemma like_percent p t :
  like (String "%" p) t
  = like p t || match t with
                | String _ t' => like (String "%" p) t'
                | EmptyString => false
                end.
Proof. destruct t; reflexivity. Qed.

Lemma like_plain c p d t :
  plain c = true -> like (String c p) (String d t) = Ascii.eqb c d && like p t.
Proof.
  unfold plain. intros H. apply negb_true_iff in H.
  apply orb_false_iff in H as [H H3]. apply orb_false_iff in H as [H1 H2].
  cbn [like]. now rewrite H1, H2, H3.
Qed.

Lemma like_all t : like "%" t = true.
Proof.
  induction t as [|c t IH]; rewrite like_percent; [reflexivity|].
  rewrite IH. apply orb_true_r.
Qed.

Lemma like_within p a t : like p t = true -> like (String "%" p) (a ++ t)%string = true.
Proof.
  intros H. induction a as [|c a IH]; rewrite like_percent.
  - cbn [String.append]. now rewrite H.
  - cbn [String.append]. rewrite IH. apply orb_true_r.
Qed.

Lemma like_literal s p t :
  all_chars plain s = true -> like p t = true ->
  like (s ++ p)%string (s ++ t)%string = true.
Proof.
  intros A H. induction s as [|c s IH]; [exact H|].
  cbn [all_chars] in A. apply andb_true_iff in A as [Pc A].
  cbn [String.append]. rewrite like_plain by exact Pc.
  now rewrite Ascii.eqb_refl, IH.
Qed.

Lemma lowercase_app a b : lowercase (a ++ b)%string = (lowercase a ++ lowercase b)%string.
Proof. induction a as [|c a IH]; [reflexivity|]. cbn. now rewrite IH. Qed.

Lemma lower_plain c : plain c = true -> plain (lower c) = true.
Proof.
  unfold lower. destruct ((65 <=? code c)%nat && (code c <=? 90)%nat) eqn:E;
    [|trivial].
  intros _. apply andb_true_iff in E as [E1 E2]. apply Nat.leb_le in E1, E2.
  unfold plain, code. rewrite nat_ascii_embedding by (unfold code in *; lia).
  unfold code in *.
  apply negb_true_iff, orb_false_iff. split; [apply orb_false_iff; split|];
    apply Nat.eqb_neq; lia.
Qed.

Lemma lowercase_plain s : all_chars plain s = true -> all_chars plain (lowercase s) = true.
Proof.
  induction s as [|c s IH]; [trivial|]. cbn [all_chars lowercase].
  intros A. apply andb_true_iff in A as [Pc A].
  now rewrite lower_plain, IH.
Qed.

(** A text that holds the search text, in whatever case, matches the
    pattern of the search. *)
Lemma ilike_within s a s' b :
  all_chars plain s = true -> lowercase s' = lowercase s ->
  ilike (JStr (a ++ s' ++ b)) ("%" ++ s ++ "%")%string = true.
Proof.
  intros A E. unfold ilike. cbn [text_of].
  rewrite !lowercase_app, E.
  change (lowercase "%") with "%". cbn [String.append].
  apply like_within, like_literal; [now apply lowercase_plain | apply like_all].
Qed.

(** X25. The search finds what holds the searched text, except among the
    slots.  When the search text has no [%], [_] or backslash, every
    reservation whose last name, first name, email or destination contains it
    - in whatever case - is in the answer, and so is every package by the
    names of its sender and recipient and by its tracking code (when the
    request has no status filter), as long as the first page is long enough
    to hold all the matching rows.  The list of the slots fails under any
    search: its count query names an alias that it does not declare. *)
Theorem search_finds db q s a s' b :
  search q = Some s -> s <> "" ->
  all_chars plain s = true -> lowercase s' = lowercase s ->
  (forall r l,
      In r (reservations db) ->
      In (JStr (a ++ s' ++ b))
         [col "nom" r; col "prenom" r; col "email" r; col "destination" r] ->
      pageNum q = Finite 1 -> limitNum q = Finite l ->
      Z.of_nat (List.length (filter (reservations_where q) (reservations db)))
      <= l ->
      exists rows pag,
        get_reservations db q
        = Reply 200 (JObj [("data", JArr rows); ("pagination", pag)])
        /\ In (JObj r) rows)
  /\ (forall c l,
         primary_key (creneaux_expedition db) ->
         In c (colis db) ->
         In (JStr (a ++ s' ++ b))
            [col "nom_expediteur" c; col "nom_destinataire" c; col "numero_suivi" c] ->
         statut q = None ->
         pageNum q = Finite 1 -> limitNum q = Finite l ->
         Z.of_nat (List.length (filter (colis_where q) (colis db))) <= l ->
         exists rows pag r,
           get_colis db q
           = Reply 200 (JObj [("data", JArr rows); ("pagination", pag)])
           /\ In (JObj r) rows
           /\ forall x, ~ In x slot_columns -> col x r = col x c)
  /\ get_creneaux db q = Next.
Proof.
  intros S Ne A E.
  assert (P : search_pattern q = Some ("%" ++ s ++ "%")%string).
  { unfold search_pattern. rewrite S.
    now rewrite (proj2 (String.eqb_neq s "") Ne). }
  pose proof (ilike_within s a s' b A E) as M.
  assert (Z0 : forall l, (1 - 1) * l < 2 ^ 53)
    by (intros l; change ((1 - 1) * l) with 0; reflexivity).
  split; [|split].
  - intros r l Hin Hr Hp Hl Hall.
    assert (W : reservations_where q r = true).
    { unfold reservations_where. rewrite P. cbn [In] in Hr.
      destruct Hr as [H|[H|[H|[H|[]]]]]; rewrite H, M;
        rewrite ?orb_true_r; reflexivity. }
    unfold get_reservations.
    rewrite (list_answer_safe q _ _ 1 l Hp Hl (Z0 l)).
    change ((1 - 1) * l) with 0. cbn [reservations_error fst snd].
    do 2 eexists. split; [reflexivity|].
    apply in_map. rewrite limit_offset_all by (now rewrite length_order_by).
    apply in_order_by, filter_In. now split.
  - intros c l K Hin Hc T Hp Hl Hall.
    assert (W : colis_where q c = true).
    { unfold colis_where. rewrite P, T. cbn [In] in Hc.
      destruct Hc as [H|[H|[H|[]]]]; rewrite H, M;
        rewrite ?orb_true_r; reflexivity. }
    unfold get_colis.
    rewrite (list_answer_safe q _ _ 1 l Hp Hl (Z0 l)), colis_page_rows.
    change ((1 - 1) * l) with 0.
    rewrite limit_offset_all
      by (now rewrite length_map, length_order_by, length_slot_rows).
    destruct (slot_rows_head (creneaux_expedition db) c) as (o & rest & R & _).
    do 2 eexists. exists (with_creneau (c, o)).
    split; [reflexivity|]. split.
    + apply in_map, in_map, in_order_by, in_flat_map. exists c.
      split; [apply filter_In; now split | rewrite R; now left].
    + intros x Hx. now apply with_creneau_other.
  - now apply (get_creneaux_search db q ("%" ++ s ++ "%")%string).
Qed.

(** *** The order of a page *)

Lemma sql_le_total a b : sql_le a b = false -> sql_le b a = true.
Proof.
  destruct a, b; cbn; try reflexivity; try discriminate.
  - intros H. apply Z.leb_gt in H. apply Z.leb_le. lia.
  - intros H. destruct (String.leb_total s s0) as [X|X]; congruence.
Qed.

Section InsertionSort.
Context {A : Type} (le : A -> A -> bool).
Hypothesis le_total : forall x y, le x y = false -> le y x = true.

Lemma insert_sorted_HdRel x y l :
  le y x = true -> HdRel (fun a b => le a b = true) y l ->
  HdRel (fun a b => le a b = true) y (insert_sorted le x l).
Proof.
  intros Hyx H. destruct l as [|z l]; cbn [insert_sorted].
  - now constructor.
  - destruct (le x z); constructor; [exact Hyx | now inversion H].
Qed.

Lemma insert_sorted_Sorted x l :
  Sorted (fun a b => le a b = true) l ->
  Sorted (fun a b => le a b = true) (insert_sorted le x l).
Proof.
  induction l as [|y l IH]; intros S; cbn [insert_sorted].
  - repeat constructor.
  - destruct (le x y) eqn:E.
    + constructor; [exact S | now constructor].
    + inversion S as [|? ? S' H]; subst. constructor; [now apply IH|].
      apply insert_sorted_HdRel; [now apply le_total | exact H].
Qed.

Lemma sort_Sorted l : Sorted (fun a b => le a b = true) (sort le l).
Proof.
  induction l as [|x l IH]; cbn [sort fold_right]; [constructor|].
  now apply insert_sorted_Sorted.
Qed.

End InsertionSort.

Lemma Sorted_skipn {A} (R : A -> A -> Prop) n l : Sorted R l -> Sorted R (skipn n l).
Proof.
  revert l. induction n as [|n IH]; intros l S; [exact S|].
  destruct l as [|x l]; [constructor|]. cbn [skipn]. apply IH. now inversion S.
Qed.

Lemma Sorted_firstn {A} (R : A -> A -> Prop) n l : Sorted R l -> Sorted R (firstn n l).
Proof.
  revert l. induction n as [|n IH]; intros l S; [constructor|].
  destruct l as [|x l]; [constructor|]. cbn [firstn].
  inversion S as [|? ? S' H]; subst. constructor; [now apply IH|].
  destruct n, l; cbn [firstn]; constructor. now inversion H.
Qed.

Lemma Sorted_map_in {A B} (R : A -> A -> Prop) (R' : B -> B -> Prop) (f : A -> B) l :
  (forall a b, In a l -> In b l -> R a b -> R' (f a) (f b)) ->
  Sorted R l -> Sorted R' (map f l).
Proof.
  intros H S. induction S as [|x l S IH Hd]; cbn [map]; [constructor|].
  constructor.
  - apply IH. intros a b Ia Ib. apply H; now right.
  - destruct Hd as [|y l' Rxy]; cbn [map]; constructor.
    apply H; [now left | right; now left | exact Rxy].
Qed.

Lemma order_by_Sorted {A} (key : A -> jsval) (desc : bool) (l : list A) :
  Sorted (fun a b => (if desc then sql_le (key b) (key a)
                      else sql_le (key a) (key b)) = true)
         (order_by key desc l).
Proof.
  unfold order_by.
  apply (sort_Sorted (fun a b => if desc then sql_le (key b) (key a)
                                 else sql_le (key a) (key b))).
  intros x y. destruct desc; apply sql_le_total.
Qed.

(** The number in a column value. *)
Lemma number_keys {A} (key : A -> jsval) (l : list A) :
  (forall a, In a l -> exists n, key a = JNum n) ->
  map key l = map JNum (map (fun a => match key a with JNum n => n | _ => 0 end) l).
Proof.
  intros H. rewrite map_map. apply map_ext_in. intros a Ha.
  destruct (H a Ha) as [n ->]. reflexivity.
Qed.

(** A page of rows that were ordered by a column of numbers holds these
    numbers in order. *)
Lemma page_in_order {A} (key : A -> jsval) (f : A -> row) c (desc : bool)
    (ascending : Prop) n k (l : list A) :
  (ascending <-> desc = false) ->
  (forall a, In a l -> exists x, key a = JNum x) ->
  (forall a, col c (f a) = key a) ->
  numbers_in_order ascending
    (map (col c) (limit_offset n k (map f (order_by key desc l)))).
Proof.
  intros D N C. rewrite limit_offset_map, map_map.
  rewrite (map_ext _ key) by exact C.
  set (page := limit_offset n k (order_by key desc l)).
  assert (I : forall a, In a page -> exists x, key a = JNum x).
  { intros a Ha. apply N. now apply in_limit_offset, in_order_by in Ha. }
  assert (S : Sorted (fun a b => (if desc then sql_le (key b) (key a)
                                  else sql_le (key a) (key b)) = true) page).
  { unfold page, limit_offset. apply Sorted_firstn, Sorted_skipn, order_by_Sorted. }
  exists (map (fun a => match key a with JNum x => x | _ => 0 end) page).
  split; [now apply number_keys|]. split; intros Asc.
  - apply D in Asc. subst desc.
    refine (Sorted_map_in _ _ _ _ _ S). intros a b Ia Ib. cbv beta.
    destruct (I a Ia) as [x ->], (I b Ib) as [y ->]. cbn [sql_le].
    intros H. now apply Z.leb_le.
  - assert (E : desc = true)
      by (destruct desc; [reflexivity | exfalso; now apply Asc, D]).
    subst desc.
    refine (Sorted_map_in _ _ _ _ _ S). intros a b Ia Ib. cbv beta.
    destruct (I a Ia) as [x ->], (I b Ib) as [y ->]. cbn [sql_le].
    intros H. apply Z.leb_le in H. lia.
Qed.

Lemma toUpperCase_is_ASC_spec s : toUpperCase_is_ASC s = true <-> In s ASC_texts.
Proof.
  split.
  - unfold toUpperCase_is_ASC.
    destruct s as [|a [|b [|c [|d [|e s]]]]]; try discriminate; intros H;
      repeat match goal with
             | H : _ && _ = true |- _ => apply andb_true_iff in H as [? ?]
             | H : _ || _ = true |- _ => apply orb_true_iff in H as [H|H]
             | H : Ascii.eqb _ _ = true |- _ => apply Ascii.eqb_eq in H; subst
             | H : (code ?x =? ?n)%nat = true |- _ =>
                 apply Nat.eqb_eq in H;
                 rewrite <- (ascii_nat_embedding x); unfold code in H; rewrite H;
                 clear H
             end;
      cbv [ASC_texts long_s flat_map map app String.append];
      repeat ((left; reflexivity) || right).
  - cbv [ASC_texts long_s flat_map map app String.append]. cbn [In].
    intros H.
    repeat (destruct H as [<-|H]; [reflexivity|]). contradiction.
Qed.

Lemma asks_ascending_spec q : asks_ascending q <-> sortDesc q = false.
Proof.
  unfold asks_ascending, sortDesc. split.
  - intros (s & -> & I). apply negb_false_iff. now apply toUpperCase_is_ASC_spec.
  - destruct (order q) as [s|]; [|discriminate]. intros H.
    apply negb_false_iff in H. exists s. split; [reflexivity|].
    now apply toUpperCase_is_ASC_spec.
Qed.

Lemma sorts_by_sortColumn allowed q c :
  In "id" allowed -> sorts_by allowed q c -> sortColumn allowed q = c.
Proof.
  intros I [[E A]|[-> [E|(x & E & A)]]]; unfold sortColumn; rewrite E.
  - now rewrite (proj2 (existsb_eqb_in c allowed) A).
  - reflexivity.
  - destruct (existsb (String.eqb x) allowed) eqn:X; [|reflexivity].
    now apply existsb_eqb_in in X.
Qed.

Lemma map_JObj_inj (l l' : list row) : map JObj l = map JObj l' -> l = l'.
Proof.
  revert l'. induction l as [|r l IH]; intros [|r' l'] H; try discriminate;
    [reflexivity|].
  injection H as -> H. f_equal. now apply IH.
Qed.

(** The rows of a list answer. *)
Lemma list_answer_rows q total (ordered : list row) rows pag :
  list_answer q total ordered = Reply 200 (page_of rows pag) ->
  exists n k, rows = limit_offset n k ordered.
Proof.
  intros H.
  destruct (list_answer_inv _ _ _ _ _ H) as (p & l & _ & _ & _ & _ & _ & _ & B).
  unfold page_of in B. injection B as B _. apply map_JObj_inj in B.
  now exists l, (skipped p l).
Qed.

(** X26. A page is in the order that was asked for.  The sort column is the
    one that the request names when the route allows it, and [id] otherwise;
    when that column holds numbers in every row of the table, the numbers of
    the page never decrease if the request gives [order] as ASC (in whatever
    case) and never increase otherwise, in the three lists.  (The order of
    texts depends on the collation of the store and is left out.) *)
Theorem list_sorted db q c rows pag :
  let res_cols := ["id"; "nom"; "prenom"; "email"; "destination"; "date_depart";
                   "created_at"] in
  let colis_cols := ["id"; "nom_expediteur"; "nom_destinataire"; "date_creation";
                     "statut"; "poids"] in
  let slot_cols := ["id"; "lieu_depart"; "destination"; "date_expedition";
                    "heure_depart"; "date_creation"] in
  let numbers (t : table) := forall r, In r t -> exists n, col c r = JNum n in
  (get_reservations db q = Reply 200 (page_of rows pag) ->
   sorts_by res_cols q c -> numbers (reservations db) ->
   numbers_in_order (asks_ascending q) (map (col c) rows))
  /\ (get_colis db q = Reply 200 (page_of rows pag) ->
      sorts_by colis_cols q c -> numbers (colis db) ->
      numbers_in_order (asks_ascending q) (map (col c) rows))
  /\ (get_creneaux db q = Reply 200 (page_of rows pag) ->
      sorts_by slot_cols q c -> numbers (creneaux_expedition db) ->
      primary_key (creneaux_expedition db) ->
      (forall p, In p (colis db) -> col "id" p <> JNull) ->
      numbers_in_order (asks_ascending q) (map (col c) rows)).
Proof.
  intros res_cols colis_cols slot_cols numbers.
  split; [|split]; intros H B N.
  - apply get_reservations_answer, list_answer_rows in H.
    destruct H as (n & k & ->).
    fold res_cols. rewrite (sorts_by_sortColumn res_cols q c) by
        first [exact B | simpl; tauto].
    rewrite <- (map_id (order_by _ _ _)).
    apply (page_in_order (col c) (fun r => r)).
    + apply asks_ascending_spec.
    + intros r Hr. apply filter_In in Hr. now apply N.
    + reflexivity.
  - unfold get_colis in H. rewrite colis_page_rows in H.
    apply list_answer_rows in H. destruct H as (n & k & ->).
    assert (I : In c colis_cols).
    { destruct B as [[_ I]|[-> _]]; [exact I | simpl; tauto]. }
    fold colis_cols. rewrite (sorts_by_sortColumn colis_cols q c) by
        first [exact B | simpl; tauto].
    apply (page_in_order (fun j => col c (fst j)) with_creneau).
    + apply asks_ascending_spec.
    + intros j Hj. apply in_flat_map in Hj as (p & Hp & Hj).
      rewrite (slot_rows_fst _ _ _ Hj). apply filter_In in Hp. now apply N.
    + intros j. apply with_creneau_other.
      cbn [colis_cols In] in I.
      destruct I as [<-|[<-|[<-|[<-|[<-|[<-|[]]]]]]]; cbv; intuition discriminate.
  - intros K Ids.
    pose proof (get_creneaux_answered _ _ _ _ H) as S.
    unfold get_creneaux, count_creneaux_where in H. rewrite S in H.
    rewrite (creneau_groups_spec db _ K Ids) in H.
    apply list_answer_rows in H. destruct H as (n & k & ->).
    assert (I : In c slot_cols).
    { destruct B as [[_ I]|[-> _]]; [exact I | simpl; tauto]. }
    fold slot_cols. rewrite (sorts_by_sortColumn slot_cols q c) by
        first [exact B | simpl; tauto].
    apply (page_in_order (fun g => col c (fst g)) with_usage).
    + apply asks_ascending_spec.
    + intros g Hg. apply in_map_iff in Hg as (ce & <- & Hce).
      apply filter_In in Hce. now apply N.
    + intros [ce m]. cbn [fst]. apply with_usage_other;
        cbn [slot_cols In] in I;
        destruct I as [<-|[<-|[<-|[<-|[<-|[<-|[]]]]]]]; discriminate.
Qed.

(** ** The further properties at work on the small store *)

Lemma demo_within_capacity : within_capacity demo.
Proof.
  intros ce k m Hin Hid _ Hm. simpl in Hin.
  destruct Hin as [<-|[<-|[]]]; cbn in Hid, Hm;
    injection Hid as <-; injection Hm as <-; vm_compute; discriminate.
Defined.

Lemma demo_ids_below : ids_below (colis_id_seq demo) (colis demo).
Proof. repeat constructor; eexists; (split; [reflexivity | reflexivity]). Defined.

Lemma demo_keyed : keyed demo.
Proof.
  split; [exact demo_reservations_key|].
  split; [exact demo_creneaux_key | exact demo_colis_key].
Defined.

Lemma demo_referential : referential demo.
Proof.
  intros c j Hin Hj. simpl in Hin.
  destruct Hin as [<-|[<-|[<-|[]]]]; cbn in Hj; try discriminate;
    injection Hj as <-; exists (demo_creneau 2 2); (split; [simpl; tauto | reflexivity]).
Defined.

(** Creating a package in slot 1, which has room, keeps every slot within
    its capacity. *)
Lemma create_keeps_capacity_witness :
  within_capacity
    (snd (post_colis numeral_le0 demo (demo_body [("creneau_id", JNum 1)])
                     1700000000000 [1; 2; 35; 10]%nat)).
Proof.
  exact (create_keeps_capacity numeral_le0 demo _ _ _ _ _
           demo_creneaux_key demo_colis_ids demo_within_capacity
           (surjective_pairing _)).
Defined.

(** Slot 0 of capacity 1 holds a package, and takes another one. *)
Lemma create_zero_bypasses_witness :
  count_colis_of demo_zero 0 = 1
  /\ exists r,
       post_colis numeral_le0 demo_zero (demo_body [("creneau_id", JNum 0)])
                  1700000000000 [1; 2; 35; 10]%nat
       = (Reply 201 (JObj r),
          mkStore (reservations demo_zero) (creneaux_expedition demo_zero)
                  (colis demo_zero ++ [r]) (colis_id_seq demo_zero + 1))
       /\ col "creneau_id" r = JNum 0
       /\ count_colis_of
            (mkStore (reservations demo_zero) (creneaux_expedition demo_zero)
                     (colis demo_zero ++ [r]) (colis_id_seq demo_zero + 1)) 0
          = count_colis_of demo_zero 0 + 1.
Proof.
  split; [reflexivity|].
  exact (create_zero_bypasses numeral_le0 demo_zero
           (demo_body [("creneau_id", JNum 0)]) 1700000000000 [1; 2; 35; 10]%nat
           (demo_creneau 0 1) eq_refl eq_refl (or_introl eq_refl) eq_refl).
Defined.

Lemma create_keeps_keys_witness :
  primary_key (colis demo_after) /\ ids_below 5 (colis demo_after).
Proof.
  destruct (create_keeps_keys numeral_le0 demo (demo_body [("creneau_id", JNum 1)])
              1700000000000 [1; 2; 35; 10]%nat (Reply 201 (JObj demo_created))
              demo_after demo_colis_key demo_ids_below eq_refl) as (K & B & _).
  split; [exact K | exact B].
Defined.

Lemma created_colis_valid_witness :
  post_colis numeral_le0 demo (demo_body [("creneau_id", JNum 1)]) 1700000000000
             [1; 2; 35; 10]%nat
  = (Reply 201 (JObj demo_created), demo_after)
  /\ includes validPackageTypes (Some (col "type_colis" demo_created)) = true
  /\ includes validPaymentMethods (Some (col "methode_paiement" demo_created)) = true
  /\ (forall n, col "poids" demo_created = JNum n -> 0 < n).
Proof.
  split; [reflexivity|].
  destruct (created_colis_valid numeral_le0 demo
              (demo_body [("creneau_id", JNum 1)]) 1700000000000
              [1; 2; 35; 10]%nat demo_created demo_after eq_refl)
    as (T & M & _ & _ & P).
  split; [exact T|]. split; [exact M | exact P].
Defined.

(** Package 1 is read with the destination of its slot, package 2 (without
    slot) with none, and there is no package 9. *)
Lemma get_colis_by_id_witness :
  (exists r,
      get_colis_id demo "1" = Reply 200 (JObj r)
      /\ col "numero_suivi" r = JStr "COL1A"
      /\ col "destination" r = JStr "Paris")
  /\ (exists r,
         get_colis_id demo "2" = Reply 200 (JObj r)
         /\ col "numero_suivi" r = JStr "COL2B"
         /\ col "destination" r = JNull)
  /\ get_colis_id demo "9" = error 404 "Colis non trouvé".
Proof.
  split; [|split].
  - destruct (get_colis_by_id demo "1" 1 eq_refl demo_colis_key) as [F _].
    destruct (F (demo_colis 1 (JNum 2) "COL1A" "livre") (or_introl eq_refl) eq_refl)
      as (r & E & O & _ & S).
    exists r. split; [exact E|]. split.
    + rewrite O; [reflexivity | cbv; intuition discriminate].
    + rewrite (S 2 (demo_creneau 2 2) demo_creneaux_key eq_refl
                 (or_intror (or_introl eq_refl)) eq_refl);
        [reflexivity | simpl; tauto].
  - destruct (get_colis_by_id demo "2" 2 eq_refl demo_colis_key) as [F _].
    destruct (F (demo_colis 2 JNull "COL2B" "en_transit")
                (or_intror (or_introl eq_refl)) eq_refl)
      as (r & E & O & N & _).
    exists r. split; [exact E|]. split.
    + rewrite O; [reflexivity | cbv; intuition discriminate].
    + apply (N eq_refl). simpl; tauto.
  - destruct (get_colis_by_id demo "9" 9 eq_refl demo_colis_key) as [_ A].
    apply A. simpl. intros c [<-|[<-|[<-|[]]]]; discriminate.
Defined.

Lemma suivi_round_trip_witness :
  exists r',
    get_colis_suivi demo_after (numero_suivi 1700000000000 [1; 2; 35; 10]%nat)
    = Reply 200 (JObj r')
    /\ forall x, ~ In x slot_columns -> col x r' = col x demo_created.
Proof.
  apply (suivi_round_trip numeral_le0 demo (demo_body [("creneau_id", JNum 1)])
           1700000000000 [1; 2; 35; 10]%nat demo_created demo_after eq_refl).
  simpl. intros c [<-|[<-|[<-|[]]]]; reflexivity.
Defined.

Lemma delete_colis_by_id_witness :
  (exists db',
      delete_colis demo "3"
      = (Reply 200 (JObj [("message", JStr "Colis supprimé");
                          ("deletedColis",
                           JObj (demo_colis 3 (JNum 2) "COL3C" "en_attente"))]), db')
      /\ count_colis_of db' 2 = 1
      /\ get_colis_id db' "3" = error 404 "Colis non trouvé")
  /\ delete_colis demo "9" = (error 404 "Colis non trouvé", demo).
Proof.
  destruct (delete_colis_by_id demo "3" 3 eq_refl demo_colis_key) as [F _].
  destruct (delete_colis_by_id demo "9" 9 eq_refl demo_colis_key) as [_ A].
  split.
  - destruct (F (demo_colis 3 (JNum 2) "COL3C" "en_attente")
                (or_intror (or_intror (or_introl eq_refl))) eq_refl)
      as (db' & E & _ & _ & _ & C & G & _).
    exists db'. split; [exact E|]. split; [|exact G].
    rewrite C. reflexivity.
  - apply A. simpl. intros c [<-|[<-|[<-|[]]]]; discriminate.
Defined.

(** Slot 2 is full: a create request is refused, and accepted once package
    1 was deleted. *)
Lemma delete_frees_place_witness :
  (exists msg,
      post_colis numeral_le0 demo (demo_body [("creneau_id", JNum 2)])
                 1700000000000 [1; 2; 35; 10]%nat
      = (error 400 msg, demo))
  /\ exists del db1 r db2,
       delete_colis demo "1" = (Reply 200 del, db1)
       /\ post_colis numeral_le0 db1 (demo_body [("creneau_id", JNum 2)])
                     1700000000000 [1; 2; 35; 10]%nat
          = (Reply 201 (JObj r), db2)
       /\ col "creneau_id" r = JNum 2
       /\ count_colis_of db2 2 = count_colis_of demo 2.
Proof.
  exact (delete_frees_place numeral_le0 demo "1" 1
           (demo_colis 1 (JNum 2) "COL1A" "livre") 2 (demo_creneau 2 2)
           (demo_body [("creneau_id", JNum 2)]) 1700000000000 [1; 2; 35; 10]%nat
           demo_creneaux_key demo_colis_key eq_refl (or_introl eq_refl) eq_refl
           eq_refl (or_intror (or_introl eq_refl)) eq_refl eq_refl eq_refl eq_refl
           eq_refl).
Defined.

Lemma updates_keep_keys_witness :
  keyed (snd (put_colis numeral_le0 demo "1" (demo_body [("creneau_id", JNum 1)])))
  /\ keyed (snd (delete_reservation demo "12")).
Proof.
  destruct (updates_keep_keys numeral_le0 demo "1"
              (demo_body [("creneau_id", JNum 1)]) demo_keyed) as (P & _).
  destruct (updates_keep_keys numeral_le0 demo "12" [] demo_keyed)
    as (_ & _ & _ & _ & _ & _ & _ & _ & D & _).
  split; [exact P | exact D].
Defined.

Lemma delete_creneau_keeps_references_witness :
  referential (snd (delete_creneau demo "1"))
  /\ referential (snd (delete_creneau demo "2")).
Proof.
  split; apply (delete_creneau_keeps_references demo _ demo_referential).
Defined.


(** The packages that are delivered; a status that does not exist is
    ignored. *)
Lemma statut_filter_witness :
  (forall rows pag x,
      get_colis demo (mkQuery None None None (Some "livre") None None)
      = Reply 200 (JObj [("data", JArr rows); ("pagination", pag)]) ->
      In x rows -> exists r, x = JObj r /\ text_eq (col "statut" r) "livre" = true)
  /\ get_colis demo (mkQuery None None None (Some "perdu") None None)
     = get_colis demo demo_query.
Proof.
  split.
  - apply (statut_filter demo (mkQuery None None None (Some "livre") None None)
             "livre" eq_refl).
    simpl. tauto.
  - apply (statut_filter demo (mkQuery None None None (Some "perdu") None None)
             "perdu" eq_refl).
    simpl. intuition discriminate.
Defined.

Lemma read_by_decimal_id_witness :
  get_reservation demo "12" = Reply 200 (JObj (demo_reservation 12 4))
  /\ get_creneau demo "2" = Reply 200 (JObj (with_usage (demo_creneau 2 2, 2))).
Proof.
  destruct (read_by_decimal_id demo 12 eq_refl demo_keyed) as (R & _).
  destruct (read_by_decimal_id demo 2 eq_refl demo_keyed) as (_ & S & _).
  split.
  - apply (R (demo_reservation 12 4)); [simpl; tauto | reflexivity].
  - apply (S (demo_creneau 2 2)); [simpl; tauto | reflexivity].
Defined.

Lemma created_colis_readable_witness :
  exists r',
    get_colis_id demo_after "4" = Reply 200 (JObj r')
    /\ forall x, ~ In x slot_columns -> col x r' = col x demo_created.
Proof.
  exact (created_colis_readable numeral_le0 demo
           (demo_body [("creneau_id", JNum 1)]) 1700000000000 [1; 2; 35; 10]%nat
           demo_created demo_after demo_colis_key demo_ids_below eq_refl eq_refl).
Defined.

Lemma created_reservation_witness :
  post_reservation numeral_le0 demo 13 demo_reservation_body
  = (Reply 201 (JObj demo_reservation_created),
     mkStore (reservations demo ++ [demo_reservation_created])
             (creneaux_expedition demo) (colis demo) 4)
  /\ col "date_retour" demo_reservation_created = JNull
  /\ (forall n, col "nombre_passagers" demo_reservation_created = JNum n -> 0 < n)
  /\ get_reservation
       (mkStore (reservations demo ++ [demo_reservation_created])
                (creneaux_expedition demo) (colis demo) 4) "13"
     = Reply 200 (JObj demo_reservation_created).
Proof.
  split; [reflexivity|].
  destruct (created_reservation numeral_le0 demo 13 demo_reservation_body
              demo_reservation_created
              (mkStore (reservations demo ++ [demo_reservation_created])
                       (creneaux_expedition demo) (colis demo) 4) eq_refl)
    as (_ & _ & _ & _ & P & D & _ & _ & _ & G).
  split; [exact D|]. split; [exact P|].
  apply (G eq_refl demo_reservations_key).
  simpl. intros r0 [<-|[<-|[<-|[]]]]; discriminate.
Defined.

Lemma created_creneau_witness :
  post_creneau numeral_le0 demo 3 demo_creneau_body
  = (Reply 201 (JObj demo_creneau_created), demo_with_slot)
  /\ col "type_transport" demo_creneau_created = JStr "standard"
  /\ exists r,
       get_creneau demo_with_slot "3" = Reply 200 (JObj r)
       /\ col "nombre_colis_actuels" r = JStr "0"
       /\ col "places_restantes" r = JStr "1".
Proof.
  split; [reflexivity|].
  destruct (created_creneau numeral_le0 demo 3 demo_creneau_body
              demo_creneau_created demo_with_slot eq_refl)
    as (_ & _ & _ & _ & T & _ & _ & _ & G).
  split; [exact (T eq_refl)|].
  destruct (G eq_refl demo_creneaux_key) as (r & E & C & P).
  - simpl. intros ce0 [<-|[<-|[]]]; discriminate.
  - exact demo_colis_ids.
  - exists r. split; [exact E|]. split; [exact C | exact (P 1 eq_refl)].
Defined.

(** The new slot 3 of capacity 1 takes one package and refuses the next. *)
Lemma new_slot_fills_up_witness :
  exists r db2,
    post_colis numeral_le0 demo_with_slot (demo_body [("creneau_id", JNum 3)])
               1700000000000 [1; 2; 35; 10]%nat
    = (Reply 201 (JObj r), db2)
    /\ col "creneau_id" r = JNum 3
    /\ count_colis_of db2 3 = 1
    /\ exists msg,
         post_colis numeral_le0 db2 (demo_body [("creneau_id", JNum 3)])
                    1700000000001 [7; 7]%nat
         = (error 400 msg, db2).
Proof.
  destruct (new_slot_fills_up numeral_le0 demo 3 demo_creneau_body
              demo_creneau_created demo_with_slot 1
              (demo_body [("creneau_id", JNum 3)]) 1700000000000 [1; 2; 35; 10]%nat
              (demo_body [("creneau_id", JNum 3)]) 1700000000001 [7; 7]%nat
              demo_creneaux_key demo_colis_ids)
    as (r & db2 & E & C & N & F);
    try reflexivity.
  - simpl. intros ce0 [<-|[<-|[]]]; discriminate.
  - simpl. intros c [<-|[<-|[<-|[]]]]; discriminate.
  - discriminate.
  - exists r, db2. split; [exact E|]. split; [exact C|]. split; [exact N|].
    exact (F eq_refl).
Defined.

(** Slot 2 holds packages: its deletion is refused and changes nothing. *)
Lemma refusal_keeps_tables_witness :
  accepted (fst (delete_creneau demo "2")) = false
  /\ same_tables demo (snd (delete_creneau demo "2"))
  /\ same_tables demo
       (snd (patch_reservation numeral_le0 demo "1" [("classe", JStr "Invalide")])).
Proof.
  destruct (refusal_keeps_tables numeral_le0 demo "2" [] 0 0 [])
    as (_ & _ & _ & _ & _ & _ & _ & D & _).
  destruct (refusal_keeps_tables numeral_le0 demo "1" [("classe", JStr "Invalide")]
              0 0 [])
    as (_ & _ & _ & _ & _ & _ & _ & _ & _ & _ & P & _).
  split; [reflexivity|]. split; [exact (D eq_refl) | exact (P eq_refl)].
Defined.


Lemma put_reservation_replaces_witness :
  exists r' db',
    put_reservation numeral_le0 demo "2" demo_reservation_body
    = (Reply 200 (JObj r'), db')
    /\ col "id" r' = JNum 2
    /\ col "nom" r' = JStr "Sow"
    /\ col "date_retour" r' = JNull.
Proof.
  destruct (put_reservation_replaces numeral_le0 demo "2" 2 (demo_reservation 2 1)
              demo_reservation_body eq_refl demo_reservations_key
              (or_intror (or_introl eq_refl)) eq_refl eq_refl eq_refl eq_refl)
    as (r' & db' & E & _ & I & F & D & _).
  exists r', db'. split; [exact E|]. split; [exact I|].
  split; [|exact (D eq_refl)].
  rewrite F; [reflexivity | simpl; tauto].
Defined.

Lemma delete_reservation_by_id_witness :
  (exists db',
      delete_reservation demo "12"
      = (Reply 200 (JObj [("message", JStr "Réservation supprimée");
                          ("deletedReservation", JObj (demo_reservation 12 4))]),
         db')
      /\ get_reservation db' "12" = error 404 "Réservation non trouvée")
  /\ delete_reservation demo "5" = (error 404 "Réservation non trouvée", demo).
Proof.
  destruct (delete_reservation_by_id demo "12" 12 eq_refl demo_reservations_key)
    as [F _].
  destruct (delete_reservation_by_id demo "5" 5 eq_refl demo_reservations_key)
    as [_ A].
  split.
  - destruct (F (demo_reservation 12 4)
                (or_intror (or_intror (or_introl eq_refl))) eq_refl)
      as (db' & E & _ & _ & _ & G & _).
    exists db'. split; [exact E | exact G].
  - apply A. simpl. intros r [<-|[<-|[<-|[]]]]; discriminate.
Defined.

Lemma patch_class_check_witness :
  (exists msg,
      patch_reservation numeral_le0 demo "1" [("classe", JStr "Invalide")]
      = (error 400 msg, demo))
  /\ exists r' db',
       patch_reservation numeral_le0 demo "1" [("classe", JStr "")]
       = (Reply 200 (JObj r'), db')
       /\ col "classe" r' = JStr "".
Proof.
  split.
  - destruct (patch_class_check numeral_le0 demo "1" [("classe", JStr "Invalide")])
      as [R _].
    apply (R "Invalide" eq_refl); [discriminate | simpl; intuition discriminate].
  - destruct (patch_class_check numeral_le0 demo "1" [("classe", JStr "")])
      as [_ S].
    destruct (S 1 (demo_reservation 1 2) eq_refl eq_refl demo_reservations_key
                (or_introl eq_refl) eq_refl eq_refl)
      as (r' & db' & E & _ & _ & C & _).
    exists r', db'. split; [exact E | exact C].
Defined.

(** Slot 2 holds two packages; its capacity is set to 1. *)
Lemma patch_capacity_unchecked_witness :
  exists ce' db' r,
    patch_creneau numeral_le0 demo "2" [("capacite_max", JNum 1)]
    = (Reply 200 (JObj ce'), db')
    /\ col "capacite_max" ce' = JNum 1
    /\ get_creneau db' "2" = Reply 200 (JObj r)
    /\ col "nombre_colis_actuels" r = JStr "2"
    /\ col "places_restantes" r = JStr "-1".
Proof.
  destruct (patch_capacity_unchecked numeral_le0 demo "2" 2 (demo_creneau 2 2)
              [("capacite_max", JNum 1)] 1 eq_refl demo_creneaux_key
              demo_colis_ids (or_intror (or_introl eq_refl)) eq_refl eq_refl
              eq_refl eq_refl)
    as (ce' & db' & r & E & C & _ & G & N & P).
  exists ce', db', r. split; [exact E|]. split; [exact C|]. split; [exact G|].
  split; [exact N | exact P].
Defined.

Lemma count_routes_witness :
  count_colis demo = Reply 200 (JObj [("count", JNum 3)])
  /\ count_colis demo_after = Reply 200 (JObj [("count", JNum 4)])
  /\ exists rows p l n,
       get_reservations demo demo_query
       = Reply 200 (page_of rows (pagination p l n))
       /\ count_reservations demo = Reply 200 (JObj [("count", JNum n)]).
Proof.
  destruct (count_routes numeral_le0 demo demo_query eq_refl eq_refl)
    as (R & _ & _ & C & _).
  split; [reflexivity|]. split.
  - apply (C (demo_body [("creneau_id", JNum 1)]) 1700000000000
             [1; 2; 35; 10]%nat demo_created demo_after eq_refl).
  - destruct (R (match get_reservations demo demo_query with
                  | Reply _ b => b
                  | Next => JNull
                  end) eq_refl) as (rows & p & l & n & B & E).
    exists rows, p, l, n. split; [|exact E].
    rewrite <- B. exact eq_refl.
Defined.

(** The search for ["dial"] finds the reservations of Diallo and the search
    for ["bin"] the packages for Binta; the search for ["dakar"] fails on the
    slots, which all leave from Dakar. *)
Lemma search_finds_witness :
  (exists rows pag,
      get_reservations demo (mkQuery None None (Some "dial") None None None)
      = Reply 200 (JObj [("data", JArr rows); ("pagination", pag)])
      /\ In (JObj (demo_reservation 12 4)) rows)
  /\ (exists rows pag r,
         get_colis demo (mkQuery None None (Some "bin") None None None)
         = Reply 200 (JObj [("data", JArr rows); ("pagination", pag)])
         /\ In (JObj r) rows
         /\ col "numero_suivi" r = JStr "COL2B")
  /\ get_creneaux demo (mkQuery None None (Some "dakar") None None None) = Next.
Proof.
  destruct (search_finds demo (mkQuery None None (Some "dial") None None None)
              "dial" "" "Dial" "lo" eq_refl) as (R & _);
    [discriminate | reflexivity | reflexivity |].
  destruct (search_finds demo (mkQuery None None (Some "bin") None None None)
              "bin" "" "Bin" "ta" eq_refl) as (_ & C & _);
    [discriminate | reflexivity | reflexivity |].
  destruct (search_finds demo (mkQuery None None (Some "dakar") None None None)
              "dakar" "" "Dakar" "" eq_refl) as (_ & _ & S);
    [discriminate | reflexivity | reflexivity |].
  split; [|split; [|exact S]].
  - apply (R (demo_reservation 12 4) 10); try reflexivity.
    + simpl. tauto.
    + simpl. tauto.
    + vm_compute. discriminate.
  - destruct (C (demo_colis 2 JNull "COL2B" "en_transit") 10 demo_creneaux_key)
      as (rows & pag & r & E & I & O); try reflexivity.
    + simpl. tauto.
    + simpl. tauto.
    + vm_compute. discriminate.
    + exists rows, pag, r. split; [exact E|]. split; [exact I|].
      rewrite O; [reflexivity | cbv; intuition discriminate].
Defined.

(** The reservations 2, 12 and 1 are listed as 12, 2, 1, and as 1, 2, 12
    when the order is ASC, written with a long s. *)
Lemma list_sorted_witness :
  get_reservations demo_unsorted demo_query
  = Reply 200
      (page_of [demo_reservation 12 4; demo_reservation 2 1; demo_reservation 1 2]
               (pagination 1 10 3))
  /\ numbers_in_order (asks_ascending demo_query) [JNum 12; JNum 2; JNum 1]
  /\ get_reservations demo_unsorted demo_ascending
     = Reply 200
         (page_of [demo_reservation 1 2; demo_reservation 2 1;
                   demo_reservation 12 4]
                  (pagination 1 10 3))
  /\ numbers_in_order (asks_ascending demo_ascending) [JNum 1; JNum 2; JNum 12].
Proof.
  assert (N : forall r, In r (reservations demo_unsorted) ->
                        exists n, col "id" r = JNum n).
  { simpl. intros r [<-|[<-|[<-|[]]]]; eexists; reflexivity. }
  split; [exact eq_refl|]. split; [|split; [exact eq_refl|]].
  - destruct (list_sorted demo_unsorted demo_query "id"
                [demo_reservation 12 4; demo_reservation 2 1; demo_reservation 1 2]
                (pagination 1 10 3)) as (R & _).
    apply (R eq_refl); [|exact N].
    right. split; [reflexivity | now left].
  - destruct (list_sorted demo_unsorted demo_ascending "id"
                [demo_reservation 1 2; demo_reservation 2 1; demo_reservation 12 4]
                (pagination 1 10 3)) as (R & _).
    apply (R eq_refl); [|exact N].
    left. split; [reflexivity | simpl; tauto].
Defined.
